(** * ICLR 2026 rating crawler: a shallow embedding of [fetch_ratings.py]

    The development follows the source file top-down:

    - Python values as [json.loads] produces them ([json]), with the
      truthiness, [.get] and iteration rules the crawler relies on;
    - the regular expressions of [RatingExtractor.RATING_PATTERNS], run by a
      small backtracking matcher that follows the semantics of Python's
      [re.findall];
    - [statistics.mean] and [round] on binary64 floating-point numbers, the
      value of a float being kept as an exact rational;
    - the crawler itself: [fetch_paper_comments],
      [extract_ratings_from_comments], [process_single_paper] and
      [process_papers_batch], written in a state monad over the observable
      effects (requests sent, back-off sleeps). *)

From Stdlib Require Import ZArith NArith QArith Qabs Qround List String Ascii
  Bool Lia Lqa Permutation Sorted DecimalString.
Import ListNotations.

Open Scope Z_scope.

(** ** Python exceptions and fallible computations *)

Inductive exn : Type :=
| AttributeError
| TypeError
| ValueError
| KeyError
| StatisticsError.

Inductive result (A : Type) : Type :=
| Ok (a : A)
| Raise (e : exn).

Arguments Ok {A} a.
Arguments Raise {A} e.

Definition rbind {A B : Type} (m : result A) (f : A -> result B) : result B :=
  match m with
  | Ok a => f a
  | Raise e => Raise e
  end.

Declare Scope result_scope.
Delimit Scope result_scope with result.
Notation "x <- m ;; k" := (rbind m (fun x => k))
  (at level 61, m at next level, right associativity) : result_scope.

(** ** Text

    A Python [str] is a sequence of Unicode code points. *)

Definition char := N.
Definition text := list char.

Definition text_of_string (s : string) : text :=
  map N_of_ascii (list_ascii_of_string s).

(** ** JSON values, as [response.json()] returns them

    A [dict] is kept as the list of its items (keys are distinct, [.get]
    returns the first item with the key).  A float carries its exact value. *)

#[warnings="-register-all"]
Inductive json : Type :=
| JNull
| JBool (b : bool)
| JInt (z : Z)
| JFloat (q : Q)
| JStr (s : text)
| JList (l : list json)
| JDict (d : list (string * json)).

(** [bool(v)]: the truth value Python gives to [v]. *)
Definition truthy (v : json) : bool :=
  match v with
  | JNull => false
  | JBool b => b
  | JInt z => negb (z =? 0)
  | JFloat q => negb (Qeq_bool q 0)
  | JStr s => match s with [] => false | _ => true end
  | JList l => match l with [] => false | _ => true end
  | JDict d => match d with [] => false | _ => true end
  end.

Fixpoint dict_lookup (d : list (string * json)) (key : string) : option json :=
  match d with
  | [] => None
  | (k, v) :: d' => if String.eqb k key then Some v else dict_lookup d' key
  end.

(** [v.get(key, default)]: only a [dict] has the method. *)
Definition py_get (v : json) (key : string) (default : json) : result json :=
  match v with
  | JDict d =>
      match dict_lookup d key with
      | Some x => Ok x
      | None => Ok default
      end
  | _ => Raise AttributeError
  end.

(** [isinstance(v, dict)] *)
Definition isinstance_dict (v : json) : bool :=
  match v with
  | JDict _ => true
  | _ => false
  end.

(** [for x in v]: the elements the loop visits.  A list yields its elements,
    a dict its keys, a string its characters; the other values are not
    iterable. *)
Definition py_iter (v : json) : result (list json) :=
  match v with
  | JList l => Ok l
  | JDict d => Ok (map (fun kv => JStr (text_of_string (fst kv))) d)
  | JStr s => Ok (map (fun c => JStr [c]) s)
  | _ => Raise TypeError
  end.

(** ** [extract_ratings_from_comments] *)

(** The test of line 185:
    [rating_value is not None and isinstance(rating_value, int)
     and 0 <= rating_value <= 10].
    [bool] is a subclass of [int], with [True == 1] and [False == 0]; the
    score list keeps the numeric value. *)
Definition accepted_rating (rating_value : json) : option Z :=
  match rating_value with
  | JInt z => if (0 <=? z) && (z <=? 10) then Some z else None
  | JBool b => if (0 <=? Z.b2z b) && (Z.b2z b <=? 10) then Some (Z.b2z b) else None
  | _ => None
  end.

(** The value inspected for one note (lines 175-182). *)
Definition rating_value_of_note (note : json) : result json :=
  (content <- py_get note "content" (JDict []) ;;
   rating_field <- py_get content "rating" (JDict []) ;;
   if isinstance_dict rating_field
   then py_get rating_field "value" JNull
   else Ok rating_field)%result.

(** The loop of lines 173-186, [ratings] being the list built so far. *)
Fixpoint extract_ratings_loop (notes : list json) (ratings : list Z)
  : result (list Z) :=
  match notes with
  | [] => Ok ratings
  | note :: notes' =>
      (rating_value <- rating_value_of_note note ;;
       match accepted_rating rating_value with
       | Some r => extract_ratings_loop notes' (ratings ++ [r])
       | None => extract_ratings_loop notes' ratings
       end)%result
  end.

Definition extract_ratings_from_comments (comments_data : json)
  : result (list Z) :=
  (notes <- py_get comments_data "notes" (JList []) ;;
   notes <- py_iter notes ;;
   extract_ratings_loop notes [])%result.

(** ** Regular expressions

    The fragment of Python's [re] syntax the source uses: literals, sets,
    ranges, [\d], [\s], greedy [*] and [+] on a single-character item, one
    capturing group, concatenation, alternation and [\b]. *)

Inductive atom : Type :=
| Lit (c : char)
| OneOf (cs : list char)
| Range (lo hi : char)
| Digit
| Space.

Inductive regex : Type :=
| Eps
| Atom (a : atom)
| Star (a : atom)
| Group (r : regex)
| Seq (r1 r2 : regex)
| Alt (r1 r2 : regex)
| Boundary.

Definition Plus (a : atom) : regex := Seq (Atom a) (Star a).

(** The pattern matching the characters of an ASCII string in sequence. *)
Fixpoint lits (cs : text) : regex :=
  match cs with
  | [] => Eps
  | [c] => Atom (Lit c)
  | c :: cs' => Seq (Atom (Lit c)) (lits cs')
  end.

Definition str (s : string) : regex := lits (text_of_string s).

(** [\s] on a [str] pattern: the characters for which [str.isspace()]
    holds. *)
Definition is_space (c : char) : bool :=
  (((9 <=? c) && (c <=? 13)) || ((28 <=? c) && (c <=? 32))
   || (c =? 133) || (c =? 160) || (c =? 5760)
   || ((8192 <=? c) && (c <=? 8202))
   || (c =? 8232) || (c =? 8233) || (c =? 8239) || (c =? 8287)
   || (c =? 12288))%N.

Definition ascii_lower (c : char) : char :=
  (if (65 <=? c) && (c <=? 90) then c + 32 else c)%N.

(** The lower-case mapping [re.IGNORECASE] applies to the subject, for the
    characters whose image is an ASCII letter: the ASCII capitals, U+0130
    (capital I with dot) and U+212A (Kelvin sign). *)
Definition sre_lower (c : char) : char :=
  (if c =? 304 then 105 else if c =? 8490 then 107 else ascii_lower c)%N.

(** A pattern literal [p] against a subject character [c].  Under
    [re.IGNORECASE] the literals "i" and "s" also match U+0131 (dotless i)
    and U+017F (long s).  The literals of the source are ASCII letters or
    uncased characters. *)
Definition lit_matches (ignorecase : bool) (p c : char) : bool :=
  (if ignorecase
   then (sre_lower c =? ascii_lower p)
        || ((ascii_lower p =? 105) && (c =? 305))
        || ((ascii_lower p =? 115) && (c =? 383))
   else c =? p)%N.

(** The Unicode database of the interpreter beyond ASCII: the decimal
    digits (category Nd) with their values, and the alphanumeric
    characters.  Both grow with each Unicode version; nothing below depends
    on their contents. *)
Class UnicodeTables : Type := {
  nonascii_decimal : char -> option Z;
  nonascii_alnum : char -> bool
}.

Section Matcher.

Context {unicode : UnicodeTables}.

(** The digit value of a character, as [int()] reads it. *)
Definition decimal_value (c : char) : option Z :=
  (if c <? 128
   then if (48 <=? c) && (c <=? 57) then Some (Z.of_N c - 48)%Z else None
   else nonascii_decimal c)%N.

(** [\d] *)
Definition is_digit (c : char) : bool :=
  match decimal_value c with
  | Some _ => true
  | None => false
  end.

(** [\w]: alphanumeric or underscore. *)
Definition is_word (c : char) : bool :=
  (if c <? 128
   then ((48 <=? c) && (c <=? 57)) || ((65 <=? c) && (c <=? 90))
        || ((97 <=? c) && (c <=? 122)) || (c =? 95)
   else nonascii_alnum c || is_digit c)%N.

(** The same for a neighbour of the current position, if there is one. *)
Definition is_word_at (c : option char) : bool :=
  match c with
  | Some c => is_word c
  | None => false
  end.

(** A single-character item against a subject character.  (The only
    range of the source, [[1-9]], holds no cased character and is used
    without [re.IGNORECASE].) *)
Definition atom_matches (ignorecase : bool) (a : atom) (c : char) : bool :=
  match a with
  | Lit p => lit_matches ignorecase p c
  | OneOf cs => existsb (fun p => lit_matches ignorecase p c) cs
  | Range lo hi => ((lo <=? c) && (c <=? hi))%N
  | Digit => is_digit c
  | Space => is_space c
  end.

(** The matcher's position in the subject: the character just before it,
    the text still ahead, and the text captured by the group so far. *)
Record mstate : Type := MState {
  before : option char;
  ahead : text;
  group1 : text
}.

(** Greedy [a*]: take as many characters as match, then give back one at
    a time until the continuation [k] succeeds. *)
Fixpoint star_match (ignorecase : bool) (a : atom) (g : text)
    (k : mstate -> option mstate) (prev : option char) (s : text)
  : option mstate :=
  match s with
  | c :: s' =>
      if atom_matches ignorecase a c
      then match star_match ignorecase a g k (Some c) s' with
           | Some m => Some m
           | None => k (MState prev s g)
           end
      else k (MState prev s g)
  | [] => k (MState prev s g)
  end.

(** Backtracking matcher in continuation-passing style: [rmatch r st k]
    matches [r] at [st] and hands the position after it to [k]; the
    first alternative for which [k] succeeds wins. *)
Fixpoint rmatch (ignorecase : bool) (r : regex) (st : mstate)
    (k : mstate -> option mstate) : option mstate :=
  match r with
  | Eps => k st
  | Atom a =>
      match ahead st with
      | c :: s' =>
          if atom_matches ignorecase a c
          then k (MState (Some c) s' (group1 st))
          else None
      | [] => None
      end
  | Star a => star_match ignorecase a (group1 st) k (before st) (ahead st)
  | Group r1 =>
      rmatch ignorecase r1 st (fun st' =>
        k (MState (before st') (ahead st')
             (firstn (List.length (ahead st) - List.length (ahead st'))
                (ahead st))))
  | Seq r1 r2 =>
      rmatch ignorecase r1 st (fun st' => rmatch ignorecase r2 st' k)
  | Alt r1 r2 =>
      match rmatch ignorecase r1 st k with
      | Some m => Some m
      | None => rmatch ignorecase r2 st k
      end
  | Boundary =>
      if xorb (is_word_at (before st)) (is_word_at (hd_error (ahead st)))
      then k st
      else None
  end.

(** One match attempt at a position: the group's text and the number of
    characters the match spans. *)
Definition match_here (ignorecase : bool) (r : regex) (prev : option char)
    (s : text) : option (text * nat) :=
  match rmatch ignorecase r (MState prev s []) Some with
  | Some m => Some (group1 m, (List.length s - List.length (ahead m))%nat)
  | None => None
  end.

(** [re.findall] for a pattern with one group: scan from the left; a
    match yields the group's text and the scan resumes where the match
    ended.  [skip] counts the characters of the last match still to step
    over.  (Every pattern of the source consumes a character, so the
    treatment of empty matches does not matter here.) *)
Fixpoint findall_from (ignorecase : bool) (r : regex) (prev : option char)
    (s : text) (skip : nat) : list text :=
  match skip with
  | S skip' =>
      match s with
      | c :: s' => findall_from ignorecase r (Some c) s' skip'
      | [] => []
      end
  | O =>
      match match_here ignorecase r prev s with
      | Some (g, n) =>
          g :: match s with
               | c :: s' => findall_from ignorecase r (Some c) s' (pred n)
               | [] => []
               end
      | None =>
          match s with
          | c :: s' => findall_from ignorecase r (Some c) s' O
          | [] => []
          end
      end
  end.

Definition findall (ignorecase : bool) (r : regex) (s : text) : list text :=
  findall_from ignorecase r None s O.

(** ** [int(str)]

    CPython refuses to convert more than [sys.int_info.default_max_str_digits]
    digits and raises [ValueError]. *)
Definition default_max_str_digits : nat := 4300.

Fixpoint int_of_digits (acc : Z) (s : text) : result Z :=
  match s with
  | [] => Ok acc
  | c :: s' =>
      match decimal_value c with
      | Some d => int_of_digits (10 * acc + d) s'
      | None => Raise ValueError
      end
  end.

Definition py_int (s : text) : result Z :=
  match s with
  | [] => Raise ValueError
  | _ => if (default_max_str_digits <? List.length s)%nat
         then Raise ValueError
         else int_of_digits 0 s
  end.

(** ** [RatingExtractor] *)

(** [[:：]]: the ASCII colon or the full-width colon U+FF1A. *)
Definition colon : atom := OneOf [58; 65306]%N.

(** [\s*(\d+)] *)
Definition capture_digits : regex := Seq (Star Space) (Group (Plus Digit)).

(** The eight patterns, in the order of the source:
    - [Rating:\s*(\d+)]
    - the two characters U+8BC4 U+5206, then [[:：]\s*(\d+)]
    - [rating[:：]\s*(\d+)]
    - [(\d+)\s*/\s*10]
    - [(\d+)\s*out\s*of\s*10]
    - [Overall\s*Rating[:：]\s*(\d+)]
    - [Overall[:：]\s*(\d+)]
    - [Recommendation[:：]\s*(\d+)] *)
Definition RATING_PATTERNS : list regex :=
  [ Seq (str "Rating:") capture_digits;
    Seq (lits [35780; 20998]%N) (Seq (Atom colon) capture_digits);
    Seq (str "rating") (Seq (Atom colon) capture_digits);
    Seq (Group (Plus Digit))
      (Seq (Star Space) (Seq (str "/") (Seq (Star Space) (str "10"))));
    Seq (Group (Plus Digit))
      (Seq (Star Space) (Seq (str "out") (Seq (Star Space)
        (Seq (str "of") (Seq (Star Space) (str "10"))))));
    Seq (str "Overall") (Seq (Star Space)
      (Seq (str "Rating") (Seq (Atom colon) capture_digits)));
    Seq (str "Overall") (Seq (Atom colon) capture_digits);
    Seq (str "Recommendation") (Seq (Atom colon) capture_digits) ].

(** [\b([1-9]|10)\b] *)
Definition STANDALONE_NUMBER : regex :=
  Seq Boundary
    (Seq (Group (Alt (Atom (Range 49%N 57%N)) (str "10"))) Boundary).

(** The loop of lines 71-80 over the patterns still to try: a first match
    whose number is out of [1,10], or does not convert, passes the turn to
    the next pattern. *)
Fixpoint try_patterns (patterns : list regex) (t : text) : option Z :=
  match patterns with
  | [] => None
  | pattern :: patterns' =>
      match findall true pattern t with
      | m0 :: _ =>
          match py_int m0 with
          | Ok rating =>
              if (1 <=? rating) && (rating <=? 10)
              then Some rating
              else try_patterns patterns' t
          | Raise _ => try_patterns patterns' t
          end
      | [] => try_patterns patterns' t
      end
  end.

(** Lines 83-90: the number standing alone in the text, when there is
    exactly one. *)
Definition lone_number (t : text) : option Z :=
  match findall false STANDALONE_NUMBER t with
  | [n] =>
      match py_int n with
      | Ok v => Some v
      | Raise _ => None
      end
  | _ => None
  end.

Definition extract_rating_from_text (t : text) : option Z :=
  match t with
  | [] => None
  | _ =>
      match try_patterns RATING_PATTERNS t with
      | Some rating => Some rating
      | None => lone_number t
      end
  end.

End Matcher.

(** A database with no entry beyond ASCII, to run the extractor on ASCII
    text. *)
Definition ascii_tables : UnicodeTables :=
  {| nonascii_decimal := fun _ => None; nonascii_alnum := fun _ => false |}.

(** ** Numbers: [statistics.mean] and [round]

    A Python number is an [int] or a [float].  A float is an IEEE 754
    binary64 number and is represented by its exact rational value; an
    operation that rounds says so.  The exponent range is not bounded below
    or above: the numbers met here lie between [1 / len(ratings)] and [10],
    far from the subnormal and overflow ranges of binary64. *)

Inductive pynum : Type :=
| PInt (z : Z)
| PFloat (q : Q).

Definition num_value (x : pynum) : Q :=
  match x with
  | PInt z => inject_Z z
  | PFloat q => q
  end.

(** The integer nearest to [q], ties going to the even neighbour. *)
Definition round_half_even (q : Q) : Z :=
  let n := Qnum q in
  let d := Z.pos (Qden q) in
  let f := n / d in
  match 2 * (n mod d) ?= d with
  | Lt => f
  | Gt => f + 1
  | Eq => if Z.even f then f else f + 1
  end.

(** [floor (log2 q)] for [q > 0]. *)
Definition floor_log2 (q : Q) : Z :=
  let n := Qnum q in
  let d := Z.pos (Qden q) in
  let e := Z.log2 n - Z.log2 d in
  if (if 0 <=? e then 2 ^ e * d <=? n else d <=? 2 ^ (- e) * n)
  then e
  else e - 1.

(** The binary64 number nearest to [q] (round to nearest, ties to even):
    [q] is scaled so that its integer part has 53 bits, rounded to an
    integer, and scaled back. *)
Definition round_to_binary64 (q : Q) : Q :=
  if Qeq_bool q 0 then 0%Q
  else
    let shift := 52 - floor_log2 (Qabs q) in
    if 0 <=? shift
    then (inject_Z (round_half_even (q * inject_Z (2 ^ shift)))
          / inject_Z (2 ^ shift))%Q
    else (inject_Z (round_half_even (q / inject_Z (2 ^ (- shift))))
          * inject_Z (2 ^ (- shift)))%Q.

Definition sum_Z (l : list Z) : Z := fold_right Z.add 0 l.

(** The exact mean of a non-empty list, as a fraction. *)
Definition exact_mean (l : list Z) : Q :=
  Qmake (sum_Z l) (Z.to_pos (Z.of_nat (List.length l))).

(** [statistics.mean] on a list of [int]: the exact quotient, returned as
    an [int] when it is a whole number and converted to [float]
    otherwise. *)
Definition statistics_mean (data : list Z) : result pynum :=
  match data with
  | [] => Raise StatisticsError
  | _ =>
      let total := sum_Z data in
      let n := Z.of_nat (List.length data) in
      if total mod n =? 0
      then Ok (PInt (total / n))
      else Ok (PFloat (round_to_binary64 (exact_mean data)))
  end.

(** [round(x, 2)] on a float: the exact value is rounded to the nearest
    multiple of 1/100 (ties to even) and the result converted back to
    binary64. *)
Definition round_float_2 (q : Q) : Q :=
  round_to_binary64 (inject_Z (round_half_even (q * 100)) / 100).

(** [round(x, 2)]: an [int] is returned unchanged. *)
Definition py_round2 (x : pynum) : pynum :=
  match x with
  | PInt z => PInt z
  | PFloat q => PFloat (round_float_2 q)
  end.

(** [min] and [max] of a list; they raise on the empty list. *)
Definition py_min (l : list Z) : result Z :=
  match l with
  | [] => Raise ValueError
  | x :: l' => Ok (fold_left Z.min l' x)
  end.

Definition py_max (l : list Z) : result Z :=
  match l with
  | [] => Raise ValueError
  | x :: l' => Ok (fold_left Z.max l' x)
  end.

(** ** The crawler *)

Record PaperRatingInfo : Type := mkPaperRatingInfo {
  paper_id : string;
  ratings : list Z;
  min_rating : option Z;
  max_rating : option Z;
  avg_rating : option pynum;
  reviewer_count : nat
}.

(** What [self.session.get] does on one call, after the retries of the
    mounted adapter: a response with a status code and a body, which parses
    as JSON or does not, or a [requests] exception (time-out, connection
    error, retries exhausted), or any other exception. *)
Inductive http_outcome : Type :=
| Response (status_code : Z) (body : option json)
| RequestException
| OtherException.

(** The effects a run leaves behind. *)
Inductive event : Type :=
| EvFetch (paper : string)
| EvSleep (seconds : Q).

Record world : Type := mkWorld {
  calls : nat;
  log : list event
}.

Definition initial_world : world := mkWorld 0 [].

Definition M (A : Type) : Type := world -> A * world.

Definition ret {A : Type} (a : A) : M A := fun w => (a, w).

Definition bind {A B : Type} (m : M A) (f : A -> M B) : M B :=
  fun w => let (a, w') := m w in f a w'.

Declare Scope crawler_scope.
Delimit Scope crawler_scope with crawler.
Notation "x <- m ;; k" := (bind m (fun x => k))
  (at level 61, m at next level, right associativity) : crawler_scope.
Notation "m ;;; k" := (bind m (fun _ => k))
  (at level 61, right associativity) : crawler_scope.

Definition time_sleep (seconds : Q) : M unit :=
  fun w => (tt, mkWorld (calls w) (log w ++ [EvSleep seconds])).

Section Crawler.

(** The remote service: the outcome of the [k]-th request for a paper. *)
Variable session_get : string -> nat -> http_outcome.

(** Lines 145-158, the value returned: every failure is reported as
    [None]. *)
Definition fetched (outcome : http_outcome) : option json :=
  match outcome with
  | Response status_code body =>
      if (400 <=? status_code) && (status_code <? 600)
      then None            (* raise_for_status: HTTPError *)
      else body            (* response.json(), None on JSONDecodeError *)
  | RequestException => None
  | OtherException => None
  end.

Definition fetch_paper_comments (paper : string) : M (option json) :=
  fun w =>
    (fetched (session_get paper (calls w)),
     mkWorld (S (calls w)) (log w ++ [EvFetch paper])).

(** [not comments_data] *)
Definition not_comments_data (comments_data : option json) : bool :=
  match comments_data with
  | None => true
  | Some v => negb (truthy v)
  end.

(** Lines 217-235: the record built from the extracted ratings. *)
Definition rating_info (paper : string) (rs : list Z) : PaperRatingInfo :=
  match rs with
  | [] => mkPaperRatingInfo paper [] None None None 0
  | _ =>
      mkPaperRatingInfo paper rs
        (match py_min rs with Ok m => Some m | Raise _ => None end)
        (match py_max rs with Ok m => Some m | Raise _ => None end)
        (match statistics_mean rs with
         | Ok m => Some (py_round2 m)
         | Raise _ => None
         end)
        (List.length rs)
  end.

(** [(2 ** attempt) * 0.5] *)
Definition wait_time (attempt : Z) : Q := inject_Z (2 ^ attempt) * (1 # 2).

(** The loop of lines 201-247; [todo] counts the iterations
    [range(max_retries)] still has to give. *)
Fixpoint attempts (paper : string) (max_retries attempt : Z) (todo : nat)
  : M (option PaperRatingInfo) :=
  match todo with
  | O => ret None
  | S todo' =>
      (* lines 206-212 and 239-245: back off and go round again, or give up *)
      let retry_or_fail : M (option PaperRatingInfo) :=
        (if attempt <? max_retries - 1
         then time_sleep (wait_time attempt) ;;;
              attempts paper max_retries (attempt + 1) todo'
         else ret None)%crawler in
      (comments_data <- fetch_paper_comments paper ;;
       if not_comments_data comments_data
       then retry_or_fail
       else
         match comments_data with
         | None => retry_or_fail
         | Some data =>
             match extract_ratings_from_comments data with
             | Ok rs => ret (Some (rating_info paper rs))
             | Raise _ => retry_or_fail
             end
         end)%crawler
  end.

Definition process_single_paper (paper : string) (max_retries : Z)
  : M (option PaperRatingInfo) :=
  attempts paper max_retries 0 (Z.to_nat max_retries).


(** An attempt that does not return from the loop: the fetch gave nothing
    usable, or the extraction raised. *)
Definition attempt_fails (outcome : http_outcome) : bool :=
  match fetched outcome with
  | None => true
  | Some data =>
      negb (truthy data)
      || match extract_ratings_from_comments data with
         | Ok _ => false
         | Raise _ => true
         end
  end.

(** The effects of [k] failed attempts in a row, the first being attempt
    number [attempt]: a request and a back-off sleep each. *)
Fixpoint retry_log (paper : string) (attempt : Z) (k : nat) : list event :=
  match k with
  | O => []
  | S k' =>
      EvFetch paper :: EvSleep (wait_time attempt)
      :: retry_log paper (attempt + 1) k'
  end.


End Crawler.

(** The crawler object, as far as the batch uses it. *)
Record crawler : Type := mkCrawler {
  max_workers : Z;
  delay : Q;
  failed_papers : list string
}.





Section Batch.

(** The pool runs the tasks concurrently; the task submitted [i]-th sees
    the service through its own sequence of requests. *)
Variable service : nat -> string -> nat -> http_outcome.




End Batch.


(** ** Notions of the specification *)

(** A review record exposes the structured score field with value [x]:
    its content holds [x] under "rating", directly or wrapped as
    [{"value": x}]. *)
Definition structured_score (note : json) (x : json) : Prop :=
  exists fields content,
    note = JDict fields /\
    dict_lookup fields "content" = Some (JDict content) /\
    ((dict_lookup content "rating" = Some x /\ isinstance_dict x = false) \/
     (exists d, dict_lookup content "rating" = Some (JDict d) /\
                dict_lookup d "value" = Some x)).

(** The response carries the review thread [notes]: it is an object whose
    "notes" member is that list, whatever its other members; an object
    without the member carries the empty thread. *)
Definition response_thread (comments_data : json) (notes : list json)
  : Prop :=
  exists fields,
    comments_data = JDict fields /\
    (dict_lookup fields "notes" = Some (JList notes) \/
     (dict_lookup fields "notes" = None /\ notes = [])).

(** [x] is a Python [int] of value [v]: a JSON integer, or a boolean
    ([bool] is a subclass of [int], with [True == 1] and [False == 0]).
    A float, a string, [null], a list and an object are not. *)
Definition python_int (x : json) (v : Z) : Prop :=
  x = JInt v \/ (x = JBool true /\ v = 1) \/ (x = JBool false /\ v = 0).

(** The score a value of the structured field stands for: the value
    itself when it is an [int] of [0,10], none otherwise. *)
Inductive value_score (x : json) : option Z -> Prop :=
| value_score_some (v : Z) :
    python_int x v -> 0 <= v <= 10 -> value_score x (Some v)
| value_score_none :
    (forall v, python_int x v -> ~ 0 <= v <= 10) -> value_score x None.

(** The score of a review record, read off its shape.  The record is an
    object; its "content", when present, is an object; the "rating" of the
    content, when present, is the value itself or an object that holds the
    value under "value". *)
Inductive note_score : json -> option Z -> Prop :=
| note_without_content (fields : list (string * json)) :
    dict_lookup fields "content" = None ->
    note_score (JDict fields) None
| note_without_rating (fields content : list (string * json)) :
    dict_lookup fields "content" = Some (JDict content) ->
    dict_lookup content "rating" = None ->
    note_score (JDict fields) None
| note_with_bare_rating (fields content : list (string * json)) (x : json)
    (s : option Z) :
    dict_lookup fields "content" = Some (JDict content) ->
    dict_lookup content "rating" = Some x ->
    isinstance_dict x = false ->
    value_score x s ->
    note_score (JDict fields) s
| note_with_wrapped_rating (fields content d : list (string * json))
    (x : json) (s : option Z) :
    dict_lookup fields "content" = Some (JDict content) ->
    dict_lookup content "rating" = Some (JDict d) ->
    dict_lookup d "value" = Some x ->
    value_score x s ->
    note_score (JDict fields) s
| note_with_empty_wrapper (fields content d : list (string * json)) :
    dict_lookup fields "content" = Some (JDict content) ->
    dict_lookup content "rating" = Some (JDict d) ->
    dict_lookup d "value" = None ->
    note_score (JDict fields) None.

(** The scores of a thread, one record after the other. *)
Fixpoint scores_of (scores : list (option Z)) : list Z :=
  match scores with
  | [] => []
  | Some v :: scores' => v :: scores_of scores'
  | None :: scores' => scores_of scores'
  end.

(** An attempt that gives the processor nothing to return: the request
    raised, the status is an error status (400 to 599), the body is not
    JSON, the JSON body is falsy, or the extraction raises on it. *)
Inductive unusable : http_outcome -> Prop :=
| unusable_request_exception : unusable RequestException
| unusable_other_exception : unusable OtherException
| unusable_error_status (status_code : Z) (body : option json) :
    400 <= status_code < 600 -> unusable (Response status_code body)
| unusable_not_json (status_code : Z) : unusable (Response status_code None)
| unusable_falsy_body (status_code : Z) (data : json) :
    truthy data = false -> unusable (Response status_code (Some data))
| unusable_extraction_raises (status_code : Z) (data : json) (e : exn) :
    extract_ratings_from_comments data = Raise e ->
    unusable (Response status_code (Some data)).


Section StandaloneTokens.

Context {unicode : UnicodeTables}.

(** The standalone token in [1,10] starting at a position, if there is
    one: the digits "1" to "9" or the two digits "10", with no word
    character immediately before or after. *)
Definition standalone_token_at (prev : option char) (s : text) : option Z :=
  match s with
  | c :: s' =>
      if is_word_at prev then None
      else if ((49 <=? c) && (c <=? 57))%N && negb (is_word_at (hd_error s'))
      then Some (Z.of_N c - 48)
      else
        match s' with
        | d :: s'' =>
            if (c =? 49)%N && (d =? 48)%N && negb (is_word_at (hd_error s''))
            then Some 10
            else None
        | [] => None
        end
  | [] => None
  end.

(** All standalone tokens of a text, from left to right. *)
Fixpoint standalone_tokens_from (prev : option char) (s : text) : list Z :=
  match s with
  | [] => []
  | c :: s' =>
      match standalone_token_at prev s with
      | Some t => t :: standalone_tokens_from (Some c) s'
      | None => standalone_tokens_from (Some c) s'
      end
  end.

Definition standalone_tokens (s : text) : list Z :=
  standalone_tokens_from None s.

(** The characters of a token. *)
Definition token_text (t : Z) : text :=
  if t =? 10 then [49; 48]%N else [Z.to_N (t + 48)].

(** No label pattern matches anywhere in the text. *)
Definition no_label_match (t : text) : Prop :=
  Forall (fun pattern => findall true pattern t = []) RATING_PATTERNS.

End StandaloneTokens.







(** * The rest of the program *)

(** The scores a list of inspected values contributes, in order. *)
Fixpoint accepted_ratings (values : list json) : list Z :=
  match values with
  | [] => []
  | v :: values' =>
      match accepted_rating v with
      | Some r => r :: accepted_ratings values'
      | None => accepted_ratings values'
      end
  end.

(** What the loop iterates over. *)
Definition thread_items (comments_data : json) : result (list json) :=
  (notes <- py_get comments_data "notes" (JList []) ;; py_iter notes)%result.

(** The seconds a run has slept, and the requests it has sent. *)
Fixpoint total_sleep (l : list event) : Q :=
  match l with
  | [] => 0
  | EvSleep seconds :: l' => seconds + total_sleep l'
  | EvFetch _ :: l' => total_sleep l'
  end.

Fixpoint requests_sent (l : list event) : nat :=
  match l with
  | [] => 0
  | EvFetch _ :: l' => S (requests_sent l')
  | EvSleep _ :: l' => requests_sent l'
  end.

Section BatchOutcome.

Variable service : nat -> string -> nat -> http_outcome.
Variable paper_ids : list string.




End BatchOutcome.

(** ** [load_paper_ids_from_json] *)

(** The loop of lines 347-350, [paper_ids] being the list built so far.
    An identifier is whatever value the entry holds under "paper_id". *)
Fixpoint load_paper_ids_loop (papers : list json) (paper_ids : list json)
  : result (list json) :=
  match papers with
  | [] => Ok paper_ids
  | paper :: papers' =>
      (id <- py_get paper "paper_id" JNull ;;
       if truthy id
       then load_paper_ids_loop papers' (paper_ids ++ [id])
       else load_paper_ids_loop papers' paper_ids)%result
  end.

(** [file] is what [json.load] reads, [None] when the file cannot be
    opened or is not JSON.  Any exception gives the empty list. *)
Definition load_paper_ids_from_json (file : option json) : list json :=
  match file with
  | None => []
  | Some papers =>
      match (items <- py_iter papers ;; load_paper_ids_loop items [])%result
      with
      | Ok paper_ids => paper_ids
      | Raise _ => []
      end
  end.

(** The identifier an entry of the file contributes, if any. *)
Definition entry_id (fields : list (string * json)) : list json :=
  match dict_lookup fields "paper_id" with
  | Some id => if truthy id then [id] else []
  | None => []
  end.

(** ** [save_results] and [run] *)

Definition json_of_num (x : pynum) : json :=
  match x with
  | PInt z => JInt z
  | PFloat q => JFloat q
  end.

Definition json_of_option {A : Type} (f : A -> json) (o : option A) : json :=
  match o with
  | Some a => f a
  | None => JNull
  end.

(** Lines 297-304: the dictionary written for one record. *)
Definition result_row (r : PaperRatingInfo) : json :=
  JDict [("paper_id"%string, JStr (text_of_string (paper_id r)));
         ("ratings"%string, JList (map JInt (ratings r)));
         ("min_rating"%string, json_of_option JInt (min_rating r));
         ("max_rating"%string, json_of_option JInt (max_rating r));
         ("avg_rating"%string, json_of_option json_of_num (avg_rating r));
         ("reviewer_count"%string, JInt (Z.of_nat (reviewer_count r)))].

(** [s.replace(old, new)] for a non-empty [old]: the occurrences of [old]
    are replaced from the left; [skip] counts the characters of the last
    occurrence still to step over. *)
Fixpoint replace_from (old new s : string) (skip : nat) : string :=
  match s with
  | EmptyString => EmptyString
  | String c s' =>
      match skip with
      | S skip' => replace_from old new s' skip'
      | O =>
          if String.prefix old s
          then new ++ replace_from old new s' (String.length old - 1)
          else String c (replace_from old new s' 0)
      end
  end.

Definition str_replace (old new s : string) : string :=
  replace_from old new s 0.

(** [old in s] *)
Fixpoint str_contains (old s : string) : bool :=
  String.prefix old s
  || match s with
     | EmptyString => false
     | String _ s' => str_contains old s'
     end.

(** What a file holds after a write: the list dumped as JSON, or the rows
    handed to [csv.DictWriter] after the header. *)
Inductive file_content : Type :=
| JsonFile (data : list json)
| CsvFile (fieldnames : list string) (rows : list json).

(** The files written, the latest first. *)
Definition files : Type := list (string * file_content).

Definition file_write (name : string) (content : file_content) (fs : files)
  : files :=
  (name, content) :: fs.

Fixpoint file_read (fs : files) (name : string) : option file_content :=
  match fs with
  | [] => None
  | (n, content) :: fs' =>
      if String.eqb n name then Some content else file_read fs' name
  end.

(** [str(n)] for an [int]. *)
Definition str_of_int (n : Z) : string :=
  NilZero.string_of_int (Z.to_int n).

(** Lines 324-325: the row handed to [csv.DictWriter], with the scores
    joined into one cell. *)
Definition csv_row (r : PaperRatingInfo) : json :=
  JDict [("paper_id"%string, JStr (text_of_string (paper_id r)));
         ("ratings"%string,
          JStr (text_of_string
                  (String.concat "; " (map str_of_int (ratings r)))));
         ("min_rating"%string, json_of_option JInt (min_rating r));
         ("max_rating"%string, json_of_option JInt (max_rating r));
         ("avg_rating"%string, json_of_option json_of_num (avg_rating r));
         ("reviewer_count"%string, JInt (Z.of_nat (reviewer_count r)))].

Definition csv_fieldnames : list string :=
  ["paper_id"; "ratings"; "min_rating"; "max_rating"; "avg_rating";
   "reviewer_count"]%string.

(** Lines 286-330, both writes going through. *)
Definition save_results (results : list PaperRatingInfo)
    (output_file : string) (fs : files) : files :=
  let fs := file_write output_file (JsonFile (map result_row results)) fs in
  let csv_file := str_replace ".json" ".csv" output_file in
  file_write csv_file (CsvFile csv_fieldnames (map csv_row results)) fs.

Section Run.

Variable service : nat -> string -> nat -> http_outcome.


End Run.

(** ** [show_statistics]

    The function only prints; the definitions give what it computes on the
    way. *)

(** [[r for r in results if r.ratings]] *)
Definition papers_with_ratings (results : list PaperRatingInfo)
  : list PaperRatingInfo :=
  filter (fun r => match ratings r with [] => false | _ => true end) results.

(** Lines 417-419 *)
Definition all_ratings (results : list PaperRatingInfo) : list Z :=
  flat_map ratings (papers_with_ratings results).

(** A [dict] from scores to counts, as the list of its items. *)
Fixpoint counts_get (d : list (Z * nat)) (rating : Z) (default : nat) : nat :=
  match d with
  | [] => default
  | (k, v) :: d' => if k =? rating then v else counts_get d' rating default
  end.

(** [d[rating] = v]: an existing key keeps its place, a new one goes last. *)
Fixpoint counts_set (d : list (Z * nat)) (rating : Z) (v : nat)
  : list (Z * nat) :=
  match d with
  | [] => [(rating, v)]
  | (k, v') :: d' =>
      if k =? rating then (k, v) :: d' else (k, v') :: counts_set d' rating v
  end.

(** Lines 428-430 *)
Fixpoint rating_counts_loop (ratings : list Z) (rating_counts : list (Z * nat))
  : list (Z * nat) :=
  match ratings with
  | [] => rating_counts
  | rating :: ratings' =>
      rating_counts_loop ratings'
        (counts_set rating_counts rating
           (counts_get rating_counts rating 0 + 1))
  end.

Definition rating_counts (ratings : list Z) : list (Z * nat) :=
  rating_counts_loop ratings [].

(** [sorted] on integers. *)
Fixpoint insert_sorted (x : Z) (l : list Z) : list Z :=
  match l with
  | [] => [x]
  | y :: l' => if x <=? y then x :: l else y :: insert_sorted x l'
  end.

Definition py_sorted (l : list Z) : list Z := fold_right insert_sorted [] l.

(** Lines 433-436: the pairs of a score and its count, in the order they
    are printed. *)
Definition rating_distribution (results : list PaperRatingInfo)
  : list (Z * nat) :=
  let counts := rating_counts (all_ratings results) in
  map (fun rating => (rating, counts_get counts rating 0))
      (py_sorted (map fst counts)).
(** The counts of a distribution, added up. *)
Definition sum_counts (d : list (Z * nat)) : nat :=
  fold_right (fun kv n => (snd kv + n)%nat) 0%nat d.

(** ** Letter case in the text extractor *)

(** Two characters that differ at most by the case of an ASCII letter, and
    two texts that do so position by position. *)
Definition same_letter (c c' : char) : Prop := ascii_lower c = ascii_lower c'.

Definition same_text_up_to_case (t t' : text) : Prop := Forall2 same_letter t t'.

Definition is_ascii_letter (c : char) : bool :=
  (((65 <=? c) && (c <=? 90)) || ((97 <=? c) && (c <=? 122)))%N.

(** An item whose verdict does not depend on the case of the subject:
    under [re.IGNORECASE] every item of the source but a range; without
    the flag, a literal that is no letter and a range below the letters. *)
Definition case_blind_atom (ignorecase : bool) (a : atom) : bool :=
  match a with
  | Lit p => ignorecase || negb (is_ascii_letter p)
  | OneOf cs => ignorecase || forallb (fun p => negb (is_ascii_letter p)) cs
  | Range lo hi => (hi <? 65)%N
  | Digit => true
  | Space => true
  end.

Fixpoint case_blind (ignorecase : bool) (r : regex) : bool :=
  match r with
  | Eps => true
  | Atom a => case_blind_atom ignorecase a
  | Star a => case_blind_atom ignorecase a
  | Group r1 => case_blind ignorecase r1
  | Seq r1 r2 => case_blind ignorecase r1 && case_blind ignorecase r2
  | Alt r1 r2 => case_blind ignorecase r1 && case_blind ignorecase r2
  | Boundary => true
  end.
(** Matcher states over two texts equal up to case. *)
Definition same_state (st st' : mstate) : Prop :=
  match before st, before st' with
  | Some c, Some c' => same_letter c c'
  | None, None => True
  | _, _ => False
  end /\
  same_text_up_to_case (ahead st) (ahead st') /\
  same_text_up_to_case (group1 st) (group1 st').

Definition same_result (m m' : option mstate) : Prop :=
  match m, m' with
  | Some st, Some st' => same_state st st'
  | None, None => True
  | _, _ => False
  end.

Definition same_prev (p p' : option char) : Prop :=
  match p, p' with
  | Some c, Some c' => same_letter c c'
  | None, None => True
  | _, _ => False
  end.

(** ** [filter_high_rated_papers.py] *)

Fixpoint text_prefix (p s : text) : bool :=
  match p, s with
  | [], _ => true
  | a :: p', b :: s' => (a =? b)%N && text_prefix p' s'
  | _ :: _, [] => false
  end.

(** [p in s] on two strings. *)
Fixpoint text_contains (p s : text) : bool :=
  text_prefix p s
  || match s with
     | [] => false
     | _ :: s' => text_contains p s'
     end.

Definition text_eqb (s t : text) : bool :=
  if list_eq_dec N.eq_dec s t then true else false.

(** [key in v] for a string [key]: a key of a dict, an element of a list,
    a substring of a string; the other values are not containers. *)
Definition py_contains (key : string) (v : json) : result bool :=
  match v with
  | JDict d =>
      Ok (match dict_lookup d key with Some _ => true | None => false end)
  | JList l =>
      Ok (existsb (fun x => match x with
                            | JStr s => text_eqb s (text_of_string key)
                            | _ => false
                            end) l)
  | JStr s => Ok (text_contains (text_of_string key) s)
  | _ => Raise TypeError
  end.

(** [v[key]] for a string [key]: only a dict can be indexed by a string. *)
Definition py_getitem (v : json) (key : string) : result json :=
  match v with
  | JDict d =>
      match dict_lookup d key with
      | Some x => Ok x
      | None => Raise KeyError
      end
  | _ => Raise TypeError
  end.

(** The value of a number; [bool] counts as [int]. *)
Definition number_value (v : json) : option Q :=
  match v with
  | JInt z => Some (inject_Z z)
  | JFloat q => Some q
  | JBool b => Some (inject_Z (Z.b2z b))
  | _ => None
  end.

(** [a >= b] for a number [b]: any other value for [a] but a number
    raises. *)
Definition py_ge (a : json) (b : pynum) : result bool :=
  match number_value a with
  | Some q => Ok (Qle_bool (num_value b) q)
  | None => Raise TypeError
  end.

(** [key not in paper or paper[key] is None] *)
Definition lacks (key : string) (paper : json) : result bool :=
  (present <- py_contains key paper ;;
   if present
   then v <- py_getitem paper key ;;
        Ok (match v with JNull => true | _ => false end)
   else Ok true)%result.

(** Lines 46-57: does the loop append the paper? *)
Definition meets_criteria (min_avg_rating min_min_rating : pynum)
    (paper : json) : result bool :=
  (no_avg <- lacks "avg_rating" paper ;;
   if no_avg then Ok false
   else
     no_min <- lacks "min_rating" paper ;;
     if no_min then Ok false
     else
       avg_rating <- py_getitem paper "avg_rating" ;;
       min_rating <- py_getitem paper "min_rating" ;;
       high <- py_ge avg_rating min_avg_rating ;;
       if high then py_ge min_rating min_min_rating else Ok false)%result.

Fixpoint filter_loop (min_avg_rating min_min_rating : pynum)
    (papers_data filtered_papers : list json) : result (list json) :=
  match papers_data with
  | [] => Ok filtered_papers
  | paper :: papers' =>
      (keep <- meets_criteria min_avg_rating min_min_rating paper ;;
       filter_loop min_avg_rating min_min_rating papers'
         (if keep then filtered_papers ++ [paper] else filtered_papers)
      )%result
  end.

(** The sort key [x['avg_rating']].  Every paper that went through the
    filter holds a number there, so the comparison of two keys cannot
    raise. *)
Definition sort_key (paper : json) : result Q :=
  (v <- py_getitem paper "avg_rating" ;;
   match number_value v with
   | Some q => Ok q
   | None => Raise TypeError
   end)%result.

Fixpoint decorate (papers : list json) : result (list (Q * json)) :=
  match papers with
  | [] => Ok []
  | paper :: papers' =>
      (key <- sort_key paper ;;
       rest <- decorate papers' ;;
       Ok ((key, paper) :: rest))%result
  end.

(** [list.sort(key=..., reverse=True)]: decreasing keys, the elements
    with equal keys staying in their order.  [x] stood before all of [l]. *)
Fixpoint insert_desc (x : Q * json) (l : list (Q * json)) : list (Q * json) :=
  match l with
  | [] => [x]
  | y :: l' =>
      if Qle_bool (fst y) (fst x) then x :: l else y :: insert_desc x l'
  end.

Definition sort_desc (l : list (Q * json)) : list (Q * json) :=
  fold_right insert_desc [] l.

Definition filter_and_sort_papers (papers_data : list json)
    (min_avg_rating min_min_rating : pynum) : result (list json) :=
  (filtered_papers <-
     filter_loop min_avg_rating min_min_rating papers_data [] ;;
   decorated <- decorate filtered_papers ;;
   Ok (map snd (sort_desc decorated)))%result.

(** The number a paper holds under a key, when it holds one. *)
Definition field_number (key : string) (paper : json) : option Q :=
  match paper with
  | JDict d =>
      match dict_lookup d key with
      | Some v => number_value v
      | None => None
      end
  | _ => None
  end.

(** The papers the loop keeps. *)
Definition qualifies (min_avg_rating min_min_rating : pynum) (paper : json)
  : bool :=
  match meets_criteria min_avg_rating min_min_rating paper with
  | Ok true => true
  | _ => false
  end.

(** What the loop leaves in [filtered_papers]. *)
Definition selected (min_avg_rating min_min_rating : pynum)
    (papers_data : list json) : list json :=
  filter (qualifies min_avg_rating min_min_rating) papers_data.

(** The papers of a list whose average is [q]. *)
Definition with_average (q : Q) (papers : list json) : list json :=
  filter (fun paper => match field_number "avg_rating" paper with
                       | Some a => Qeq_bool a q
                       | None => false
                       end) papers.
(** The keys the sort compares are the averages of the papers. *)
Definition decorated_ok (l : list (Q * json)) : Prop :=
  Forall (fun kp => field_number "avg_rating" (snd kp) = Some (fst kp)) l.

(** Decreasing keys. *)
Definition key_ge (x y : Q * json) : Prop := (fst y <= fst x)%Q.

(** [p] stands before [q] in a list of decreasing averages. *)
Definition average_ge (p q : json) : Prop :=
  match field_number "avg_rating" p, field_number "avg_rating" q with
  | Some a, Some b => (b <= a)%Q
  | _, _ => False
  end.

(** Five papers for the examples: averages 6.5, none, 8, 6.5 and 7. *)
Definition example_paper (id : string) (avg_rating min_rating : json) : json :=
  JDict [("paper_id"%string, JStr (text_of_string id));
         ("avg_rating"%string, avg_rating);
         ("min_rating"%string, min_rating)].

Definition example_papers : list json :=
  [example_paper "a" (JFloat (13 # 2)) (JInt 6);
   example_paper "b" JNull JNull;
   example_paper "c" (JInt 8) (JInt 8);
   example_paper "d" (JFloat (13 # 2)) (JInt 5);
   example_paper "e" (JInt 7) (JInt 4)].

Definition example_high_rated : list json :=
  [example_paper "c" (JInt 8) (JInt 8);
   example_paper "a" (JFloat (13 # 2)) (JInt 6);
   example_paper "d" (JFloat (13 # 2)) (JInt 5)].

(** ** [add_ratings_to_papers.py] *)

(** Can the value be a key of a [dict]? *)
Definition hashable (v : json) : bool :=
  match v with
  | JList _ => false
  | JDict _ => false
  | _ => true
  end.

(** [a == b] on hashable values: numbers (and booleans) by value, strings
    by content, [None] with itself. *)
Definition key_eqb (a b : json) : bool :=
  match a, b with
  | JNull, JNull => true
  | JStr s, JStr t => text_eqb s t
  | _, _ =>
      match number_value a, number_value b with
      | Some x, Some y => Qeq_bool x y
      | _, _ => false
      end
  end.

(** A [dict] with arbitrary keys, as the list of its items. *)
Definition rdict : Type := list (json * list (string * json)).

Fixpoint rdict_get (d : rdict) (key : json) : option (list (string * json)) :=
  match d with
  | [] => None
  | (k, v) :: d' => if key_eqb k key then Some v else rdict_get d' key
  end.

(** [d[key] = v]: an existing key keeps its place, a new one goes last. *)
Fixpoint rdict_set (d : rdict) (key : json) (v : list (string * json))
  : rdict :=
  match d with
  | [] => [(key, v)]
  | (k, v') :: d' =>
      if key_eqb k key then (k, v) :: d' else (k, v') :: rdict_set d' key v
  end.

(** The same for the fields of a paper. *)
Fixpoint dict_set (d : list (string * json)) (key : string) (v : json)
  : list (string * json) :=
  match d with
  | [] => [(key, v)]
  | (k, v') :: d' =>
      if String.eqb k key then (k, v) :: d' else (k, v') :: dict_set d' key v
  end.

(** [d.update(other)] *)
Definition dict_update (d other : list (string * json))
  : list (string * json) :=
  fold_left (fun d kv => dict_set d (fst kv) (snd kv)) other d.

(** Lines 34-40: the fields kept from a rating record. *)
Definition rating_fields (item : json) : result (list (string * json)) :=
  (ratings <- py_getitem item "ratings" ;;
   min_rating <- py_getitem item "min_rating" ;;
   max_rating <- py_getitem item "max_rating" ;;
   avg_rating <- py_getitem item "avg_rating" ;;
   reviewer_count <- py_getitem item "reviewer_count" ;;
   Ok [("ratings"%string, ratings); ("min_rating"%string, min_rating);
       ("max_rating"%string, max_rating); ("avg_rating"%string, avg_rating);
       ("reviewer_count"%string, reviewer_count)])%result.

(** Lines 32-41 *)
Fixpoint create_ratings_loop (ratings_data : list json) (ratings_dict : rdict)
  : result rdict :=
  match ratings_data with
  | [] => Ok ratings_dict
  | item :: ratings_data' =>
      (paper_id <- py_getitem item "paper_id" ;;
       fields <- rating_fields item ;;
       if hashable paper_id
       then create_ratings_loop ratings_data'
              (rdict_set ratings_dict paper_id fields)
       else Raise TypeError)%result
  end.

Definition create_ratings_dict (ratings_data : list json) : result rdict :=
  create_ratings_loop ratings_data [].

(** Lines 55-61: the fields given to a paper without rating record. *)
Definition empty_rating_fields : list (string * json) :=
  [("ratings"%string, JList []); ("min_rating"%string, JNull);
   ("max_rating"%string, JNull); ("avg_rating"%string, JNull);
   ("reviewer_count"%string, JInt 0)].

(** Lines 48-62, the papers done so far and the two counters being passed
    along. *)
Fixpoint add_ratings_loop (papers_data : list json) (ratings_dict : rdict)
    (done : list json) (updated_count missing_count : Z)
  : result (list json * Z * Z) :=
  match papers_data with
  | [] => Ok (done, updated_count, missing_count)
  | paper :: papers' =>
      (paper_id <- py_getitem paper "paper_id" ;;
       if hashable paper_id
       then
         match paper with
         | JDict fields =>
             match rdict_get ratings_dict paper_id with
             | Some rating =>
                 add_ratings_loop papers' ratings_dict
                   (done ++ [JDict (dict_update fields rating)])
                   (updated_count + 1) missing_count
             | None =>
                 add_ratings_loop papers' ratings_dict
                   (done ++ [JDict (dict_update fields empty_rating_fields)])
                   updated_count (missing_count + 1)
             end
         | _ => Raise TypeError
         end
       else Raise TypeError)%result
  end.

Definition add_ratings_to_papers (papers_data : list json)
    (ratings_dict : rdict) : result (list json * Z * Z) :=
  add_ratings_loop papers_data ratings_dict [] 0 0.

(** The five keys both branches write. *)
Definition rating_keys : list string :=
  ["ratings"; "min_rating"; "max_rating"; "avg_rating"; "reviewer_count"]%string.

(** A paper before and after the call: the same fields, but for the five
    rating keys, which are now all present. *)
Definition rated_version (paper paper' : json) : Prop :=
  exists fields fields',
    paper = JDict fields /\ paper' = JDict fields' /\
    (forall key, In key rating_keys -> dict_lookup fields' key <> None) /\
    (forall key, ~ In key rating_keys ->
                 dict_lookup fields' key = dict_lookup fields key).
(** Every value of the dictionary has the five rating keys. *)
Definition well_keyed (d : rdict) : Prop :=
  Forall (fun kv => map fst (snd kv) = rating_keys) d.

(** The paper as the loop leaves it. *)
Definition with_rating (d : rdict) (paper : json) : json :=
  match paper with
  | JDict fields =>
      match dict_lookup fields "paper_id" with
      | Some paper_id =>
          JDict (dict_update fields
                   (match rdict_get d paper_id with
                    | Some rating => rating
                    | None => empty_rating_fields
                    end))
      | None => paper
      end
  | _ => paper
  end.

(** The last record of a list that carries the identifier [key]. *)
Fixpoint last_item (key : json) (ratings_data : list json) : option json :=
  match ratings_data with
  | [] => None
  | item :: ratings_data' =>
      match last_item key ratings_data' with
      | Some later => Some later
      | None =>
          match py_getitem item "paper_id" with
          | Ok paper_id => if key_eqb paper_id key then Some item else None
          | Raise _ => None
          end
      end
  end.

(** For the examples: three saved records, two of them for the paper "a",
    and a catalogue of two papers, the second one without record. *)
Definition example_results : list PaperRatingInfo :=
  [rating_info "a" [6; 8]; rating_info "b" []; rating_info "a" [8; 8; 10]].

Definition example_ratings_data : list json :=
  map result_row example_results.

Definition example_ratings_dict : rdict :=
  match create_ratings_dict example_ratings_data with
  | Ok d => d
  | Raise _ => []
  end.

Definition example_catalogue : list json :=
  [JDict [("paper_id"%string, JStr (text_of_string "a"));
          ("title"%string, JStr (text_of_string "T"))];
   JDict [("paper_id"%string, JStr (text_of_string "c"))]].

Definition example_merged : list json :=
  map (with_rating example_ratings_dict) example_catalogue.

(** ** From the crawler's records to the list of high-rated papers *)

(** The rating fields of the row saved for a record. *)
Definition row_fields (r : PaperRatingInfo) : list (string * json) :=
  [("ratings"%string, JList (map JInt (ratings r)));
   ("min_rating"%string, json_of_option JInt (min_rating r));
   ("max_rating"%string, json_of_option JInt (max_rating r));
   ("avg_rating"%string, json_of_option json_of_num (avg_rating r));
   ("reviewer_count"%string, JInt (Z.of_nat (reviewer_count r)))].

(** The last record of a list for an identifier. *)
Fixpoint last_record (id : string) (results : list PaperRatingInfo)
  : option PaperRatingInfo :=
  match results with
  | [] => None
  | r :: results' =>
      match last_record id results' with
      | Some later => Some later
      | None => if String.eqb (paper_id r) id then Some r else None
      end
  end.

(** The record has a mean and a minimum, each at least the threshold. *)
Definition record_meets (min_avg_rating min_min_rating : pynum)
    (r : PaperRatingInfo) : bool :=
  match avg_rating r, min_rating r with
  | Some avg, Some lo =>
      Qle_bool (num_value min_avg_rating) (num_value avg)
      && Qle_bool (num_value min_min_rating) (inject_Z lo)
  | _, _ => false
  end.

(** Every value of a dictionary built from saved rows is the field list
    of a record. *)
Definition from_records (d : rdict) : Prop :=
  Forall (fun kv => exists r, snd kv = row_fields r) d.

(** * Properties *)

(** ** Structured extraction *)

Lemma accepted_rating_range (x : json) (r : Z) :
  accepted_rating x = Some r -> 0 <= r <= 10.
Proof.
  destruct x; simpl; try discriminate.
  - destruct b; simpl; intros [= <-]; lia.
  - destruct (0 <=? z) eqn:E1; destruct (z <=? 10) eqn:E2; simpl;
      try discriminate.
    intros [= <-]. lia.
Qed.

Lemma extract_ratings_loop_range (notes : list json) :
  forall acc rs,
    Forall (fun r => 0 <= r <= 10) acc ->
    extract_ratings_loop notes acc = Ok rs ->
    Forall (fun r => 0 <= r <= 10) rs.
Proof.
  induction notes as [| note notes IH]; intros acc rs Hacc H; simpl in *.
  - now inversion H; subst.
  - destruct (rating_value_of_note note) as [x | e]; simpl in *; [| discriminate].
    destruct (accepted_rating x) as [r |] eqn:E.
    + apply (IH (acc ++ [r])); [| exact H].
      apply Forall_app. split; [exact Hacc |].
      constructor; [| constructor]. eapply accepted_rating_range; exact E.
    + eapply IH; eassumption.
Qed.

(** Every score the extraction returns lies in [0,10]. *)
Lemma extract_ratings_range (data : json) (rs : list Z) :
  extract_ratings_from_comments data = Ok rs ->
  Forall (fun r => 0 <= r <= 10) rs.
Proof.
  unfold extract_ratings_from_comments. intros H.
  destruct (py_get data "notes" (JList [])) as [n |]; simpl in H; [| discriminate].
  destruct (py_iter n) as [l |]; simpl in H; [| discriminate].
  eapply extract_ratings_loop_range; [constructor | exact H].
Qed.

(** The value read from a record that exposes the structured field. *)
Lemma structured_score_read (note x : json) :
  structured_score note x -> rating_value_of_note note = Ok x.
Proof.
  intros (fields & content & -> & Hc & Hr).
  unfold rating_value_of_note; cbn [py_get rbind]. rewrite Hc; cbn [py_get rbind].
  destruct Hr as [[Hr Hx] | (d & Hr & Hv)]; rewrite Hr; cbn [rbind].
  - now rewrite Hx.
  - cbn [isinstance_dict py_get]. now rewrite Hv.
Qed.

Lemma accepted_rating_python_int (x : json) (v : Z) :
  accepted_rating x = Some v <-> python_int x v /\ 0 <= v <= 10.
Proof.
  unfold python_int. split.
  - intros H. pose proof (accepted_rating_range x v H) as Hr.
    split; [| exact Hr].
    destruct x; cbn in H; try discriminate.
    + destruct b; injection H as <-; [right; left | right; right]; now split.
    + destruct ((0 <=? z) && (z <=? 10)); [| discriminate].
      injection H as <-. now left.
  - intros [[-> | [[-> ->] | [-> ->]]] Hr]; cbn; try reflexivity.
    replace (0 <=? v) with true by (symmetry; apply Z.leb_le; lia).
    replace (v <=? 10) with true by (symmetry; apply Z.leb_le; lia).
    reflexivity.
Qed.

Lemma extract_ratings_loop_acc (notes : list json) :
  forall acc,
    extract_ratings_loop notes acc
    = (rs <- extract_ratings_loop notes [] ;; Ok (acc ++ rs))%result.
Proof.
  induction notes as [| note notes IH]; intros acc; cbn [extract_ratings_loop].
  - cbn [rbind]. now rewrite app_nil_r.
  - destruct (rating_value_of_note note) as [x |]; cbn [rbind]; [| reflexivity].
    destruct (accepted_rating x) as [r |]; [| apply IH].
    rewrite (IH (acc ++ [r])), (IH ([] ++ [r])).
    destruct (extract_ratings_loop notes []); cbn [rbind app]; [| reflexivity].
    now rewrite <- app_assoc.
Qed.

Lemma extract_ratings_loop_app (before rest : list json) :
  forall acc,
    extract_ratings_loop (before ++ rest) acc
    = (rs <- extract_ratings_loop before acc ;;
       extract_ratings_loop rest rs)%result.
Proof.
  induction before as [| note before IH]; intros acc;
    cbn [app extract_ratings_loop]; [reflexivity |].
  destruct (rating_value_of_note note) as [x |]; cbn [rbind]; [| reflexivity].
  destruct (accepted_rating x); apply IH.
Qed.

(** The extraction reads the thread of the response. *)
Lemma extract_ratings_response (response : json) (notes : list json) :
  response_thread response notes ->
  extract_ratings_from_comments response = extract_ratings_loop notes [].
Proof.
  intros (fields & -> & [H | [H ->]]);
    unfold extract_ratings_from_comments; cbn [py_get]; now rewrite H.
Qed.

(** What the extraction returns for a thread, seen from one of its
    records: the scores of the records before it, its own contribution,
    the scores of the records after it. *)
Lemma extract_ratings_around
    (response rb ra : json) (before after : list json) (note x : json)
    (rs1 rs2 : list Z) :
  response_thread response (before ++ note :: after) ->
  response_thread rb before ->
  response_thread ra after ->
  rating_value_of_note note = Ok x ->
  extract_ratings_from_comments rb = Ok rs1 ->
  extract_ratings_from_comments ra = Ok rs2 ->
  extract_ratings_from_comments response
  = Ok (rs1 ++ match accepted_rating x with
               | Some r => r :: rs2
               | None => rs2
               end).
Proof.
  intros Hr Hb Ha Hx H1 H2.
  rewrite (extract_ratings_response _ _ Hr).
  rewrite (extract_ratings_response _ _ Hb) in H1.
  rewrite (extract_ratings_response _ _ Ha) in H2.
  rewrite extract_ratings_loop_app, H1. cbn [rbind extract_ratings_loop].
  rewrite Hx. cbn [rbind].
  destruct (accepted_rating x) as [r |];
    rewrite extract_ratings_loop_acc, H2; cbn [rbind];
    [now rewrite <- app_assoc | reflexivity].
Qed.

(** ** The text extractor *)

Section TextExtractor.

Context {unicode : UnicodeTables}.

Lemma digit_1_9_is_word (c : char) :
  ((49 <=? c) && (c <=? 57))%N = true -> is_word c = true.
Proof.
  intros H. apply andb_true_iff in H as [H1 H2].
  apply N.leb_le in H1, H2. unfold is_word.
  replace (c <? 128)%N with true by (symmetry; apply N.ltb_lt; lia).
  replace (48 <=? c)%N with true by (symmetry; apply N.leb_le; lia).
  replace (c <=? 57)%N with true by (symmetry; apply N.leb_le; lia).
  reflexivity.
Qed.

Lemma firstn_one (c : char) (s : text) :
  firstn (List.length (c :: s) - List.length s) (c :: s) = [c].
Proof.
  replace (List.length (c :: s) - List.length s)%nat with 1%nat
    by (change (List.length (c :: s)) with (S (List.length s)); lia).
  reflexivity.
Qed.

Lemma firstn_two (c d : char) (s : text) :
  firstn (List.length (c :: d :: s) - List.length s) (c :: d :: s) = [c; d].
Proof.
  replace (List.length (c :: d :: s) - List.length s)%nat with 2%nat
    by (change (List.length (c :: d :: s)) with (S (S (List.length s))); lia).
  reflexivity.
Qed.

Lemma span_one (c : char) (s : text) :
  (List.length (c :: s) - List.length s)%nat = 1%nat.
Proof. change (List.length (c :: s)) with (S (List.length s)). lia. Qed.

Lemma span_two (c d : char) (s : text) :
  (List.length (c :: d :: s) - List.length s)%nat = 2%nat.
Proof. change (List.length (c :: d :: s)) with (S (S (List.length s))). lia. Qed.

Lemma match_here_standalone (prev : option char) (s : text) :
  match_here false STANDALONE_NUMBER prev s =
  match standalone_token_at prev s with
  | Some t => Some (token_text t, List.length (token_text t))
  | None => None
  end.
Proof.
  unfold match_here, standalone_token_at, STANDALONE_NUMBER.
  cbn [rmatch before ahead group1 str text_of_string lits map list_ascii_of_string].
  destruct s as [| c s']; cbn [hd_error is_word_at].
  { destruct (is_word_at prev); reflexivity. }
  change (atom_matches false (Lit (N_of_ascii "1")) c) with (c =? 49)%N.
  change (atom_matches false (Range 49%N 57%N) c) with ((49 <=? c) && (c <=? 57))%N.
  destruct (is_word_at prev) eqn:Hp.
  - (* a word character before: the number itself would have to be none *)
    destruct (is_word c) eqn:Hc; [reflexivity |].
    cbn [xorb].
    destruct ((49 <=? c)%N && (c <=? 57)%N) eqn:Hr.
    { rewrite (digit_1_9_is_word _ Hr) in Hc. discriminate. }
    destruct (N.eqb_spec c 49) as [-> | Hn]; [discriminate | reflexivity].
  - cbn [xorb].
    destruct ((49 <=? c)%N && (c <=? 57)%N) eqn:Hr.
    + rewrite (digit_1_9_is_word _ Hr). cbn [xorb andb].
      destruct (is_word_at (hd_error s')) eqn:Hn; cbn [negb].
      * (* "1" to "9" does not stand alone: only "10" is left *)
        destruct s' as [| d s'']; [destruct (c =? 49)%N; reflexivity |].
        change (atom_matches false (Lit (N_of_ascii "0")) d) with (d =? 48)%N.
        destruct (N.eqb_spec c 49) as [-> | Hc]; [| reflexivity].
        destruct (N.eqb_spec d 48) as [-> | Hd]; [| reflexivity].
        cbn [andb]. change (is_word 48%N) with true. cbn [xorb].
        destruct (is_word_at (hd_error s'')); cbn [negb]; [reflexivity |].
        cbn [group1 ahead]. rewrite firstn_two.
        rewrite span_two. reflexivity.
      * cbn [group1 ahead]. rewrite firstn_one.
        rewrite span_one.
        apply andb_true_iff in Hr as [H1 H2]. apply N.leb_le in H1, H2.
        unfold token_text.
        replace (Z.of_N c - 48 =? 10) with false
          by (symmetry; apply Z.eqb_neq; lia).
        replace (Z.to_N (Z.of_N c - 48 + 48)) with c by lia.
        reflexivity.
    + cbn [andb].
      destruct (N.eqb_spec c 49) as [-> | Hc]; [discriminate |].
      destruct (is_word c); destruct s'; reflexivity.
Qed.

Lemma standalone_token_range (prev : option char) (s : text) (t : Z) :
  standalone_token_at prev s = Some t -> 1 <= t <= 10.
Proof.
  unfold standalone_token_at. destruct s as [| c s']; [discriminate |].
  destruct (is_word_at prev); [discriminate |].
  destruct ((49 <=? c)%N && (c <=? 57)%N) eqn:Hr; cbn [andb].
  - apply andb_true_iff in Hr as [H1 H2]. apply N.leb_le in H1, H2.
    destruct (negb (is_word_at (hd_error s'))).
    + intros [= <-]. lia.
    + destruct s' as [| d s'']; [discriminate |].
      destruct ((c =? 49)%N && (d =? 48)%N && negb (is_word_at (hd_error s'')));
        [intros [= <-]; lia | discriminate].
  - destruct s' as [| d s'']; [discriminate |].
    destruct ((c =? 49)%N && (d =? 48)%N && negb (is_word_at (hd_error s'')));
      [intros [= <-]; lia | discriminate].
Qed.

(** After "10" the scan steps over the "0"; no token starts there. *)
Lemma no_token_after_word (c : char) (s : text) :
  is_word c = true -> standalone_token_at (Some c) s = None.
Proof.
  intros H. unfold standalone_token_at. destruct s; [reflexivity |].
  cbn [is_word_at]. now rewrite H.
Qed.

Lemma findall_standalone_aux (n : nat) :
  forall (s : text) (prev : option char),
    (List.length s <= n)%nat ->
    findall_from false STANDALONE_NUMBER prev s 0 =
    map token_text (standalone_tokens_from prev s).
Proof.
  induction n as [| n IH]; intros s prev Hlen.
  - destruct s; [| simpl in Hlen; lia].
    cbn [findall_from]. rewrite match_here_standalone. reflexivity.
  - destruct s as [| c s'].
    + cbn [findall_from]. rewrite match_here_standalone. reflexivity.
    + cbn [findall_from standalone_tokens_from].
      rewrite match_here_standalone.
      assert (Hs' : (List.length s' <= n)%nat) by (simpl in Hlen; lia).
      destruct (standalone_token_at prev (c :: s')) as [t |] eqn:Ht.
      * cbn [map]. f_equal.
        unfold token_text at 1.
        destruct (Z.eqb_spec t 10) as [-> | Hne].
        -- (* the match was "10": one more character to step over *)
           cbn [List.length pred].
           unfold standalone_token_at in Ht.
           destruct (is_word_at prev); [discriminate |].
           destruct (((49 <=? c)%N && (c <=? 57)%N)
                     && negb (is_word_at (hd_error s'))) eqn:E1.
           { apply andb_true_iff in E1 as [E1 _].
             apply andb_true_iff in E1 as [H1 H2]. apply N.leb_le in H1, H2.
             injection Ht as Ht. lia. }
           destruct s' as [| d s'']; [discriminate |].
           cbn [findall_from standalone_tokens_from].
           destruct (N.eqb_spec c 49) as [-> | Hc]; [| discriminate].
           destruct (N.eqb_spec d 48) as [-> | Hd]; [| discriminate].
           rewrite no_token_after_word by reflexivity.
           apply IH. simpl in Hs'. lia.
        -- cbn [List.length pred]. now apply IH.
      * now apply IH.
Qed.

(** [re.findall(r'\b([1-9]|10)\b', text)] returns the standalone tokens of
    the text, in order. *)
Lemma findall_standalone (t : text) :
  findall false STANDALONE_NUMBER t = map token_text (standalone_tokens t).
Proof.
  unfold findall, standalone_tokens.
  apply findall_standalone_aux with (n := List.length t). lia.
Qed.

Lemma py_int_token (t : Z) :
  1 <= t <= 10 -> py_int (token_text t) = Ok t.
Proof.
  intros H.
  assert (D : t = 1 \/ t = 2 \/ t = 3 \/ t = 4 \/ t = 5 \/ t = 6 \/ t = 7
              \/ t = 8 \/ t = 9 \/ t = 10) by lia.
  repeat (destruct D as [-> | D]; [reflexivity |]). subst. reflexivity.
Qed.

Lemma standalone_tokens_from_range (s : text) :
  forall prev, Forall (fun t => 1 <= t <= 10) (standalone_tokens_from prev s).
Proof.
  induction s as [| c s IH]; intros prev; cbn [standalone_tokens_from].
  - constructor.
  - destruct (standalone_token_at prev (c :: s)) eqn:E; [| apply IH].
    constructor; [eapply standalone_token_range; exact E | apply IH].
Qed.

(** Lines 83-90 return the standalone token when the text has exactly one,
    and nothing otherwise. *)
Lemma lone_number_spec (t : text) :
  lone_number t =
  match standalone_tokens t with
  | [v] => Some v
  | _ => None
  end.
Proof.
  unfold lone_number. rewrite findall_standalone.
  pose proof (standalone_tokens_from_range t None) as R.
  fold (standalone_tokens t) in R.
  destruct (standalone_tokens t) as [| v [| w l]]; cbn [map]; try reflexivity.
  inversion R; subst. now rewrite py_int_token.
Qed.

Lemma try_patterns_range (patterns : list regex) (t : text) (r : Z) :
  try_patterns patterns t = Some r -> 1 <= r <= 10.
Proof.
  induction patterns as [| p ps IH]; cbn [try_patterns]; [discriminate |].
  destruct (findall true p t) as [| m0 ms]; [exact IH |].
  destruct (py_int m0) as [rating | e]; [| exact IH].
  destruct (1 <=? rating) eqn:E1; destruct (rating <=? 10) eqn:E2;
    cbn [andb]; try exact IH.
  intros [= <-]. lia.
Qed.

Lemma try_patterns_no_match (patterns : list regex) (t : text) :
  Forall (fun pattern => findall true pattern t = []) patterns ->
  try_patterns patterns t = None.
Proof.
  induction 1 as [| p ps Hp _ IH]; cbn [try_patterns]; [reflexivity |].
  now rewrite Hp.
Qed.

(** Whatever the text extractor returns lies in [1,10]. *)
Lemma extract_rating_from_text_range (t : text) (r : Z) :
  extract_rating_from_text t = Some r -> 1 <= r <= 10.
Proof.
  unfold extract_rating_from_text. destruct t as [| c t']; [discriminate |].
  destruct (try_patterns RATING_PATTERNS (c :: t')) as [rating |] eqn:E.
  - intros [= <-]. eapply try_patterns_range; exact E.
  - rewrite lone_number_spec.
    pose proof (standalone_tokens_from_range (c :: t') None) as R.
    fold (standalone_tokens (c :: t')) in R.
    destruct (standalone_tokens (c :: t')) as [| v [| w l]]; try discriminate.
    intros [= <-]. now inversion R.
Qed.

(** C9.  When no label pattern matches anywhere in the text, the text
    extractor returns the score [v] exactly when [v] is the only standalone
    token in [1,10] of the text; with no such token, or more than one, it
    returns nothing. *)
Theorem lone_standalone_token_is_the_score (t : text) :
  no_label_match t ->
  (forall v, extract_rating_from_text t = Some v <-> standalone_tokens t = [v])
  /\ (List.length (standalone_tokens t) <> 1%nat ->
      extract_rating_from_text t = None).
Proof.
  intros H. unfold no_label_match in H.
  assert (E : extract_rating_from_text t =
              match standalone_tokens t with [v] => Some v | _ => None end).
  { unfold extract_rating_from_text. destruct t as [| c t']; [reflexivity |].
    rewrite try_patterns_no_match by exact H. apply lone_number_spec. }
  rewrite E. split.
  - intros v. destruct (standalone_tokens t) as [| w [| w' l]]; split;
      try discriminate; intros [= ->]; reflexivity.
  - destruct (standalone_tokens t) as [| w [| w' l]]; cbn [List.length];
      intros Hn; try reflexivity. contradiction.
Qed.

End TextExtractor.

Lemma lone_standalone_token_is_the_score_witness :
  let t := text_of_string "accept, about 7 points" in
  no_label_match (unicode := ascii_tables) t /\
  extract_rating_from_text (unicode := ascii_tables) t = Some 7.
Proof.
  split.
  - unfold no_label_match. repeat constructor.
  - apply (lone_standalone_token_is_the_score (unicode := ascii_tables)).
    + unfold no_label_match. repeat constructor.
    + reflexivity.
Defined.

(** Runs of the text extractor on ASCII text. *)
Example text_rating_label :
  extract_rating_from_text (unicode := ascii_tables)
    (text_of_string "Rating: 7") = Some 7.
Proof. reflexivity. Qed.

Example text_rating_fraction :
  extract_rating_from_text (unicode := ascii_tables)
    (text_of_string "I would give it 8/10 overall") = Some 8.
Proof. reflexivity. Qed.

(** A label with a number out of range passes the turn: here the fourth
    pattern finds 4. *)
Example text_rating_falls_through :
  extract_rating_from_text (unicode := ascii_tables)
    (text_of_string "Rating: 12, 4 / 10") = Some 4.
Proof. reflexivity. Qed.

(** Two standalone numbers: no score. *)
Example text_rating_two_numbers :
  extract_rating_from_text (unicode := ascii_tables)
    (text_of_string "see section 3 and table 2") = None.
Proof. reflexivity. Qed.

(** ** Claims on the extraction step *)

(** A response whose review thread is [notes]. *)
Lemma extract_ratings_thread (notes : list json) :
  extract_ratings_from_comments (JDict [("notes"%string, JList notes)]) =
  extract_ratings_loop notes [].
Proof. reflexivity. Qed.

(** C7.  For a review record whose structured score field holds an
    integer [v] in [0,10], the extraction returns [v]: in the score list
    of the response, [v] stands at the record's place, between the scores
    of the records before it and those of the records after it.  The
    statement covers every record with that field, whatever else it
    carries: no free-text field is looked at. *)
Theorem structured_score_is_returned
    (response rb ra : json) (before after : list json) (note : json) (v : Z)
    (rs1 rs2 : list Z) :
  response_thread response (before ++ note :: after) ->
  response_thread rb before ->
  response_thread ra after ->
  structured_score note (JInt v) ->
  0 <= v <= 10 ->
  extract_ratings_from_comments rb = Ok rs1 ->
  extract_ratings_from_comments ra = Ok rs2 ->
  extract_ratings_from_comments response = Ok (rs1 ++ v :: rs2).
Proof.
  intros Hr Hb Ha Hs Hv H1 H2.
  rewrite (extract_ratings_around response rb ra before after note (JInt v)
             rs1 rs2 Hr Hb Ha (structured_score_read _ _ Hs) H1 H2).
  replace (accepted_rating (JInt v)) with (Some v); [reflexivity |].
  symmetry. apply accepted_rating_python_int. split; [now left | exact Hv].
Qed.

(** The record of the specification, structured score 7 and free text
    "Rating: 3", between two other records.  The text alone would give 3;
    the response gives 7 at the record's place. *)
Lemma structured_score_is_returned_witness :
  let review := text_of_string "Rating: 3" in
  let record (v : Z) :=
    JDict [("content"%string, JDict [("rating"%string, JInt v)])] in
  let note :=
    JDict [("content"%string,
            JDict [("rating"%string, JDict [("value"%string, JInt 7)]);
                   ("review"%string, JDict [("value"%string, JStr review)])])]
  in
  let thread (notes : list json) :=
    JDict [("notes"%string, JList notes); ("count"%string, JInt 4)] in
  structured_score note (JInt 7) /\
  extract_rating_from_text (unicode := ascii_tables) review = Some 3 /\
  extract_ratings_from_comments
    (thread [record 5; record 6; note; record 9])
  = Ok [5; 6; 7; 9].
Proof.
  intros review record note thread.
  assert (Hs : structured_score note (JInt 7)).
  { eexists _, _. split; [reflexivity |]. split; [reflexivity |].
    right. eexists. split; reflexivity. }
  split; [exact Hs |]. split; [reflexivity |].
  apply (structured_score_is_returned
           (thread [record 5; record 6; note; record 9])
           (thread [record 5; record 6]) (thread [record 9])
           [record 5; record 6] [record 9] note 7 [5; 6] [9]);
    try reflexivity; try exact Hs; try lia;
    eexists; (split; [reflexivity |]); left; reflexivity.
Defined.

(** C8.  The structured field contributes a score exactly when its value
    is an integer of [0,10], and the score is then the value itself: the
    extraction returns it at the record's place.  Any other value (an
    integer out of range such as 11 or -1, a float, a string) contributes
    nothing, and the scores of the other records are returned unchanged:
    nothing is clamped or converted.  The text extractor returns only
    values in [1,10], and returns nothing on "Rating: 0". *)
Theorem score_range_enforcement {unicode : UnicodeTables} :
  (forall (response rb ra : json) (before after : list json)
          (note x : json) (rs1 rs2 : list Z),
      response_thread response (before ++ note :: after) ->
      response_thread rb before ->
      response_thread ra after ->
      structured_score note x ->
      extract_ratings_from_comments rb = Ok rs1 ->
      extract_ratings_from_comments ra = Ok rs2 ->
      (forall v, python_int x v -> 0 <= v <= 10 ->
                 extract_ratings_from_comments response
                 = Ok (rs1 ++ v :: rs2))
      /\ ((forall v, python_int x v -> ~ 0 <= v <= 10) ->
          extract_ratings_from_comments response = Ok (rs1 ++ rs2)))
  /\ (forall (t : text) (r : Z),
         extract_rating_from_text t = Some r -> 1 <= r <= 10)
  /\ extract_rating_from_text (text_of_string "Rating: 0") = None.
Proof.
  split; [| split].
  - intros response rb ra before after note x rs1 rs2 Hr Hb Ha Hs H1 H2.
    rewrite (extract_ratings_around response rb ra before after note x
               rs1 rs2 Hr Hb Ha (structured_score_read _ _ Hs) H1 H2).
    split.
    + intros v Hi Hv.
      now rewrite (proj2 (accepted_rating_python_int x v) (conj Hi Hv)).
    + intros Hn. destruct (accepted_rating x) as [r |] eqn:E; [| reflexivity].
      apply accepted_rating_python_int in E as [Hi Hv].
      now destruct (Hn r Hi).
  - intros t r. apply extract_rating_from_text_range.
  - reflexivity.
Qed.

Lemma score_range_enforcement_witness :
  let record (x : json) :=
    JDict [("content"%string, JDict [("rating"%string, x)])] in
  let thread (x : json) :=
    JDict [("notes"%string,
            JList [record (JInt 4); record x; record (JInt 10)])] in
  extract_ratings_from_comments (thread (JInt 0)) = Ok [4; 0; 10] /\
  extract_ratings_from_comments (thread (JInt 11)) = Ok [4; 10] /\
  extract_ratings_from_comments (thread (JInt (-1))) = Ok [4; 10] /\
  extract_ratings_from_comments (thread (JFloat (15 # 2))) = Ok [4; 10] /\
  extract_ratings_from_comments (thread (JStr (text_of_string "7")))
  = Ok [4; 10].
Proof.
  intros record thread.
  destruct (@score_range_enforcement ascii_tables) as (H & _ & _).
  assert (Hs : forall x, isinstance_dict x = false ->
                         structured_score (record x) x).
  { intros x Hx. eexists _, _. split; [reflexivity |]. split; [reflexivity |].
    left. now split. }
  assert (Ht : forall notes,
             response_thread (JDict [("notes"%string, JList notes)]) notes).
  { intros notes. eexists. split; [reflexivity |]. now left. }
  assert (Hx : forall x, isinstance_dict x = false ->
             (forall v, python_int x v -> 0 <= v <= 10 ->
                        extract_ratings_from_comments (thread x)
                        = Ok ([4] ++ v :: [10]))
             /\ ((forall v, python_int x v -> ~ 0 <= v <= 10) ->
                 extract_ratings_from_comments (thread x)
                 = Ok ([4] ++ [10]))).
  { intros x Hd.
    apply (H (thread x) _ _ [record (JInt 4)] [record (JInt 10)] (record x) x
             [4] [10] (Ht _) (Ht _) (Ht _) (Hs x Hd) eq_refl eq_refl). }
  unfold python_int in Hx.
  split; [apply (proj1 (Hx (JInt 0) eq_refl) 0); [now left | lia] |].
  repeat split; apply Hx; try reflexivity;
    intros v [E | [[E _] | [E _]]]; try discriminate;
    injection E as <-; lia.
Defined.

(** C10.  A Python boolean in the structured score field passes the test
    [isinstance(rating_value, int) and 0 <= rating_value <= 10]: the
    extraction returns it in the score list, at the record's place, where
    [True] counts as the score 1 and [False] as the score 0 (the list
    holds the boolean itself, which Python takes for that number). *)
Theorem boolean_rating_is_accepted
    (response rb ra : json) (before after : list json) (note : json)
    (b : bool) (rs1 rs2 : list Z) :
  response_thread response (before ++ note :: after) ->
  response_thread rb before ->
  response_thread ra after ->
  structured_score note (JBool b) ->
  extract_ratings_from_comments rb = Ok rs1 ->
  extract_ratings_from_comments ra = Ok rs2 ->
  extract_ratings_from_comments response
  = Ok (rs1 ++ (if b then 1 else 0) :: rs2).
Proof.
  intros Hr Hb Ha Hs H1 H2.
  rewrite (extract_ratings_around response rb ra before after note (JBool b)
             rs1 rs2 Hr Hb Ha (structured_score_read _ _ Hs) H1 H2).
  now destruct b.
Qed.

Lemma boolean_rating_is_accepted_witness :
  let record (x : json) :=
    JDict [("content"%string,
            JDict [("rating"%string, JDict [("value"%string, x)])])] in
  let thread (notes : list json) := JDict [("notes"%string, JList notes)] in
  structured_score (record (JBool true)) (JBool true) /\
  extract_ratings_from_comments
    (thread [record (JInt 6); record (JInt 8); record (JBool true);
             record (JBool false)])
  = Ok [6; 8; 1; 0].
Proof.
  intros record thread.
  assert (Hs : forall b, structured_score (record (JBool b)) (JBool b)).
  { intros b. eexists _, _. split; [reflexivity |]. split; [reflexivity |].
    right. eexists. split; reflexivity. }
  assert (Ht : forall notes, response_thread (thread notes) notes).
  { intros notes. eexists. split; [reflexivity |]. now left. }
  split; [apply Hs |].
  apply (boolean_rating_is_accepted _ (thread [record (JInt 6); record (JInt 8)])
           (thread [record (JBool false)])
           [record (JInt 6); record (JInt 8)] [record (JBool false)]
           (record (JBool true)) true [6; 8] [0]
           (Ht _) (Ht _) (Ht _) (Hs true)); reflexivity.
Defined.




(** ** Numbers *)

Lemma round_half_even_lower (q : Q) (k : Z) :
  (inject_Z k <= q)%Q -> k <= round_half_even q.
Proof.
  destruct q as [n d]. unfold Qle, round_half_even; cbn [Qnum Qden inject_Z].
  intros H.
  assert (k <= n / Z.pos d) by (apply Z.div_le_lower_bound; lia).
  destruct (2 * (n mod Z.pos d) ?= Z.pos d); [destruct (Z.even _) | |]; lia.
Qed.

Lemma round_half_even_upper (q : Q) (k : Z) :
  (q <= inject_Z k)%Q -> round_half_even q <= k.
Proof.
  destruct q as [n d]. unfold Qle, round_half_even; cbn [Qnum Qden inject_Z].
  intros H.
  pose proof (Z.div_mod n (Z.pos d) ltac:(lia)) as E.
  pose proof (Z.mod_pos_bound n (Z.pos d) ltac:(lia)) as B.
  destruct (Z.compare_spec (2 * (n mod Z.pos d)) (Z.pos d));
    [destruct (Z.even _) | |]; nia.
Qed.

Lemma floor_log2_lt (n : Z) (d : positive) (k : Z) :
  0 < n -> 0 <= k -> n < 2 ^ k * Z.pos d -> floor_log2 (n # d) < k.
Proof.
  intros Hn Hk H. unfold floor_log2; cbn [Qnum Qden].
  assert (L : Z.log2 n <= k + Z.log2 (Z.pos d)).
  { rewrite <- Z.log2_mul_pow2 by lia. apply Z.log2_le_mono. lia. }
  set (e := Z.log2 n - Z.log2 (Z.pos d)) in *.
  assert (He : e <= k) by (subst e; lia).
  destruct (Z.eq_dec e k) as [-> | Hne].
  - replace (0 <=? k) with true by (symmetry; apply Z.leb_le; lia).
    replace (2 ^ k * Z.pos d <=? n) with false
      by (symmetry; apply Z.leb_gt; lia).
    lia.
  - destruct (if 0 <=? e then _ else _); lia.
Qed.

Lemma round_to_binary64_between (q : Q) (a b : Z) :
  0 <= a -> b < 2 ^ 53 ->
  (inject_Z a <= q)%Q -> (q <= inject_Z b)%Q ->
  (inject_Z a <= round_to_binary64 q)%Q /\ (round_to_binary64 q <= inject_Z b)%Q.
Proof.
  intros Ha Hb Hl Hu. unfold round_to_binary64.
  destruct (Qeq_bool q 0) eqn:Hz.
  - apply Qeq_bool_eq in Hz. rewrite Hz in Hl, Hu. split; assumption.
  - assert (Hpos : (0 < q)%Q).
    { apply Qeq_bool_neq in Hz.
      assert (0 <= q)%Q by (eapply Qle_trans; [| exact Hl]; unfold Qle; simpl; lia).
      apply Qle_lt_or_eq in H as [H | H]; [exact H |]. symmetry in H. contradiction. }
    assert (Hs : 0 <= 52 - floor_log2 (Qabs q)).
    { destruct q as [n d]. unfold Qlt in Hpos; cbn in Hpos.
      unfold Qle in Hu; cbn in Hu.
      cbn [Qabs]. rewrite Z.abs_eq by lia.
      pose proof (floor_log2_lt n d 53 ltac:(lia) ltac:(lia)) as F.
      assert (n < 2 ^ 53 * Z.pos d) by nia. specialize (F H). lia. }
    replace (0 <=? 52 - floor_log2 (Qabs q)) with true
      by (symmetry; apply Z.leb_le; exact Hs).
    set (s := 52 - floor_log2 (Qabs q)) in *.
    assert (HP : 0 < 2 ^ s) by (apply Z.pow_pos_nonneg; lia).
    assert (HPQ : (0 < inject_Z (2 ^ s))%Q).
    { unfold Qlt; simpl. lia. }
    split.
    + apply Qle_shift_div_l; [exact HPQ |].
      rewrite <- inject_Z_mult, <- Zle_Qle.
      apply round_half_even_lower. rewrite inject_Z_mult.
      apply Qmult_le_compat_r; [exact Hl | apply Qlt_le_weak; exact HPQ].
    + apply Qle_shift_div_r; [exact HPQ |].
      rewrite <- inject_Z_mult, <- Zle_Qle.
      apply round_half_even_upper. rewrite inject_Z_mult.
      apply Qmult_le_compat_r; [exact Hu | apply Qlt_le_weak; exact HPQ].
Qed.




Lemma sum_Z_bounds (l : list Z) (lo hi : Z) :
  Forall (fun x => lo <= x <= hi) l ->
  Z.of_nat (List.length l) * lo <= sum_Z l <= Z.of_nat (List.length l) * hi.
Proof.
  induction 1 as [| x l Hx _ IH]; cbn [sum_Z fold_right List.length].
  - lia.
  - fold (sum_Z l). lia.
Qed.

Lemma exact_mean_between (l : list Z) (lo hi : Z) :
  l <> [] ->
  Forall (fun x => lo <= x <= hi) l ->
  (inject_Z lo <= exact_mean l)%Q /\ (exact_mean l <= inject_Z hi)%Q.
Proof.
  intros Hne H. pose proof (sum_Z_bounds l lo hi H) as B.
  assert (Hn : 0 < Z.of_nat (List.length l)) by (destruct l; [easy | cbn; lia]).
  unfold exact_mean, Qle; cbn [Qnum Qden inject_Z].
  rewrite Z2Pos.id by exact Hn. lia.
Qed.

Lemma statistics_mean_between (l : list Z) (lo hi : Z) :
  l <> [] -> 0 <= lo -> hi < 2 ^ 53 ->
  Forall (fun x => lo <= x <= hi) l ->
  exists m, statistics_mean l = Ok m /\
            (inject_Z lo <= num_value m)%Q /\ (num_value m <= inject_Z hi)%Q.
Proof.
  intros Hne Hlo Hhi H.
  pose proof (sum_Z_bounds l lo hi H) as B.
  assert (Hn : 0 < Z.of_nat (List.length l)) by (destruct l; [easy | cbn; lia]).
  unfold statistics_mean. destruct l as [| x l']; [easy |].
  set (l := x :: l') in *. set (n := Z.of_nat (List.length l)) in *.
  destruct (Z.eqb_spec (sum_Z l mod n) 0) as [E | E].
  - eexists. split; [reflexivity |]. cbn [num_value].
    pose proof (Z.div_mod (sum_Z l) n ltac:(lia)) as D.
    rewrite <- !Zle_Qle. split; nia.
  - eexists. split; [reflexivity |]. cbn [num_value].
    apply round_to_binary64_between; try assumption;
      apply (exact_mean_between l lo hi); assumption.
Qed.








(** ** The item processor *)

Section ProcessorFacts.

Variable session_get : string -> nat -> http_outcome.
Variable paper : string.
Variable max_retries : Z.

(** One turn of the loop, spelled out. *)
Lemma attempts_step (attempt : Z) (todo : nat) (w : world) :
  attempts session_get paper max_retries attempt (S todo) w =
  let w1 := mkWorld (S (calls w)) (log w ++ [EvFetch paper]) in
  let retry_or_fail :=
    if attempt <? max_retries - 1
    then attempts session_get paper max_retries (attempt + 1) todo
           (mkWorld (calls w1) (log w1 ++ [EvSleep (wait_time attempt)]))
    else (None, w1) in
  match fetched (session_get paper (calls w)) with
  | None => retry_or_fail
  | Some data =>
      if truthy data
      then match extract_ratings_from_comments data with
           | Ok rs => (Some (rating_info paper rs), w1)
           | Raise _ => retry_or_fail
           end
      else retry_or_fail
  end.
Proof.
  cbn [attempts]. unfold bind, fetch_paper_comments, ret, time_sleep.
  destruct (fetched (session_get paper (calls w))) as [data |]; cbn.
  - destruct (truthy data); cbn.
    + destruct (extract_ratings_from_comments data); cbn; [reflexivity |].
      destruct (attempt <? max_retries - 1); reflexivity.
    + destruct (attempt <? max_retries - 1); reflexivity.
  - destruct (attempt <? max_retries - 1); reflexivity.
Qed.

Lemma attempts_step_fails (attempt : Z) (todo : nat) (w : world) :
  attempt_fails (session_get paper (calls w)) = true ->
  attempts session_get paper max_retries attempt (S todo) w =
  if attempt <? max_retries - 1
  then attempts session_get paper max_retries (attempt + 1) todo
         (mkWorld (S (calls w))
            (log w ++ [EvFetch paper; EvSleep (wait_time attempt)]))
  else (None, mkWorld (S (calls w)) (log w ++ [EvFetch paper])).
Proof.
  intros H. rewrite attempts_step. cbn zeta. cbn [calls log].
  rewrite <- app_assoc. cbn [app].
  unfold attempt_fails in H.
  destruct (fetched (session_get paper (calls w))) as [data |]; [| reflexivity].
  destruct (truthy data); [| reflexivity].
  destruct (extract_ratings_from_comments data); [discriminate | reflexivity].
Qed.

Lemma attempts_step_usable (attempt : Z) (todo : nat) (w : world)
    (data : json) (rs : list Z) :
  fetched (session_get paper (calls w)) = Some data ->
  truthy data = true ->
  extract_ratings_from_comments data = Ok rs ->
  attempts session_get paper max_retries attempt (S todo) w =
  (Some (rating_info paper rs),
   mkWorld (S (calls w)) (log w ++ [EvFetch paper])).
Proof.
  intros Hf Ht He. rewrite attempts_step. cbn zeta.
  now rewrite Hf, Ht, He.
Qed.

(** [k] failed attempts with retries left lead to attempt [attempt + k]. *)
Lemma attempts_retries (k : nat) :
  forall (attempt : Z) (todo : nat) (w : world),
    (forall i, (i < k)%nat ->
               attempt_fails (session_get paper (calls w + i)) = true) ->
    attempt + Z.of_nat k <= max_retries - 1 ->
    attempts session_get paper max_retries attempt (k + todo) w =
    attempts session_get paper max_retries (attempt + Z.of_nat k) todo
      (mkWorld (calls w + k) (log w ++ retry_log paper attempt k)).
Proof.
  induction k as [| k IH]; intros attempt todo w Hf Hk.
  - cbn [retry_log Nat.add]. rewrite app_nil_r, Z.add_0_r, Nat.add_0_r.
    now destruct w.
  - cbn [Nat.add]. rewrite attempts_step_fails
      by (specialize (Hf 0%nat ltac:(lia)); now rewrite Nat.add_0_r in Hf).
    replace (attempt <? max_retries - 1) with true
      by (symmetry; apply Z.ltb_lt; lia).
    rewrite IH.
    + cbn [calls log retry_log]. rewrite <- app_assoc. cbn [app].
      f_equal; [lia |]. f_equal. lia.
    + intros i Hi. cbn [calls].
      replace (S (calls w) + i)%nat with (calls w + S i)%nat by lia.
      apply Hf. lia.
    + lia.
Qed.

(** When every attempt fails, the loop ends with [None] after as many
    requests as it had turns. *)
Lemma attempts_all_fail (todo : nat) :
  forall (attempt : Z) (w : world),
    attempt + Z.of_nat todo = max_retries ->
    (forall i, (i < todo)%nat ->
               attempt_fails (session_get paper (calls w + i)) = true) ->
    exists l,
      attempts session_get paper max_retries attempt todo w =
      (None, mkWorld (calls w + todo) l).
Proof.
  induction todo as [| todo IH]; intros attempt w Hm Hf.
  - exists (log w). cbn. rewrite Nat.add_0_r. now destruct w.
  - rewrite attempts_step_fails
      by (specialize (Hf 0%nat ltac:(lia)); now rewrite Nat.add_0_r in Hf).
    destruct (attempt <? max_retries - 1) eqn:E.
    + destruct (IH (attempt + 1)
                  (mkWorld (S (calls w))
                     (log w ++ [EvFetch paper; EvSleep (wait_time attempt)])))
        as (l & Hl).
      * lia.
      * intros i Hi. cbn [calls].
        replace (S (calls w) + i)%nat with (calls w + S i)%nat by lia.
        apply Hf. lia.
      * exists l. rewrite Hl. cbn [calls]. f_equal. f_equal. lia.
    + apply Z.ltb_ge in E. assert (todo = 0%nat) by lia. subst todo.
      eexists. f_equal. f_equal. lia.
Qed.

(** Whatever record the loop returns was built from the ratings extracted
    from a fetched response. *)
Lemma attempts_some (todo : nat) :
  forall (attempt : Z) (w w' : world) (info : PaperRatingInfo),
    attempts session_get paper max_retries attempt todo w = (Some info, w') ->
    exists data rs,
      extract_ratings_from_comments data = Ok rs /\
      info = rating_info paper rs.
Proof.
  induction todo as [| todo IH]; intros attempt w w' info H.
  - discriminate.
  - rewrite attempts_step in H. cbn zeta in H.
    assert (R : (if attempt <? max_retries - 1
                 then attempts session_get paper max_retries (attempt + 1) todo
                        (mkWorld (calls (mkWorld (S (calls w)) (log w ++ [EvFetch paper])))
                           (log (mkWorld (S (calls w)) (log w ++ [EvFetch paper]))
                            ++ [EvSleep (wait_time attempt)]))
                 else (None, mkWorld (S (calls w)) (log w ++ [EvFetch paper])))
                = (Some info, w') ->
                exists data rs,
                  extract_ratings_from_comments data = Ok rs /\
                  info = rating_info paper rs).
    { destruct (attempt <? max_retries - 1); [apply IH | discriminate]. }
    destruct (fetched (session_get paper (calls w))) as [data |]; [| auto].
    destruct (truthy data); [| auto].
    destruct (extract_ratings_from_comments data) as [rs |] eqn:E; [| auto].
    injection H as <- _. now exists data, rs.
Qed.

End ProcessorFacts.

(** ** The batch *)

Lemma rating_info_paper_id (paper : string) (rs : list Z) :
  paper_id (rating_info paper rs) = paper.
Proof. destruct rs; reflexivity. Qed.

Lemma rating_info_ratings (paper : string) (rs : list Z) :
  ratings (rating_info paper rs) = rs.
Proof. destruct rs; reflexivity. Qed.

Lemma process_single_paper_some
    (session_get : string -> nat -> http_outcome) (paper : string)
    (max_retries : Z) (w w' : world) (info : PaperRatingInfo) :
  process_single_paper session_get paper max_retries w = (Some info, w') ->
  exists data rs,
    extract_ratings_from_comments data = Ok rs /\
    info = rating_info paper rs.
Proof. unfold process_single_paper. apply attempts_some. Qed.





Section BatchFacts.

Variable service : nat -> string -> nat -> http_outcome.
Variable paper_ids : list string.



End BatchFacts.



(** ** Claims on the item processor *)

(** The two permanent errors of the specification, as the fetcher reports
    them: a 4xx status and a body that is not JSON both give [None], like
    a time-out or a 503. *)
Lemma fetched_client_error (status_code : Z) (body : option json) :
  400 <= status_code < 500 -> fetched (Response status_code body) = None.
Proof.
  intros H. cbn [fetched].
  replace (400 <=? status_code) with true by (symmetry; apply Z.leb_le; lia).
  replace (status_code <? 600) with true by (symmetry; apply Z.ltb_lt; lia).
  reflexivity.
Qed.

Lemma fetched_malformed_body (status_code : Z) :
  fetched (Response status_code None) = None.
Proof. cbn [fetched]. now destruct ((400 <=? status_code) && _). Qed.

(** C2, as stated, fails: against a service that answers 404 to every
    request (a non-retryable status), the processor sends three requests,
    sleeping in between, before it fails the item.  A body that is not
    JSON is treated the same way. *)
Lemma permanent_error_is_retried :
  process_single_paper (fun _ _ => Response 404 None) "p" 3 initial_world
  = (None,
     mkWorld 3 [EvFetch "p"; EvSleep (wait_time 0);
                EvFetch "p"; EvSleep (wait_time 1); EvFetch "p"])
  /\
  process_single_paper (fun _ _ => Response 200 None) "p" 3 initial_world
  = (None,
     mkWorld 3 [EvFetch "p"; EvSleep (wait_time 0);
                EvFetch "p"; EvSleep (wait_time 1); EvFetch "p"]).
Proof. split; reflexivity. Qed.

(** C2, amended.  [fetch_paper_comments] reports every failure, permanent
    or transient, as the same empty result, and the processor treats them
    alike: a failed fetch is followed by a back-off sleep and a new request
    while attempts remain.  An item whose fetches all fail is failed after
    [max_retries] requests. *)
Theorem failed_fetch_is_retried
    (session_get : string -> nat -> http_outcome) (paper : string)
    (max_retries : Z) :
  1 <= max_retries ->
  (forall i, (i < Z.to_nat max_retries)%nat ->
             fetched (session_get paper i) = None) ->
  process_single_paper session_get paper max_retries initial_world
  = (None,
     mkWorld (Z.to_nat max_retries)
       (retry_log paper 0 (Z.to_nat max_retries - 1) ++ [EvFetch paper])).
Proof.
  intros Hm Hf. unfold process_single_paper.
  assert (Hfail : forall i, (i < Z.to_nat max_retries)%nat ->
                            attempt_fails (session_get paper i) = true).
  { intros i Hi. unfold attempt_fails. now rewrite Hf. }
  replace (Z.to_nat max_retries) with (Z.to_nat max_retries - 1 + 1)%nat at 1
    by lia.
  rewrite attempts_retries.
  - rewrite attempts_step_fails by (apply Hfail; cbn; lia).
    replace (0 + Z.of_nat (Z.to_nat max_retries - 1) <? max_retries - 1)
      with false by (symmetry; apply Z.ltb_ge; lia).
    cbn [calls log initial_world app]. f_equal. f_equal. lia.
  - intros i Hi. apply Hfail. cbn. lia.
  - lia.
Qed.

Lemma failed_fetch_is_retried_witness :
  process_single_paper (fun _ _ => Response 404 None) "p" 3 initial_world
  = (None,
     mkWorld 3 [EvFetch "p"; EvSleep (wait_time 0);
                EvFetch "p"; EvSleep (wait_time 1); EvFetch "p"]).
Proof.
  apply (failed_fetch_is_retried (fun _ _ => Response 404 None) "p" 3).
  - lia.
  - intros i _. reflexivity.
Defined.

(** The record returned at the first usable response: [k] failed attempts,
    then a non-empty body from which the extraction returns [rs]. *)
Lemma process_single_paper_usable
    (session_get : string -> nat -> http_outcome) (paper : string)
    (max_retries : Z) (k : nat) (data : json) (rs : list Z) :
  Z.of_nat k < max_retries ->
  (forall i, (i < k)%nat -> attempt_fails (session_get paper i) = true) ->
  fetched (session_get paper k) = Some data ->
  truthy data = true ->
  extract_ratings_from_comments data = Ok rs ->
  process_single_paper session_get paper max_retries initial_world
  = (Some (rating_info paper rs),
     mkWorld (S k) (retry_log paper 0 k ++ [EvFetch paper])).
Proof.
  intros Hk Hfail Hf Ht He. unfold process_single_paper.
  replace (Z.to_nat max_retries)
    with (k + S (Z.to_nat max_retries - S k))%nat by lia.
  rewrite attempts_retries by (cbn; try assumption; lia).
  cbn [calls log initial_world app Nat.add].
  now rewrite (attempts_step_usable _ _ _ _ _ _ data rs).
Qed.

(** C4.  When the first response that is usable (a non-empty body, reached
    before the attempts run out) yields no score, the item is processed
    successfully: the record has an empty score list, no minimum, no
    maximum, no mean, and a reviewer count of 0.  (An empty body counts as
    a failed fetch and is retried.) *)
Theorem no_score_is_a_success
    (session_get : string -> nat -> http_outcome) (paper : string)
    (max_retries : Z) (k : nat) (data : json) :
  Z.of_nat k < max_retries ->
  (forall i, (i < k)%nat -> attempt_fails (session_get paper i) = true) ->
  fetched (session_get paper k) = Some data ->
  truthy data = true ->
  extract_ratings_from_comments data = Ok [] ->
  fst (process_single_paper session_get paper max_retries initial_world)
  = Some (mkPaperRatingInfo paper [] None None None 0).
Proof.
  intros Hk Hfail Hf Ht He.
  now rewrite (process_single_paper_usable _ _ _ k data [] Hk Hfail Hf Ht He).
Qed.

Lemma no_score_is_a_success_witness :
  let note :=
    JDict [("content"%string,
            JDict [("comment"%string,
                    JDict [("value"%string,
                            JStr (text_of_string "Thanks."))])])] in
  let session_get := fun (_ : string) (i : nat) =>
    match i with
    | O => Response 503 None
    | _ => Response 200 (Some (JDict [("notes"%string, JList [note])]))
    end in
  fst (process_single_paper session_get "p" 3 initial_world)
  = Some (mkPaperRatingInfo "p" [] None None None 0).
Proof.
  intros note session_get.
  apply (no_score_is_a_success session_get "p" 3 1
           (JDict [("notes"%string, JList [note])])).
  - lia.
  - intros i Hi. assert (i = 0%nat) as -> by lia. reflexivity.
  - reflexivity.
  - reflexivity.
  - reflexivity.
Defined.






(** Two runs of the statistics: a whole mean stays an [int]; 22/3 becomes
    the float written 7.33. *)
Example mean_of_6_8 :
  avg_rating (rating_info "p" [6; 8]) = Some (PInt 7).
Proof. reflexivity. Qed.

Example mean_of_6_8_8 :
  avg_rating (rating_info "p" [6; 8; 8])
  = Some (PFloat (round_to_binary64 (733 # 100))).
Proof. vm_compute. reflexivity. Qed.

(** * Further properties *)

Lemma accepted_ratings_length (values : list json) :
  (List.length (accepted_ratings values) <= List.length values)%nat.
Proof.
  induction values as [| v values IH]; cbn [accepted_ratings List.length];
    [lia |].
  destruct (accepted_rating v); cbn [List.length]; lia.
Qed.

Lemma extract_ratings_loop_ok (notes : list json) :
  forall (acc rs : list Z),
    extract_ratings_loop notes acc = Ok rs <->
    exists values,
      Forall2 (fun note v => rating_value_of_note note = Ok v) notes values /\
      rs = acc ++ accepted_ratings values.
Proof.
  induction notes as [| note notes IH]; intros acc rs; cbn [extract_ratings_loop].
  - split.
    + intros [= <-]. exists []. split; [constructor | now rewrite app_nil_r].
    + intros (values & HF & ->). inversion HF; subst.
      now rewrite app_nil_r.
  - destruct (rating_value_of_note note) as [x | e] eqn:E; cbn [rbind].
    + split.
      * intros H.
        destruct (accepted_rating x) as [r |] eqn:Ea;
          apply IH in H as (values & HF & ->);
          exists (x :: values); (split; [now constructor |]);
          cbn [accepted_ratings]; rewrite Ea; [| reflexivity].
        now rewrite <- app_assoc.
      * intros (values & HF & ->).
        inversion HF as [| ? v ? values' Hv HF']; subst.
        rewrite E in Hv. injection Hv as <-.
        cbn [accepted_ratings].
        destruct (accepted_rating x) as [r |]; apply IH; exists values';
          (split; [exact HF' |]); [now rewrite <- app_assoc | reflexivity].
    + split; [discriminate |].
      intros (values & HF & _). inversion HF; subst. congruence.
Qed.

Lemma value_score_iff (x : json) (s : option Z) :
  value_score x s <-> accepted_rating x = s.
Proof.
  split.
  - intros [v Hi Hv | Hn].
    + now apply accepted_rating_python_int.
    + destruct (accepted_rating x) as [r |] eqn:E; [| reflexivity].
      apply accepted_rating_python_int in E as [Hi Hv].
      now destruct (Hn r Hi).
  - intros <-. destruct (accepted_rating x) as [r |] eqn:E.
    + apply accepted_rating_python_int in E as [Hi Hv]. now constructor.
    + apply value_score_none. intros v Hi Hv.
      rewrite (proj2 (accepted_rating_python_int x v) (conj Hi Hv)) in E.
      discriminate.
Qed.

(** The shapes of [note_score] are those the code can read. *)
Lemma note_score_iff (note : json) (s : option Z) :
  note_score note s <->
  exists x, rating_value_of_note note = Ok x /\ accepted_rating x = s.
Proof.
  unfold rating_value_of_note. split.
  - intros [fields Hc | fields content Hc Hr | fields content x s' Hc Hr Hx Hv
           | fields content d x s' Hc Hr Hd Hv | fields content d Hc Hr Hd];
      cbn [py_get rbind]; rewrite Hc; cbn [py_get rbind dict_lookup];
      try (rewrite Hr; cbn [rbind isinstance_dict py_get]).
    + now exists JNull.
    + now exists JNull.
    + rewrite Hx. exists x. split; [reflexivity | now apply value_score_iff].
    + rewrite Hd. exists x. split; [reflexivity | now apply value_score_iff].
    + rewrite Hd. now exists JNull.
  - intros (x & Hx & <-).
    destruct note as [| | | | | | fields]; cbn [py_get rbind] in Hx;
      try discriminate.
    destruct (dict_lookup fields "content") as [content |] eqn:Hc;
      cbn [rbind py_get dict_lookup isinstance_dict] in Hx.
    + destruct content as [| | | | | | content]; cbn [py_get rbind] in Hx;
        try discriminate.
      destruct (dict_lookup content "rating") as [field |] eqn:Hr;
        cbn [rbind py_get dict_lookup isinstance_dict] in Hx.
      * destruct (isinstance_dict field) eqn:Hd.
        -- destruct field as [| | | | | | d]; try discriminate.
           cbn [py_get] in Hx.
           destruct (dict_lookup d "value") as [v |] eqn:Hv;
             injection Hx as <-.
           ++ apply (note_with_wrapped_rating fields content d v);
                try assumption. now apply value_score_iff.
           ++ now apply (note_with_empty_wrapper fields content d).
        -- injection Hx as <-.
           apply (note_with_bare_rating fields content field);
             try assumption. now apply value_score_iff.
      * injection Hx as <-. now apply (note_without_rating fields content).
    + injection Hx as <-. now apply note_without_content.
Qed.

Lemma scores_of_accepted (values : list json) :
  scores_of (map accepted_rating values) = accepted_ratings values.
Proof.
  induction values as [| v values IH]; cbn [map scores_of accepted_ratings];
    [reflexivity |].
  destruct (accepted_rating v); now rewrite IH.
Qed.

Lemma thread_scores (notes : list json) (rs : list Z) :
  (exists values,
      Forall2 (fun note v => rating_value_of_note note = Ok v) notes values /\
      rs = accepted_ratings values)
  <->
  (exists scores, Forall2 note_score notes scores /\ rs = scores_of scores).
Proof.
  split.
  - intros (values & HF & ->). exists (map accepted_rating values).
    split; [| now rewrite scores_of_accepted].
    induction HF as [| note v notes values Hv _ IH]; cbn [map];
      constructor; [| exact IH].
    apply note_score_iff. now exists v.
  - intros (scores & HF & ->).
    induction HF as [| note s notes scores Hs _ (values & HF & E)].
    + exists []. split; constructor.
    + apply note_score_iff in Hs as (x & Hx & <-).
      exists (x :: values). split; [now constructor |].
      cbn [scores_of accepted_ratings]. rewrite E.
      now destruct (accepted_rating x).
Qed.

(** X1.  For a response that carries a review thread, the extraction
    returns exactly when every record of the thread has one of the shapes
    of [note_score], and it then returns the scores of the records in
    thread order, at most one per record: the value of the "rating" field
    when that is an integer of [0,10], nothing otherwise. *)
Theorem extraction_follows_thread_order
    (response : json) (notes : list json) (rs : list Z) :
  response_thread response notes ->
  (extract_ratings_from_comments response = Ok rs <->
   exists scores, Forall2 note_score notes scores /\ rs = scores_of scores).
Proof.
  intros Hr. rewrite (extract_ratings_response _ _ Hr).
  rewrite <- thread_scores. apply (extract_ratings_loop_ok notes [] rs).
Qed.

(** X2.  The extraction returns at most as many scores as the thread has
    notes, whatever the shape of the response. *)
Theorem at_most_one_score_per_note (comments_data : json) (rs : list Z) :
  extract_ratings_from_comments comments_data = Ok rs ->
  exists items,
    thread_items comments_data = Ok items /\
    (List.length rs <= List.length items)%nat.
Proof.
  unfold extract_ratings_from_comments, thread_items. intros H.
  destruct (py_get comments_data "notes" (JList [])) as [n |];
    cbn [rbind] in *; [| discriminate].
  destruct (py_iter n) as [items |]; cbn [rbind] in *; [| discriminate].
  exists items. split; [reflexivity |].
  apply extract_ratings_loop_ok in H as (values & HF & ->).
  cbn [app]. rewrite (Forall2_length HF). apply accepted_ratings_length.
Qed.

Lemma rating_value_of_note_raises (note : json) (e : exn) :
  rating_value_of_note note = Raise e -> e = AttributeError.
Proof.
  unfold rating_value_of_note.
  destruct note; cbn [py_get rbind]; try (intros [= <-]; reflexivity).
  destruct (dict_lookup d "content") as [content |]; cbn [rbind].
  - destruct content; cbn [py_get rbind]; try (intros [= <-]; reflexivity).
    destruct (dict_lookup d0 "rating") as [field |]; cbn [rbind].
    + destruct field; cbn [isinstance_dict py_get]; try discriminate.
      destruct (dict_lookup d1 "value"); discriminate.
    + discriminate.
  - discriminate.
Qed.

(** X3.  A note without the [get] method anywhere in the thread makes the whole
    extraction raise, whatever scores the other notes carry. *)
Theorem malformed_note_fails_extraction
    (notes : list json) (note : json) (acc : list Z) :
  In note notes ->
  isinstance_dict note = false ->
  extract_ratings_loop notes acc = Raise AttributeError.
Proof.
  intros Hin Hnd. revert acc.
  induction notes as [| n notes IH]; intros acc; [contradiction |].
  cbn [extract_ratings_loop].
  destruct (rating_value_of_note n) as [x | e] eqn:E; cbn [rbind].
  - destruct Hin as [-> | Hin].
    + destruct note; try discriminate; cbn in E; discriminate.
    + destruct (accepted_rating x); now apply IH.
  - now rewrite (rating_value_of_note_raises _ _ E).
Qed.

(** A thread of four records in a response with other members: a bare
    score, a string, a wrapped score out of range, and a record without
    content. *)
Lemma extraction_follows_thread_order_witness :
  let bare (x : json) :=
    JDict [("content"%string, JDict [("rating"%string, x)])] in
  let wrapped (x : json) :=
    JDict [("id"%string, JStr (text_of_string "n"));
           ("content"%string,
            JDict [("rating"%string, JDict [("value"%string, x)])])] in
  let notes :=
    [bare (JInt 8); bare (JStr (text_of_string "6")); wrapped (JInt 12);
     JDict [("id"%string, JStr (text_of_string "m"))]; wrapped (JInt 3)] in
  let response :=
    JDict [("count"%string, JInt 5); ("notes"%string, JList notes)] in
  extract_ratings_from_comments response = Ok [8; 3] /\
  exists scores, Forall2 note_score notes scores /\ [8; 3] = scores_of scores.
Proof.
  intros bare wrapped notes response. split; [reflexivity |].
  apply (extraction_follows_thread_order response notes [8; 3]).
  - eexists. split; [reflexivity |]. now left.
  - reflexivity.
Defined.

Lemma at_most_one_score_per_note_witness :
  let record (v : Z) :=
    JDict [("content"%string, JDict [("rating"%string, JInt v)])] in
  let data := JDict [("notes"%string, JList [record 8; record 12; record 3])] in
  extract_ratings_from_comments data = Ok [8; 3] /\
  exists items,
    thread_items data = Ok items /\ (2 <= List.length items)%nat.
Proof.
  intros record data. split; [reflexivity |].
  exact (at_most_one_score_per_note data [8; 3] eq_refl).
Defined.

Lemma malformed_note_fails_extraction_witness :
  let record (v : Z) :=
    JDict [("content"%string, JDict [("rating"%string, JInt v)])] in
  extract_ratings_from_comments
    (JDict [("notes"%string, JList [record 8; JNull; record 6])])
  = Raise AttributeError.
Proof.
  intros record. rewrite extract_ratings_thread.
  apply (malformed_note_fails_extraction _ JNull).
  - right. now left.
  - reflexivity.
Defined.

Section ProcessorEffects.

Variable session_get : string -> nat -> http_outcome.
Variable paper : string.
Variable max_retries : Z.

(** The loop ends with [None] exactly when every turn it has left
    fails. *)
Lemma attempts_none_iff (todo : nat) :
  forall (attempt : Z) (w : world),
    attempt + Z.of_nat todo = max_retries ->
    (fst (attempts session_get paper max_retries attempt todo w) = None <->
     forall i, (i < todo)%nat ->
               attempt_fails (session_get paper (calls w + i)) = true).
Proof.
  induction todo as [| todo IH]; intros attempt w Hm.
  - cbn. split; [intros _ i Hi; lia | reflexivity].
  - destruct (attempt_fails (session_get paper (calls w))) eqn:Hf.
    + rewrite attempts_step_fails by exact Hf.
      destruct (attempt <? max_retries - 1) eqn:E.
      * rewrite IH by lia. cbn [calls]. split.
        -- intros H i Hi. destruct i as [| i].
           ++ now rewrite Nat.add_0_r.
           ++ replace (calls w + S i)%nat with (S (calls w) + i)%nat by lia.
              apply H. lia.
        -- intros H i Hi.
           replace (S (calls w) + i)%nat with (calls w + S i)%nat by lia.
           apply H. lia.
      * apply Z.ltb_ge in E. assert (todo = 0%nat) by lia. subst todo.
        cbn [fst]. split; [| reflexivity].
        intros _ i Hi. assert (i = 0%nat) as -> by lia.
        now rewrite Nat.add_0_r.
    + split.
      * intros H. exfalso. unfold attempt_fails in Hf.
        destruct (fetched (session_get paper (calls w))) as [data |] eqn:Ef;
          [| discriminate].
        apply orb_false_iff in Hf as [Ht He].
        apply negb_false_iff in Ht.
        destruct (extract_ratings_from_comments data) as [rs |] eqn:Ex;
          [| discriminate].
        rewrite (attempts_step_usable _ _ _ _ _ _ data rs Ef Ht Ex) in H.
        discriminate.
      * intros H. specialize (H 0%nat ltac:(lia)).
        rewrite Nat.add_0_r in H. congruence.
Qed.

(** What a run of the loop leaves in the world: some back-offs, each a
    request followed by a sleep, then one last request. *)
Lemma attempts_effects (todo : nat) :
  forall (attempt : Z) (w : world),
    attempt + Z.of_nat (S todo) = max_retries ->
    exists k,
      (k <= todo)%nat /\
      snd (attempts session_get paper max_retries attempt (S todo) w)
      = mkWorld (calls w + S k)
          (log w ++ retry_log paper attempt k ++ [EvFetch paper]).
Proof.
  induction todo as [| todo IH]; intros attempt w Hm.
  - exists 0%nat. split; [lia |]. rewrite attempts_step. cbn zeta.
    replace (attempt <? max_retries - 1) with false
      by (symmetry; apply Z.ltb_ge; lia).
    cbn [retry_log app].
    replace (calls w + 1)%nat with (S (calls w)) by lia.
    destruct (fetched _) as [data |]; [| reflexivity].
    destruct (truthy data); [| reflexivity].
    destruct (extract_ratings_from_comments data); reflexivity.
  - rewrite attempts_step. cbn zeta.
    replace (attempt <? max_retries - 1) with true
      by (symmetry; apply Z.ltb_lt; lia).
    destruct (IH (attempt + 1)
                (mkWorld (S (calls w))
                   ((log w ++ [EvFetch paper]) ++ [EvSleep (wait_time attempt)])))
      as (k & Hk & E); [lia |].
    assert (R : exists k0 : nat,
               (k0 <= S todo)%nat /\
               snd (attempts session_get paper max_retries (attempt + 1)
                      (S todo)
                      (mkWorld (S (calls w))
                         ((log w ++ [EvFetch paper])
                          ++ [EvSleep (wait_time attempt)])))
               = mkWorld (calls w + S k0)
                   (log w ++ retry_log paper attempt k0 ++ [EvFetch paper])).
    { exists (S k). split; [lia |]. rewrite E. cbn [calls log retry_log].
      rewrite <- !app_assoc. cbn [app]. f_equal. lia. }
    assert (D : exists k0 : nat,
               (k0 <= S todo)%nat /\
               mkWorld (S (calls w)) (log w ++ [EvFetch paper])
               = mkWorld (calls w + S k0)
                   (log w ++ retry_log paper attempt k0 ++ [EvFetch paper])).
    { exists 0%nat. split; [lia |]. cbn [retry_log app]. f_equal. lia. }
    cbn [calls log].
    destruct (fetched _) as [data |]; [| exact R].
    destruct (truthy data); [| exact R].
    destruct (extract_ratings_from_comments data); [exact D | exact R].
Qed.

End ProcessorEffects.

Lemma requests_sent_retry_log (paper : string) (k : nat) :
  forall attempt, requests_sent (retry_log paper attempt k) = k.
Proof.
  induction k as [| k IH]; intros attempt; cbn [retry_log requests_sent];
    [reflexivity | now rewrite IH].
Qed.

Lemma requests_sent_app (l1 l2 : list event) :
  requests_sent (l1 ++ l2) = (requests_sent l1 + requests_sent l2)%nat.
Proof.
  induction l1 as [| [p | s] l1 IH]; cbn [app requests_sent]; lia.
Qed.

Lemma total_sleep_app (l1 l2 : list event) :
  (total_sleep (l1 ++ l2) == total_sleep l1 + total_sleep l2)%Q.
Proof.
  induction l1 as [| [p | s] l1 IH]; cbn [app total_sleep].
  - now rewrite Qplus_0_l.
  - exact IH.
  - rewrite IH. now rewrite Qplus_assoc.
Qed.

Lemma wait_time_double (attempt : Z) :
  0 <= attempt -> (wait_time (attempt + 1) == 2 * wait_time attempt)%Q.
Proof.
  intros H. unfold wait_time. rewrite Z.pow_add_r, Z.pow_1_r by lia.
  rewrite inject_Z_mult. change (inject_Z 2) with 2%Q. ring.
Qed.

(** [k] back-offs starting at attempt [a] sleep [(2^k - 1) * 2^a / 2]
    seconds in all. *)
Lemma total_sleep_retry_log (paper : string) (k : nat) :
  forall attempt,
    0 <= attempt ->
    (total_sleep (retry_log paper attempt k)
     == inject_Z (2 ^ Z.of_nat k - 1) * wait_time attempt)%Q.
Proof.
  induction k as [| k IH]; intros attempt Ha; cbn [retry_log total_sleep].
  - cbn. ring.
  - rewrite IH by lia. rewrite wait_time_double by exact Ha.
    rewrite Nat2Z.inj_succ, Z.pow_succ_r by lia.
    unfold Z.sub. rewrite !inject_Z_plus, inject_Z_mult.
    change (inject_Z 2) with 2%Q. change (inject_Z (- (1))) with (- (1))%Q.
    ring.
Qed.

(** X4.  The processor sends at least one and at most [max_retries] requests,
    sleeps only between two requests, and the sleeps add up to
    [(2^(n-1) - 1) / 2] seconds when it has sent [n] requests: at most 1.5
    seconds with the default of three attempts. *)
Theorem processor_effects_are_bounded
    (session_get : string -> nat -> http_outcome) (paper : string)
    (max_retries : Z) :
  1 <= max_retries ->
  exists n : nat,
    (1 <= n)%nat /\ Z.of_nat n <= max_retries /\
    let w := snd (process_single_paper session_get paper max_retries
                    initial_world) in
    calls w = n /\
    requests_sent (log w) = n /\
    last (log w) (EvFetch paper) = EvFetch paper /\
    (total_sleep (log w) == inject_Z (2 ^ (Z.of_nat n - 1) - 1) * (1 # 2))%Q.
Proof.
  intros Hm. unfold process_single_paper.
  replace (Z.to_nat max_retries) with (S (Z.to_nat max_retries - 1)) by lia.
  destruct (attempts_effects session_get paper max_retries
              (Z.to_nat max_retries - 1) 0 initial_world) as (k & Hk & E);
    [lia |].
  exists (S k). split; [lia |]. split; [lia |]. cbn zeta. rewrite E.
  cbn [calls log initial_world app]. repeat split.
  - rewrite requests_sent_app, requests_sent_retry_log. cbn. lia.
  - apply last_last.
  - rewrite total_sleep_app, total_sleep_retry_log by lia.
    cbn [total_sleep]. replace (Z.of_nat (S k) - 1) with (Z.of_nat k) by lia.
    unfold wait_time. cbn. ring.
Qed.

Lemma processor_effects_are_bounded_witness :
  exists n : nat,
    (1 <= n)%nat /\ Z.of_nat n <= 3 /\
    let w := snd (process_single_paper (fun _ _ => RequestException) "p" 3
                    initial_world) in
    calls w = n /\
    requests_sent (log w) = n /\
    last (log w) (EvFetch "p") = EvFetch "p" /\
    (total_sleep (log w) == inject_Z (2 ^ (Z.of_nat n - 1) - 1) * (1 # 2))%Q.
Proof.
  apply (processor_effects_are_bounded (fun _ _ => RequestException) "p" 3).
  lia.
Defined.

Lemma process_single_paper_none_iff
    (session_get : string -> nat -> http_outcome) (paper : string)
    (max_retries : Z) :
  fst (process_single_paper session_get paper max_retries initial_world) = None
  <->
  forall i, (i < Z.to_nat max_retries)%nat ->
            attempt_fails (session_get paper i) = true.
Proof.
  unfold process_single_paper.
  destruct (Z.le_gt_cases 0 max_retries) as [H | H].
  - apply (attempts_none_iff session_get paper max_retries
             (Z.to_nat max_retries) 0 initial_world). lia.
  - replace (Z.to_nat max_retries) with 0%nat by lia. cbn.
    split; [intros _ i Hi; lia | reflexivity].
Qed.

Lemma attempt_fails_iff (outcome : http_outcome) :
  attempt_fails outcome = true <-> unusable outcome.
Proof.
  unfold attempt_fails. split.
  - destruct outcome as [status_code body | |]; cbn [fetched];
      [| intros _; apply unusable_request_exception
       | intros _; apply unusable_other_exception].
    destruct ((400 <=? status_code) && (status_code <? 600)) eqn:E.
    + intros _. apply unusable_error_status.
      apply andb_true_iff in E as [E1 E2].
      apply Z.leb_le in E1. apply Z.ltb_lt in E2. lia.
    + destruct body as [data |]; [| intros _; apply unusable_not_json].
      destruct (truthy data) eqn:Et; cbn [negb orb].
      * destruct (extract_ratings_from_comments data) as [rs | e] eqn:Ee;
          [discriminate |].
        intros _. now apply (unusable_extraction_raises _ _ e).
      * intros _. now apply unusable_falsy_body.
  - intros [| | status_code body Hs | status_code | status_code data Ht
           | status_code data e He]; cbn [fetched]; try reflexivity.
    + replace (400 <=? status_code) with true
        by (symmetry; apply Z.leb_le; lia).
      replace (status_code <? 600) with true
        by (symmetry; apply Z.ltb_lt; lia).
      reflexivity.
    + now destruct ((400 <=? status_code) && (status_code <? 600)).
    + destruct ((400 <=? status_code) && (status_code <? 600));
        [reflexivity |]. now rewrite Ht.
    + destruct ((400 <=? status_code) && (status_code <? 600));
        [reflexivity |]. rewrite He. apply orb_true_r.
Qed.

(** X5.  An item fails exactly when each of its [max_retries] attempts is
    unusable: the request raised, or the status is an error status (400 to
    599), or the body is not JSON, or the JSON body is falsy, or the
    extraction raises on it.  One usable response within the budget, with
    any other status, is enough to succeed. *)
Theorem item_fails_iff_every_attempt_fails
    (session_get : string -> nat -> http_outcome) (paper : string)
    (max_retries : Z) :
  fst (process_single_paper session_get paper max_retries initial_world) = None
  <->
  forall i, (i < Z.to_nat max_retries)%nat -> unusable (session_get paper i).
Proof.
  rewrite (process_single_paper_none_iff session_get paper max_retries).
  split; intros H i Hi; apply attempt_fails_iff, H, Hi.
Qed.

(** X6.  A returned record carries the identifier asked for, scores in [0,10]
    and their number; its minimum, maximum and mean are [None] exactly
    when it has no score. *)
Theorem returned_record_invariant
    (session_get : string -> nat -> http_outcome) (paper : string)
    (max_retries : Z) (w w' : world) (info : PaperRatingInfo) :
  process_single_paper session_get paper max_retries w = (Some info, w') ->
  paper_id info = paper /\
  Forall (fun r => 0 <= r <= 10) (ratings info) /\
  reviewer_count info = List.length (ratings info) /\
  (min_rating info = None <-> ratings info = []) /\
  (max_rating info = None <-> ratings info = []) /\
  (avg_rating info = None <-> ratings info = []).
Proof.
  intros Hp.
  destruct (process_single_paper_some _ _ _ _ _ _ Hp) as (data & rs & He & ->).
  pose proof (extract_ratings_range _ _ He) as Hr.
  rewrite rating_info_paper_id, rating_info_ratings.
  split; [reflexivity |]. split; [exact Hr |].
  destruct rs as [| r rs']; [cbn; repeat split; reflexivity |].
  destruct (statistics_mean_between (r :: rs') 0 10)
    as (m & Hm & _); [discriminate | lia | lia | exact Hr |].
  unfold rating_info. rewrite Hm.
  cbn [py_min py_max min_rating max_rating avg_rating reviewer_count].
  repeat split; discriminate.
Qed.

Lemma returned_record_invariant_witness :
  let data := JDict [("notes"%string, JList [])] in
  let session_get := fun (_ : string) (_ : nat) => Response 200 (Some data) in
  let info := rating_info "p" [] in
  paper_id info = "p"%string /\
  reviewer_count info = List.length (ratings info) /\
  (avg_rating info = None <-> ratings info = []).
Proof.
  intros data session_get info.
  destruct (returned_record_invariant session_get "p" 3 initial_world
              (mkWorld 1 [EvFetch "p"]) info eq_refl)
    as (H1 & _ & H3 & _ & _ & H6).
  repeat split; try assumption; apply H6.
Defined.

Section BatchOrder.

Variable service : nat -> string -> nat -> http_outcome.
Variable paper_ids : list string.








End BatchOrder.




Lemma load_paper_ids_loop_dicts (entries : list (list (string * json))) :
  forall paper_ids,
    load_paper_ids_loop (map JDict entries) paper_ids
    = Ok (paper_ids ++ flat_map entry_id entries).
Proof.
  induction entries as [| fields entries IH]; intros paper_ids;
    cbn [map load_paper_ids_loop flat_map].
  - now rewrite app_nil_r.
  - cbn [py_get]. unfold entry_id at 1.
    destruct (dict_lookup fields "paper_id") as [id |]; cbn [rbind truthy].
    + destruct (truthy id); rewrite IH; [| reflexivity].
      now rewrite <- app_assoc.
    + now rewrite IH.
Qed.

(** X9.  From a file that is a list of objects the loader returns the truthy
    "paper_id" values, in file order; it removes no duplicate. *)
Theorem loader_keeps_order_and_duplicates
    (entries : list (list (string * json))) :
  load_paper_ids_from_json (Some (JList (map JDict entries)))
  = flat_map entry_id entries.
Proof.
  unfold load_paper_ids_from_json. cbn [py_iter rbind].
  now rewrite load_paper_ids_loop_dicts.
Qed.

Lemma load_paper_ids_loop_truthy (papers : list json) :
  forall paper_ids ids,
    Forall (fun id => truthy id = true) paper_ids ->
    load_paper_ids_loop papers paper_ids = Ok ids ->
    Forall (fun id => truthy id = true) ids.
Proof.
  induction papers as [| paper papers IH]; intros paper_ids ids Hacc;
    cbn [load_paper_ids_loop].
  - now intros [= <-].
  - destruct (py_get paper "paper_id" JNull) as [id |]; cbn [rbind];
      [| discriminate].
    destruct (truthy id) eqn:Ht; apply IH; [| exact Hacc].
    apply Forall_app. split; [exact Hacc | now repeat constructor].
Qed.

(** X10.  Whatever the file holds, no identifier returned is empty: [None], the
    empty string, 0 and the like are left out. *)
Theorem loader_returns_truthy_ids (file : option json) :
  Forall (fun id => truthy id = true) (load_paper_ids_from_json file).
Proof.
  unfold load_paper_ids_from_json. destruct file as [papers |]; [| constructor].
  destruct (py_iter papers) as [items |]; cbn [rbind]; [| constructor].
  destruct (load_paper_ids_loop items []) as [ids |] eqn:E; [| constructor].
  eapply load_paper_ids_loop_truthy; [constructor | exact E].
Qed.

Lemma load_paper_ids_loop_malformed (papers : list json) (paper : json) :
  In paper papers ->
  isinstance_dict paper = false ->
  forall paper_ids, load_paper_ids_loop papers paper_ids = Raise AttributeError.
Proof.
  intros Hin Hnd.
  induction papers as [| p papers IH]; intros paper_ids; [contradiction |].
  cbn [load_paper_ids_loop].
  destruct (py_get p "paper_id" JNull) as [id |] eqn:E; cbn [rbind].
  - destruct Hin as [-> | Hin].
    + destruct paper; try discriminate.
    + destruct (truthy id); now apply IH.
  - destruct p; try discriminate; cbn in E; try (now injection E as <-).
    destruct (dict_lookup d "paper_id"); discriminate.
Qed.

(** X11.  One entry of the list that is not an object makes the loader return
    the empty list: the identifiers read before it are lost too. *)
Theorem loader_is_all_or_nothing (papers : list json) (paper : json) :
  In paper papers ->
  isinstance_dict paper = false ->
  load_paper_ids_from_json (Some (JList papers)) = [].
Proof.
  intros Hin Hnd. unfold load_paper_ids_from_json. cbn [py_iter rbind].
  now rewrite (load_paper_ids_loop_malformed papers paper Hin Hnd).
Qed.

Lemma loader_is_all_or_nothing_witness :
  let entry (id : string) :=
    JDict [("paper_id"%string, JStr (text_of_string id))] in
  let a := entry "a"%string in
  let b := entry "b"%string in
  load_paper_ids_from_json (Some (JList [a; b]))
  = [JStr (text_of_string "a"); JStr (text_of_string "b")] /\
  load_paper_ids_from_json (Some (JList [a; JInt 7; b])) = [].
Proof.
  intros entry a b. split; [reflexivity |].
  apply (loader_is_all_or_nothing _ (JInt 7)).
  - right. now left.
  - reflexivity.
Defined.

Lemma replace_from_skip (old new s : string) :
  forall skip,
    (String.length s <= skip)%nat -> replace_from old new s skip = EmptyString.
Proof.
  induction s as [| c s IH]; intros skip H; [reflexivity |].
  cbn [String.length] in H. destruct skip as [| skip]; [lia |].
  cbn [replace_from]. apply IH. lia.
Qed.

Lemma str_replace_absent (old new s : string) :
  str_contains old s = false -> str_replace old new s = s.
Proof.
  unfold str_replace. induction s as [| c s IH]; [reflexivity |].
  cbn [str_contains replace_from]. intros H.
  apply orb_false_iff in H as [Hp Hc].
  rewrite Hp. now rewrite IH.
Qed.

(** X12.  When the name of the output file does not contain ".json", the CSV
    file has the same name and replaces the JSON file just written. *)
Theorem csv_overwrites_json_output
    (results : list PaperRatingInfo) (output_file : string) (fs : files) :
  str_contains ".json" output_file = false ->
  file_read (save_results results output_file fs) output_file
  = Some (CsvFile csv_fieldnames (map csv_row results)).
Proof.
  intros H. unfold save_results, file_write.
  rewrite (str_replace_absent _ _ _ H).
  cbn [file_read]. now rewrite String.eqb_refl.
Qed.

Lemma csv_overwrites_json_output_witness :
  file_read (save_results [rating_info "p" [6; 8]] "ratings.txt" [])
    "ratings.txt"
  = Some (CsvFile csv_fieldnames [csv_row (rating_info "p" [6; 8])]).
Proof.
  apply (csv_overwrites_json_output [rating_info "p" [6; 8]] "ratings.txt" []).
  reflexivity.
Defined.

Lemma prefix_app_short (p u v : string) :
  (String.length p <= String.length u)%nat ->
  String.prefix p (u ++ v) = String.prefix p u.
Proof.
  revert u. induction p as [| a p IH]; intros u H; [now destruct u, v |].
  destruct u as [| b u]; cbn [String.length] in H; [lia |].
  cbn [String.append String.prefix].
  destruct (ascii_dec a b); [apply IH; lia | reflexivity].
Qed.

Lemma string_app_assoc (a b c : string) :
  ((a ++ b) ++ c = a ++ (b ++ c))%string.
Proof. induction a as [| x a IH]; cbn; [reflexivity | now rewrite IH]. Qed.

Lemma length_app_string (a b : string) :
  String.length (a ++ b) = (String.length a + String.length b)%nat.
Proof. induction a as [| x a IH]; cbn; [reflexivity | now rewrite IH]. Qed.

Lemma str_replace_json_suffix (stem : string) :
  str_contains ".json" (stem ++ ".jso") = false ->
  str_replace ".json" ".csv" (stem ++ ".json") = (stem ++ ".csv")%string.
Proof.
  unfold str_replace. induction stem as [| c stem IH]; [reflexivity |].
  cbn [String.append str_contains]. intros H.
  apply orb_false_iff in H as [Hp Hc].
  assert (E : String c (stem ++ ".json")
              = ((String c stem ++ ".jso") ++ "n")%string)
    by (rewrite string_app_assoc; reflexivity).
  assert (P : String.prefix ".json" (String c (stem ++ ".json")) = false).
  { rewrite E, prefix_app_short; [exact Hp |].
    rewrite length_app_string. cbn. lia. }
  cbn [replace_from]. rewrite P. now rewrite IH.
Qed.

Lemma string_app_inv_head (s a b : string) :
  (s ++ a = s ++ b)%string -> a = b.
Proof.
  induction s as [| c s IH]; cbn; [easy |]. intros [= H]. now apply IH.
Qed.

(** X13.  For a name that ends in ".json" and holds ".json" nowhere else, the
    records are saved twice: as JSON under the name, and as CSV under the
    name with ".csv" in place of ".json". *)
Theorem results_saved_as_json_and_csv
    (results : list PaperRatingInfo) (stem : string) (fs : files) :
  str_contains ".json" (stem ++ ".jso") = false ->
  let fs' := save_results results (stem ++ ".json") fs in
  file_read fs' (stem ++ ".json") = Some (JsonFile (map result_row results))
  /\ file_read fs' (stem ++ ".csv")
     = Some (CsvFile csv_fieldnames (map csv_row results)).
Proof.
  intros H. cbn zeta. unfold save_results, file_write.
  rewrite (str_replace_json_suffix _ H). cbn [file_read].
  rewrite !String.eqb_refl. split; [| reflexivity].
  destruct (String.eqb_spec (stem ++ ".csv") (stem ++ ".json")) as [E | _];
    [| reflexivity].
  apply string_app_inv_head in E. discriminate.
Qed.

Lemma results_saved_as_json_and_csv_witness :
  let fs' := save_results [rating_info "p" [6; 8]] "iclr26_ratings.json" [] in
  file_read fs' "iclr26_ratings.json"
  = Some (JsonFile [result_row (rating_info "p" [6; 8])])
  /\ file_read fs' "iclr26_ratings.csv"
     = Some (CsvFile csv_fieldnames [csv_row (rating_info "p" [6; 8])]).
Proof.
  apply (results_saved_as_json_and_csv [rating_info "p" [6; 8]]
           "iclr26_ratings" []).
  reflexivity.
Defined.

Section RunFacts.

Variable service : nat -> string -> nat -> http_outcome.
Variable paper_ids : list string.




End RunFacts.



Lemma counts_get_set (d : list (Z * nat)) (k r : Z) (v default : nat) :
  counts_get (counts_set d k v) r default
  = if k =? r then v else counts_get d r default.
Proof.
  induction d as [| [k' v'] d IH]; cbn [counts_set counts_get].
  - reflexivity.
  - destruct (Z.eqb_spec k' k) as [-> | Hk]; cbn [counts_get].
    + destruct (Z.eqb_spec k r); reflexivity.
    + rewrite IH. destruct (Z.eqb_spec k' r) as [-> | Hr]; [| reflexivity].
      destruct (Z.eqb_spec k r); [congruence | reflexivity].
Qed.

Lemma counts_set_keys (d : list (Z * nat)) (k : Z) (v : nat) :
  map fst (counts_set d k v)
  = if existsb (Z.eqb k) (map fst d) then map fst d else map fst d ++ [k].
Proof.
  induction d as [| [k' v'] d IH]; cbn [counts_set map fst existsb];
    [reflexivity |].
  destruct (Z.eqb_spec k' k) as [-> | Hk].
  - now rewrite Z.eqb_refl.
  - cbn [map fst]. rewrite IH.
    destruct (Z.eqb_spec k k'); [congruence |]. cbn [orb].
    now destruct (existsb (Z.eqb k) (map fst d)).
Qed.

Lemma counts_get_absent (d : list (Z * nat)) (r : Z) (default : nat) :
  ~ In r (map fst d) -> counts_get d r default = default.
Proof.
  induction d as [| [k v] d IH]; cbn [map fst counts_get In]; [reflexivity |].
  intros H. destruct (Z.eqb_spec k r); [tauto | apply IH; tauto].
Qed.

Lemma sum_counts_set (d : list (Z * nat)) (k : Z) (v : nat) :
  NoDup (map fst d) ->
  (sum_counts (counts_set d k v) + counts_get d k 0
   = sum_counts d + v)%nat.
Proof.
  induction d as [| [k' v'] d IH]; cbn [counts_set counts_get map fst];
    intros Hnd.
  - cbn. lia.
  - inversion Hnd as [| ? ? Hn Hnd']; subst.
    destruct (Z.eqb_spec k' k) as [-> | Hk].
    + cbn [sum_counts fold_right snd]. lia.
    + cbn [sum_counts fold_right snd]. fold (sum_counts d).
      fold (sum_counts (counts_set d k v)). specialize (IH Hnd'). lia.
Qed.

Lemma counts_set_NoDup (d : list (Z * nat)) (k : Z) (v : nat) :
  NoDup (map fst d) -> NoDup (map fst (counts_set d k v)).
Proof.
  intros H. rewrite counts_set_keys.
  destruct (existsb (Z.eqb k) (map fst d)) eqn:E; [exact H |].
  apply NoDup_app; [exact H | repeat constructor; easy |].
  intros a Ha [E' | []]. subst a.
  assert (existsb (Z.eqb k) (map fst d) = true); [| congruence].
  apply existsb_exists. exists k. split; [exact Ha | apply Z.eqb_refl].
Qed.

Lemma rating_counts_loop_spec (ratings : list Z) :
  forall d,
    NoDup (map fst d) ->
    let d' := rating_counts_loop ratings d in
    NoDup (map fst d') /\
    (forall r, counts_get d' r 0
               = (counts_get d r 0 + count_occ Z.eq_dec ratings r)%nat) /\
    (forall r, In r (map fst d') <-> In r (map fst d) \/ In r ratings) /\
    sum_counts d' = (sum_counts d + List.length ratings)%nat.
Proof.
  induction ratings as [| x ratings IH]; intros d Hnd; cbn zeta.
  - cbn [rating_counts_loop count_occ List.length In].
    split; [exact Hnd |]. split; [intros; lia |].
    split; [intros; tauto | lia].
  - cbn [rating_counts_loop].
    destruct (IH (counts_set d x (counts_get d x 0 + 1))
                (counts_set_NoDup d x _ Hnd)) as (H1 & H2 & H3 & H4).
    split; [exact H1 |]. split; [| split].
    + intros r. rewrite H2, counts_get_set. cbn [count_occ].
      destruct (Z.eq_dec x r) as [-> | Hx].
      * rewrite Z.eqb_refl. lia.
      * destruct (Z.eqb_spec x r); [congruence | lia].
    + intros r. rewrite H3, counts_set_keys. cbn [In].
      destruct (existsb (Z.eqb x) (map fst d)) eqn:E.
      * apply existsb_exists in E as (y & Hy & Exy).
        apply Z.eqb_eq in Exy. subst y.
        split; [tauto |]. intros [H | [<- | H]]; tauto.
      * rewrite in_app_iff. cbn [In]. tauto.
    + rewrite H4. pose proof (sum_counts_set d x (counts_get d x 0 + 1) Hnd).
      cbn [List.length]. lia.
Qed.

Lemma insert_sorted_perm (x : Z) (l : list Z) :
  Permutation (insert_sorted x l) (x :: l).
Proof.
  induction l as [| y l IH]; cbn [insert_sorted]; [reflexivity |].
  destruct (x <=? y); [reflexivity |].
  rewrite IH. apply perm_swap.
Qed.

Lemma sorted_perm (l : list Z) : Permutation (py_sorted l) l.
Proof.
  induction l as [| x l IH]; cbn [py_sorted fold_right]; [constructor |].
  fold (py_sorted l). rewrite insert_sorted_perm. now constructor.
Qed.

Lemma insert_sorted_strict (x : Z) (l : list Z) :
  StronglySorted Z.lt l -> ~ In x l ->
  StronglySorted Z.lt (insert_sorted x l).
Proof.
  induction l as [| y l IH]; cbn [insert_sorted In]; intros Hs Hn.
  - repeat constructor.
  - inversion Hs as [| ? ? Hs' Hall]; subst.
    destruct (Z.leb_spec x y) as [Hxy | Hxy].
    + constructor; [exact Hs |].
      assert (x <> y) by (intros ->; apply Hn; now left).
      assert (x < y) by lia.
      constructor; [lia |].
      eapply Forall_impl; [| exact Hall]. cbn. intros; lia.
    + constructor; [apply IH; tauto |].
      apply (Permutation_Forall (x := x :: l));
        [symmetry; apply insert_sorted_perm |].
      constructor; [lia | exact Hall].
Qed.

Lemma sorted_strict (l : list Z) :
  NoDup l -> StronglySorted Z.lt (py_sorted l).
Proof.
  induction 1 as [| x l Hn Hnd IH]; cbn [py_sorted fold_right]; [constructor |].
  apply insert_sorted_strict; [exact IH |].
  intros H. apply Hn. now apply (Permutation_in _ (sorted_perm l)).
Qed.

Lemma all_ratings_flat_map (results : list PaperRatingInfo) :
  all_ratings results = flat_map ratings results.
Proof.
  unfold all_ratings, papers_with_ratings.
  induction results as [| r results IH]; cbn [filter flat_map]; [reflexivity |].
  destruct (ratings r) eqn:E; cbn [flat_map app]; [exact IH |].
  now rewrite E, IH.
Qed.

Lemma sum_counts_perm_keys (d : list (Z * nat)) (keys : list Z) :
  NoDup (map fst d) ->
  Permutation keys (map fst d) ->
  sum_counts (map (fun r => (r, counts_get d r 0%nat)) keys) = sum_counts d.
Proof.
  intros Hnd P.
  assert (E : map (fun r => (r, counts_get d r 0%nat)) (map fst d) = d).
  { clear P keys. induction d as [| [k v] d IH]; [reflexivity |].
    cbn [map fst counts_get]. rewrite Z.eqb_refl.
    inversion Hnd as [| ? ? Hn Hnd']; subst. f_equal.
    transitivity (map (fun r => (r, counts_get d r 0%nat)) (map fst d));
      [| exact (IH Hnd')].
    apply map_ext_in.
    intros a Ha. destruct (Z.eqb_spec k a) as [-> | _]; [tauto | reflexivity]. }
  assert (G : forall l1 l2 : list (Z * nat),
             Permutation l1 l2 -> sum_counts l1 = sum_counts l2).
  { induction 1; unfold sum_counts in *; cbn [fold_right] in *; lia. }
  transitivity
    (sum_counts (map (fun r => (r, counts_get d r 0%nat)) (map fst d))).
  - apply G. now apply Permutation_map.
  - now rewrite E.
Qed.

(** X16.  The distribution printed lists the scores in strictly increasing
    order, each with the number of times it occurs among all scores of all
    records; no score is missing, none has count 0, and the counts add up
    to the number of scores. *)
Theorem rating_distribution_is_exact (results : list PaperRatingInfo) :
  let scores := flat_map ratings results in
  let distribution := rating_distribution results in
  StronglySorted Z.lt (map fst distribution) /\
  (forall r c, In (r, c) distribution ->
               c = count_occ Z.eq_dec scores r /\ (1 <= c)%nat) /\
  (forall r, In r scores -> In r (map fst distribution)) /\
  sum_counts distribution = List.length scores.
Proof.
  cbn zeta. unfold rating_distribution. rewrite all_ratings_flat_map.
  set (scores := flat_map ratings results).
  destruct (rating_counts_loop_spec scores [] (NoDup_nil _))
    as (Hnd & Hget & Hkeys & Hsum).
  fold (rating_counts scores) in Hnd, Hget, Hkeys, Hsum.
  set (counts := rating_counts scores) in *.
  cbn [counts_get map fst In sum_counts fold_right] in Hget, Hkeys, Hsum.
  assert (Hmap : map fst (map (fun r => (r, counts_get counts r 0%nat))
                            (py_sorted (map fst counts)))
                 = py_sorted (map fst counts)).
  { rewrite map_map. cbn [fst]. apply map_id. }
  repeat split.
  - rewrite Hmap. now apply sorted_strict.
  - apply in_map_iff in H as (x & [= <- <-] & _). now rewrite Hget.
  - apply in_map_iff in H as (x & [= <- <-] & Hx).
    apply (Permutation_in _ (sorted_perm _)) in Hx.
    apply Hkeys in Hx as [[] | Hx]. rewrite Hget.
    apply (count_occ_In Z.eq_dec) in Hx. lia.
  - intros r Hr. rewrite Hmap.
    apply (Permutation_in _ (Permutation_sym (sorted_perm _))).
    apply Hkeys. now right.
  - rewrite sum_counts_perm_keys; [exact Hsum | exact Hnd | apply sorted_perm].
Qed.

Lemma same_letter_cases (c c' : char) :
  same_letter c c' ->
  c = c' \/ (is_ascii_letter c = true /\ is_ascii_letter c' = true).
Proof.
  unfold same_letter, ascii_lower, is_ascii_letter.
  destruct (N.leb_spec 65 c), (N.leb_spec c 90),
           (N.leb_spec 65 c'), (N.leb_spec c' 90);
    cbn [andb orb]; intros Heq;
    try (left; lia);
    right; split; try reflexivity;
    apply andb_true_iff; split; apply N.leb_le; lia.
Qed.

Lemma letter_bounds (c : char) :
  is_ascii_letter c = true -> (65 <= c <= 122)%N.
Proof.
  unfold is_ascii_letter. intros H.
  apply orb_true_iff in H as [H | H]; apply andb_true_iff in H as [H1 H2];
    apply N.leb_le in H1, H2; lia.
Qed.

Section CaseInsensitive.

Context {unicode : UnicodeTables}.

Lemma same_letter_decimal (c c' : char) :
  same_letter c c' -> decimal_value c = decimal_value c'.
Proof.
  intros H. destruct (same_letter_cases c c' H) as [-> | [L L']];
    [reflexivity |].
  apply letter_bounds in L, L'. unfold decimal_value.
  replace (c <? 128)%N with true by (symmetry; apply N.ltb_lt; lia).
  replace (c' <? 128)%N with true by (symmetry; apply N.ltb_lt; lia).
  replace (c <=? 57)%N with false by (symmetry; apply N.leb_gt; lia).
  replace (c' <=? 57)%N with false by (symmetry; apply N.leb_gt; lia).
  now rewrite !andb_false_r.
Qed.

Lemma same_letter_word (c c' : char) :
  same_letter c c' -> is_word c = is_word c'.
Proof.
  intros H. destruct (same_letter_cases c c' H) as [-> | [L L']];
    [reflexivity |].
  pose proof (letter_bounds _ L) as B. pose proof (letter_bounds _ L') as B'.
  unfold is_word.
  replace (c <? 128)%N with true by (symmetry; apply N.ltb_lt; lia).
  replace (c' <? 128)%N with true by (symmetry; apply N.ltb_lt; lia).
  unfold is_ascii_letter in L, L'.
  apply orb_true_iff in L as [-> | ->]; apply orb_true_iff in L' as [-> | ->];
    now rewrite ?orb_true_r.
Qed.

Lemma is_space_letter (c : char) :
  (65 <= c <= 122)%N -> is_space c = false.
Proof.
  intros B. apply not_true_is_false. intros H. unfold is_space in H.
  repeat (apply orb_true_iff in H as [H | H]);
    try (apply andb_true_iff in H as [H1 H2]; apply N.leb_le in H1, H2; lia);
    try (apply N.eqb_eq in H; lia).
Qed.

Lemma same_letter_space (c c' : char) :
  same_letter c c' -> is_space c = is_space c'.
Proof.
  intros H. destruct (same_letter_cases c c' H) as [-> | [L L']];
    [reflexivity |].
  apply letter_bounds in L, L'. now rewrite !is_space_letter.
Qed.

Lemma same_letter_lit (ignorecase : bool) (p c c' : char) :
  same_letter c c' ->
  ignorecase || negb (is_ascii_letter p) = true ->
  lit_matches ignorecase p c = lit_matches ignorecase p c'.
Proof.
  intros H Hp. destruct (same_letter_cases c c' H) as [-> | [L L']];
    [reflexivity |].
  pose proof (letter_bounds _ L) as B. pose proof (letter_bounds _ L') as B'.
  unfold lit_matches. destruct ignorecase.
  - unfold sre_lower.
    replace (c =? 304)%N with false by (symmetry; apply N.eqb_neq; lia).
    replace (c' =? 304)%N with false by (symmetry; apply N.eqb_neq; lia).
    replace (c =? 8490)%N with false by (symmetry; apply N.eqb_neq; lia).
    replace (c' =? 8490)%N with false by (symmetry; apply N.eqb_neq; lia).
    replace (c =? 305)%N with false by (symmetry; apply N.eqb_neq; lia).
    replace (c' =? 305)%N with false by (symmetry; apply N.eqb_neq; lia).
    replace (c =? 383)%N with false by (symmetry; apply N.eqb_neq; lia).
    replace (c' =? 383)%N with false by (symmetry; apply N.eqb_neq; lia).
    unfold same_letter in H. now rewrite H.
  - cbn [orb] in Hp. apply negb_true_iff in Hp.
    destruct (N.eqb_spec c p) as [-> | _]; [congruence |].
    destruct (N.eqb_spec c' p) as [-> | _]; [congruence | reflexivity].
Qed.

Lemma same_letter_atom (ignorecase : bool) (a : atom) (c c' : char) :
  same_letter c c' ->
  case_blind_atom ignorecase a = true ->
  atom_matches ignorecase a c = atom_matches ignorecase a c'.
Proof.
  intros H Ha. destruct a as [p | cs | lo hi | |]; cbn [atom_matches].
  - now apply same_letter_lit.
  - cbn [case_blind_atom] in Ha.
    induction cs as [| p cs IH]; cbn [existsb]; [reflexivity |].
    rewrite (same_letter_lit ignorecase p c c' H).
    + f_equal. apply IH. destruct ignorecase; [reflexivity |].
      cbn [orb forallb] in *. now apply andb_true_iff in Ha as [_ Ha].
    + destruct ignorecase; [reflexivity |].
      cbn [orb forallb] in *. now apply andb_true_iff in Ha as [Ha _].
  - cbn [case_blind_atom] in Ha. apply N.ltb_lt in Ha.
    destruct (same_letter_cases c c' H) as [-> | [L L']]; [reflexivity |].
    apply letter_bounds in L, L'.
    replace (c <=? hi)%N with false by (symmetry; apply N.leb_gt; lia).
    replace (c' <=? hi)%N with false by (symmetry; apply N.leb_gt; lia).
    now rewrite !andb_false_r.
  - unfold is_digit. now rewrite (same_letter_decimal c c' H).
  - now apply same_letter_space.
Qed.

Lemma same_prev_word (p p' : option char) :
  same_prev p p' -> is_word_at p = is_word_at p'.
Proof.
  destruct p, p'; cbn; try easy. apply same_letter_word.
Qed.

Lemma same_text_hd (s s' : text) :
  same_text_up_to_case s s' -> same_prev (hd_error s) (hd_error s').
Proof. destruct 1; cbn; easy. Qed.

Lemma star_match_sim (ignorecase : bool) (a : atom) (g g' : text)
    (k k' : mstate -> option mstate) :
  case_blind_atom ignorecase a = true ->
  same_text_up_to_case g g' ->
  (forall st st', same_state st st' -> same_result (k st) (k' st')) ->
  forall s s' prev prev',
    same_text_up_to_case s s' ->
    same_prev prev prev' ->
    same_result (star_match ignorecase a g k prev s)
                (star_match ignorecase a g' k' prev' s').
Proof.
  intros Ha Hg Hk s s' prev prev' Hs. revert prev prev'.
  induction Hs as [| c c' s s' Hc Hs IH]; intros prev prev' Hp;
    cbn [star_match].
  - apply Hk. repeat split; [exact Hp | constructor | exact Hg].
  - assert (Hhere : same_result (k (MState prev (c :: s) g))
                      (k' (MState prev' (c' :: s') g'))).
    { apply Hk. repeat split; [exact Hp | now constructor | exact Hg]. }
    rewrite (same_letter_atom ignorecase a c c' Hc Ha).
    destruct (atom_matches ignorecase a c'); [| exact Hhere].
    specialize (IH (Some c) (Some c') Hc).
    destruct (star_match ignorecase a g k (Some c) s),
             (star_match ignorecase a g' k' (Some c') s');
      cbn in IH; try contradiction; [exact IH | exact Hhere].
Qed.

Lemma same_text_firstn (n : nat) (s s' : text) :
  same_text_up_to_case s s' ->
  same_text_up_to_case (firstn n s) (firstn n s').
Proof.
  intros H. revert n.
  induction H as [| c c' s s' Hc Hs IH]; intros [| n]; cbn [firstn];
    constructor; [exact Hc | apply IH].
Qed.

Lemma rmatch_sim (ignorecase : bool) (r : regex) :
  case_blind ignorecase r = true ->
  forall st st' k k',
    same_state st st' ->
    (forall s s', same_state s s' -> same_result (k s) (k' s')) ->
    same_result (rmatch ignorecase r st k) (rmatch ignorecase r st' k').
Proof.
  induction r as [| a | a | r1 IH1 | r1 IH1 r2 IH2 | r1 IH1 r2 IH2 |];
    cbn [case_blind rmatch]; intros Hr st st' k k' Hst Hk.
  - now apply Hk.
  - destruct Hst as (Hb & Ha & Hg).
    destruct Ha as [| c c' s s' Hc Hs]; [exact I |].
    rewrite (same_letter_atom ignorecase a c c' Hc Hr).
    destruct (atom_matches ignorecase a c'); [| exact I].
    apply Hk. repeat split; assumption.
  - destruct Hst as (Hb & Ha & Hg).
    apply star_match_sim; assumption.
  - apply IH1; [exact Hr | exact Hst |].
    intros s s' Hs. apply Hk.
    destruct Hst as (Hb & Ha & Hg). destruct Hs as (Hb' & Ha' & Hg').
    repeat split; cbn [before ahead group1]; try assumption.
    rewrite (Forall2_length Ha), (Forall2_length Ha').
    now apply same_text_firstn.
  - apply andb_true_iff in Hr as [Hr1 Hr2].
    apply IH1; [exact Hr1 | exact Hst |].
    intros s s' Hs. now apply IH2.
  - apply andb_true_iff in Hr as [Hr1 Hr2].
    specialize (IH1 Hr1 st st' k k' Hst Hk).
    specialize (IH2 Hr2 st st' k k' Hst Hk).
    destruct (rmatch ignorecase r1 st k), (rmatch ignorecase r1 st' k');
      cbn in IH1; try contradiction; [exact IH1 | exact IH2].
  - destruct Hst as (Hb & Ha & Hg).
    rewrite (same_prev_word _ _ Hb).
    rewrite (same_prev_word _ _ (same_text_hd _ _ Ha)).
    destruct (xorb _ _); [| exact I].
    apply Hk. repeat split; assumption.
Qed.

(** The lists [re.findall] returns on two texts equal up to case are
    equal up to case. *)
Lemma findall_from_sim (ignorecase : bool) (r : regex) :
  case_blind ignorecase r = true ->
  forall s s' prev prev' skip,
    same_text_up_to_case s s' ->
    same_prev prev prev' ->
    Forall2 same_text_up_to_case
      (findall_from ignorecase r prev s skip)
      (findall_from ignorecase r prev' s' skip).
Proof.
  intros Hr s s' prev prev' skip Hs. revert prev prev' skip.
  assert (Hm : forall s s' prev prev',
             same_text_up_to_case s s' -> same_prev prev prev' ->
             match match_here ignorecase r prev s,
                   match_here ignorecase r prev' s' with
             | Some (g, n), Some (g', n') =>
                 same_text_up_to_case g g' /\ n = n'
             | None, None => True
             | _, _ => False
             end).
  { intros t t' p p' Ht Hp. unfold match_here.
    pose proof (rmatch_sim ignorecase r Hr (MState p t []) (MState p' t' [])
                  Some Some) as H.
    destruct (rmatch ignorecase r (MState p t []) Some) as [m |],
             (rmatch ignorecase r (MState p' t' []) Some) as [m' |];
      cbn in H.
    - destruct H as (_ & Ha & Hg);
        [repeat split; [exact Hp | exact Ht | constructor] | auto |].
      split; [exact Hg |].
      now rewrite (Forall2_length Ht), (Forall2_length Ha).
    - apply H; [repeat split; [exact Hp | exact Ht | constructor] | auto].
    - apply H; [repeat split; [exact Hp | exact Ht | constructor] | auto].
    - exact I. }
  induction Hs as [| c c' s s' Hc Hs IH]; intros prev prev' skip Hp.
  - destruct skip; cbn [findall_from]; [| constructor].
    specialize (Hm [] [] prev prev' (Forall2_nil _) Hp).
    destruct (match_here ignorecase r prev []) as [[g n] |],
             (match_here ignorecase r prev' []) as [[g' n'] |];
      try contradiction; [| constructor].
    destruct Hm as [Hg _]. now repeat constructor.
  - destruct skip as [| skip]; cbn [findall_from]; [| now apply IH].
    specialize (Hm (c :: s) (c' :: s') prev prev'
                  (Forall2_cons _ _ Hc Hs) Hp).
    destruct (match_here ignorecase r prev (c :: s)) as [[g n] |],
             (match_here ignorecase r prev' (c' :: s')) as [[g' n'] |];
      try contradiction; [| now apply IH].
    destruct Hm as [Hg <-]. constructor; [exact Hg | now apply IH].
Qed.

Lemma int_of_digits_sim (s s' : text) :
  same_text_up_to_case s s' ->
  forall acc, int_of_digits acc s = int_of_digits acc s'.
Proof.
  induction 1 as [| c c' s s' Hc Hs IH]; intros acc; cbn [int_of_digits];
    [reflexivity |].
  rewrite (same_letter_decimal c c' Hc).
  destruct (decimal_value c'); [apply IH | reflexivity].
Qed.

Lemma py_int_sim (s s' : text) :
  same_text_up_to_case s s' -> py_int s = py_int s'.
Proof.
  intros H. unfold py_int. rewrite (Forall2_length H).
  destruct H as [| c c' s s' Hc Hs]; [reflexivity |].
  now rewrite (int_of_digits_sim (c :: s) (c' :: s') (Forall2_cons _ _ Hc Hs)).
Qed.

Lemma try_patterns_sim (patterns : list regex) (t t' : text) :
  Forall (fun r => case_blind true r = true) patterns ->
  same_text_up_to_case t t' ->
  try_patterns patterns t = try_patterns patterns t'.
Proof.
  intros Hp Ht. induction Hp as [| r patterns Hr _ IH]; cbn [try_patterns];
    [reflexivity |].
  pose proof (findall_from_sim true r Hr t t' None None 0%nat Ht I) as F.
  fold (findall true r t) in F. fold (findall true r t') in F.
  destruct F as [| m0 m0' ms ms' Hm _]; [exact IH |].
  rewrite (py_int_sim m0 m0' Hm).
  destruct (py_int m0') as [rating |]; [| exact IH].
  destruct ((1 <=? rating) && (rating <=? 10)); [reflexivity | exact IH].
Qed.

(** X17.  The text extractor does not see the case of ASCII letters: two texts
    that differ only by it give the same result. *)
Theorem text_extractor_ignores_case (t t' : text) :
  same_text_up_to_case t t' ->
  extract_rating_from_text t' = extract_rating_from_text t.
Proof.
  intros Ht. symmetry. unfold extract_rating_from_text.
  assert (Hp : Forall (fun r => case_blind true r = true) RATING_PATTERNS)
    by (repeat constructor).
  rewrite (try_patterns_sim RATING_PATTERNS t t' Hp Ht).
  assert (Hl : lone_number t = lone_number t').
  { unfold lone_number.
    pose proof (findall_from_sim false STANDALONE_NUMBER eq_refl t t'
                  None None 0%nat Ht I) as F.
    fold (findall false STANDALONE_NUMBER t) in F.
    fold (findall false STANDALONE_NUMBER t') in F.
    destruct F as [| n n' ns ns' Hn Hns]; [reflexivity |].
    destruct Hns; [| reflexivity].
    now rewrite (py_int_sim n n' Hn). }
  rewrite Hl. destruct Ht; reflexivity.
Qed.

End CaseInsensitive.

Lemma text_extractor_ignores_case_witness :
  extract_rating_from_text (unicode := ascii_tables)
    (text_of_string "OVERALL RATING: 6")
  = extract_rating_from_text (unicode := ascii_tables)
      (text_of_string "overall Rating: 6").
Proof.
  apply (text_extractor_ignores_case (unicode := ascii_tables)).
  unfold same_text_up_to_case. cbn. repeat constructor.
Defined.

Section FilterFacts.

Variables min_avg_rating min_min_rating : pynum.

Lemma meets_criteria_true (paper : json) :
  meets_criteria min_avg_rating min_min_rating paper = Ok true ->
  exists a m,
    field_number "avg_rating" paper = Some a /\
    field_number "min_rating" paper = Some m /\
    (num_value min_avg_rating <= a)%Q /\
    (num_value min_min_rating <= m)%Q.
Proof.
  unfold meets_criteria, lacks, py_ge, field_number.
  destruct paper as [| b | z | q | s | l | d]; cbn [py_contains rbind];
    try discriminate.
  - destruct (text_contains _ _); cbn; discriminate.
  - destruct (existsb _ _); cbn; discriminate.
  - cbn [py_getitem].
    destruct (dict_lookup d "avg_rating") as [va |]; cbn [rbind];
      [| discriminate].
    destruct (dict_lookup d "min_rating") as [vm |]; cbn [rbind].
    + destruct (number_value va) as [a |] eqn:Ea;
        destruct (number_value vm) as [m |] eqn:Em;
        destruct va; try discriminate; destruct vm; try discriminate;
        cbn [rbind];
        try (destruct (Qle_bool (num_value min_avg_rating) a) eqn:E1;
             try discriminate;
             intros [= E2]; exists a, m; repeat split;
             now apply Qle_bool_iff).
      all: try (destruct (Qle_bool _ _); discriminate).
    + destruct va; discriminate.
Qed.

Lemma filter_loop_spec (papers : list json) :
  forall acc out,
    filter_loop min_avg_rating min_min_rating papers acc = Ok out ->
    out = acc ++ filter (qualifies min_avg_rating min_min_rating) papers.
Proof.
  induction papers as [| p papers IH]; intros acc out; cbn [filter_loop filter].
  - intros [= <-]. now rewrite app_nil_r.
  - unfold qualifies at 1.
    destruct (meets_criteria min_avg_rating min_min_rating p) as [keep |];
      cbn [rbind]; [| discriminate].
    intros H. apply IH in H. subst out.
    destruct keep; [now rewrite <- app_assoc | reflexivity].
Qed.

Lemma qualifies_sort_key (paper : json) :
  qualifies min_avg_rating min_min_rating paper = true ->
  exists a, sort_key paper = Ok a /\ field_number "avg_rating" paper = Some a.
Proof.
  unfold qualifies. intros H.
  destruct (meets_criteria min_avg_rating min_min_rating paper)
    as [[|] |] eqn:E; try discriminate.
  destruct (meets_criteria_true paper E) as (a & m & Ha & _).
  exists a. split; [| exact Ha].
  unfold field_number in Ha. unfold sort_key.
  destruct paper; try discriminate. cbn [py_getitem].
  destruct (dict_lookup d "avg_rating"); [| discriminate].
  cbn [rbind]. now rewrite Ha.
Qed.

Lemma decorate_qualified (papers : list json) :
  Forall (fun p => qualifies min_avg_rating min_min_rating p = true) papers ->
  exists l, decorate papers = Ok l /\ map snd l = papers /\ decorated_ok l.
Proof.
  induction 1 as [| p papers Hp _ (l & Hl & Hm & Hd)]; cbn [decorate].
  - exists []. repeat split. constructor.
  - destruct (qualifies_sort_key p Hp) as (a & Ha & Hf).
    rewrite Ha, Hl. cbn [rbind]. exists ((a, p) :: l).
    repeat split; [cbn; now rewrite Hm | now constructor].
Qed.

End FilterFacts.

Lemma insert_desc_perm (x : Q * json) (l : list (Q * json)) :
  Permutation (insert_desc x l) (x :: l).
Proof.
  induction l as [| y l IH]; cbn [insert_desc]; [reflexivity |].
  destruct (Qle_bool (fst y) (fst x)); [reflexivity |].
  rewrite IH. apply perm_swap.
Qed.

Lemma sort_desc_perm (l : list (Q * json)) : Permutation (sort_desc l) l.
Proof.
  induction l as [| x l IH]; cbn [sort_desc fold_right]; [constructor |].
  fold (sort_desc l). rewrite insert_desc_perm. now constructor.
Qed.

Lemma insert_desc_sorted (x : Q * json) (l : list (Q * json)) :
  StronglySorted key_ge l -> StronglySorted key_ge (insert_desc x l).
Proof.
  induction l as [| y l IH]; cbn [insert_desc]; intros Hs.
  - repeat constructor.
  - inversion Hs as [| ? ? Hs' Hall]; subst.
    destruct (Qle_bool (fst y) (fst x)) eqn:E.
    + apply Qle_bool_iff in E. constructor; [exact Hs |].
      constructor; [exact E |].
      eapply Forall_impl; [| exact Hall].
      unfold key_ge. intros z Hz. now apply (Qle_trans _ (fst y)).
    + assert (Hlt : (fst x <= fst y)%Q).
      { apply Qlt_le_weak, Qnot_le_lt. intros H.
        apply Qle_bool_iff in H. congruence. }
      constructor; [now apply IH |].
      apply (Permutation_Forall (x := x :: l));
        [symmetry; apply insert_desc_perm |].
      constructor; [exact Hlt | exact Hall].
Qed.

Lemma sort_desc_sorted (l : list (Q * json)) :
  StronglySorted key_ge (sort_desc l).
Proof.
  induction l as [| x l IH]; cbn [sort_desc fold_right]; [constructor |].
  now apply insert_desc_sorted.
Qed.

Lemma insert_desc_stable (q : Q) (x : Q * json) (l : list (Q * json)) :
  StronglySorted key_ge l ->
  filter (fun kp => Qeq_bool (fst kp) q) (insert_desc x l)
  = filter (fun kp => Qeq_bool (fst kp) q) (x :: l).
Proof.
  induction l as [| y l IH]; cbn [insert_desc]; intros Hs; [reflexivity |].
  inversion Hs as [| ? ? Hs' Hall]; subst.
  destruct (Qle_bool (fst y) (fst x)) eqn:E; [reflexivity |].
  cbn [filter] in *. rewrite (IH Hs').
  destruct (Qeq_bool (fst x) q) eqn:Ex; [| reflexivity].
  destruct (Qeq_bool (fst y) q) eqn:Ey; [| reflexivity].
  apply Qeq_bool_iff in Ex, Ey.
  assert (Qle_bool (fst y) (fst x) = true); [| congruence].
  apply Qle_bool_iff. rewrite Ex, Ey. apply Qle_refl.
Qed.

Lemma sort_desc_stable (q : Q) (l : list (Q * json)) :
  filter (fun kp => Qeq_bool (fst kp) q) (sort_desc l)
  = filter (fun kp => Qeq_bool (fst kp) q) l.
Proof.
  induction l as [| x l IH]; cbn [sort_desc fold_right]; [reflexivity |].
  fold (sort_desc l). rewrite insert_desc_stable by apply sort_desc_sorted.
  cbn [filter]. now rewrite IH.
Qed.

Lemma sort_desc_sorted_id (l : list (Q * json)) :
  StronglySorted key_ge l -> sort_desc l = l.
Proof.
  induction 1 as [| x l Hs IH Hall]; cbn [sort_desc fold_right];
    [reflexivity |].
  fold (sort_desc l). rewrite IH.
  destruct l as [| y l]; [reflexivity |]. cbn [insert_desc].
  inversion Hall as [| ? ? Hy _]; subst. unfold key_ge in Hy.
  apply Qle_bool_iff in Hy. now rewrite Hy.
Qed.

Lemma decorated_unique (l1 l2 : list (Q * json)) :
  map snd l1 = map snd l2 -> decorated_ok l1 -> decorated_ok l2 -> l1 = l2.
Proof.
  revert l2. induction l1 as [| [k p] l1 IH]; intros [| [k' p'] l2];
    cbn [map snd]; try discriminate; [reflexivity |].
  intros [= -> Hm] H1 H2. inversion H1; subst. inversion H2; subst.
  cbn [fst snd] in *. f_equal; [| now apply IH]. f_equal. congruence.
Qed.

Section FilterTheorems.

Variables min_avg_rating min_min_rating : pynum.
Variable papers_data : list json.
Variable out : list json.
Hypothesis Hout :
  filter_and_sort_papers papers_data min_avg_rating min_min_rating = Ok out.

Lemma filter_and_sort_papers_inv :
  exists decorated,
    decorate (selected min_avg_rating min_min_rating papers_data)
    = Ok decorated /\
    map snd decorated = selected min_avg_rating min_min_rating papers_data /\
    decorated_ok decorated /\
    out = map snd (sort_desc decorated).
Proof.
  unfold filter_and_sort_papers in Hout.
  destruct (filter_loop min_avg_rating min_min_rating papers_data [])
    as [sel |] eqn:Ef; cbn [rbind] in Hout; [| discriminate].
  apply filter_loop_spec in Ef. cbn [app] in Ef.
  fold (selected min_avg_rating min_min_rating papers_data) in Ef.
  subst sel.
  destruct (decorate_qualified min_avg_rating min_min_rating
              (selected min_avg_rating min_min_rating papers_data))
    as (l & Hl & Hm & Hd).
  { apply Forall_forall. intros p Hp. now apply filter_In in Hp. }
  rewrite Hl in Hout. cbn [rbind] in Hout. injection Hout as <-.
  now exists l.
Qed.

Lemma out_permutation :
  Permutation out (selected min_avg_rating min_min_rating papers_data).
Proof.
  destruct filter_and_sort_papers_inv as (l & _ & Hm & _ & ->).
  rewrite <- Hm. apply Permutation_map, sort_desc_perm.
Qed.

Lemma out_members :
  Forall (fun paper =>
            In paper papers_data /\
            exists a m,
              field_number "avg_rating" paper = Some a /\
              field_number "min_rating" paper = Some m /\
              (num_value min_avg_rating <= a)%Q /\
              (num_value min_min_rating <= m)%Q) out.
Proof.
  apply Forall_forall. intros p Hp.
  apply (Permutation_in _ out_permutation) in Hp.
  apply filter_In in Hp as [Hin Hq]. split; [exact Hin |].
  unfold qualifies in Hq.
  destruct (meets_criteria min_avg_rating min_min_rating p) as [[|] |] eqn:E;
    try discriminate.
  now apply (meets_criteria_true min_avg_rating min_min_rating).
Qed.

(** X18.  Every paper returned comes from the input and holds a number under
    "avg_rating" and under "min_rating", each at least the threshold. *)
Theorem filtered_papers_meet_criteria :
  Forall (fun paper =>
            In paper papers_data /\
            exists a m,
              field_number "avg_rating" paper = Some a /\
              field_number "min_rating" paper = Some m /\
              (num_value min_avg_rating <= a)%Q /\
              (num_value min_min_rating <= m)%Q) out.
Proof.
  exact out_members.
Qed.

(** X19.  A paper without a number under "avg_rating" (no such key, or null, as
    for a paper without scores) is never returned, whatever the
    thresholds. *)
Theorem unrated_paper_is_never_listed (paper : json) :
  field_number "avg_rating" paper = None -> ~ In paper out.
Proof.
  intros Hn Hin.
  pose proof (proj1 (Forall_forall _ _) out_members
                paper Hin) as (_ & a & m & Ha & _).
  congruence.
Qed.

Lemma sorted_decorated_ok (l : list (Q * json)) :
  decorated_ok l -> decorated_ok (sort_desc l).
Proof.
  unfold decorated_ok. intros H.
  apply (Permutation_Forall (x := l)); [| exact H].
  symmetry. apply sort_desc_perm.
Qed.

Lemma sorted_keys_sorted_averages (s : list (Q * json)) :
  StronglySorted key_ge s -> decorated_ok s ->
  StronglySorted average_ge (map snd s).
Proof.
  induction 1 as [| x s Hs IH Hall]; intros Hd; cbn [map]; constructor.
  - apply IH. now inversion Hd.
  - inversion Hd as [| ? ? Hx Hd']; subst.
    apply Forall_forall. intros p Hp.
    apply in_map_iff in Hp as (y & <- & Hy).
    unfold average_ge.
    rewrite Hx, (proj1 (Forall_forall _ _) Hd' y Hy).
    exact (proj1 (Forall_forall _ _) Hall y Hy).
Qed.

(** X20.  The papers are returned by decreasing average. *)
Theorem filtered_papers_are_sorted : StronglySorted average_ge out.
Proof.
  destruct filter_and_sort_papers_inv as (l & _ & _ & Hd & ->).
  apply sorted_keys_sorted_averages;
    [apply sort_desc_sorted | now apply sorted_decorated_ok].
Qed.

Lemma with_average_decorated (q : Q) (l : list (Q * json)) :
  decorated_ok l ->
  with_average q (map snd l)
  = map snd (filter (fun kp => Qeq_bool (fst kp) q) l).
Proof.
  induction 1 as [| [k p] l Hk _ IH]; [reflexivity |].
  cbn [map snd with_average filter fst] in *. rewrite Hk.
  fold (with_average q (map snd l)). rewrite IH.
  now destruct (Qeq_bool k q).
Qed.

(** X21.  The papers returned are those of the input that pass the filter, each
    as often as it occurs there; papers with equal averages keep the
    order they have in the input. *)
Theorem filter_is_a_stable_selection :
  Permutation out (selected min_avg_rating min_min_rating papers_data) /\
  forall q,
    with_average q out
    = with_average q (selected min_avg_rating min_min_rating papers_data).
Proof.
  split; [exact out_permutation |]. intros q.
  destruct filter_and_sort_papers_inv as (l & _ & Hm & Hd & ->).
  rewrite with_average_decorated by now apply sorted_decorated_ok.
  rewrite sort_desc_stable, <- with_average_decorated by exact Hd.
  now rewrite Hm.
Qed.

(** X22.  Filtering the result again with the same thresholds changes
    nothing. *)
Theorem filter_and_sort_is_idempotent :
  filter_and_sort_papers out min_avg_rating min_min_rating = Ok out.
Proof.
  assert (Hq : Forall (fun p => qualifies min_avg_rating min_min_rating p
                                = true) out).
  { apply Forall_forall. intros p Hp.
    apply (Permutation_in _ out_permutation) in Hp.
    now apply filter_In in Hp. }
  destruct filter_and_sort_papers_inv as (l & _ & Hm & Hd & E).
  unfold filter_and_sort_papers.
  destruct (filter_loop min_avg_rating min_min_rating out []) as [sel |] eqn:Ef.
  - apply filter_loop_spec in Ef. cbn [app] in Ef.
    rewrite forallb_filter_id in Ef.
    + subst sel. cbn [rbind].
      destruct (decorate_qualified min_avg_rating min_min_rating out Hq)
        as (l' & Hl' & Hm' & Hd').
      rewrite Hl'. cbn [rbind].
      assert (l' = sort_desc l).
      { apply decorated_unique; [congruence | exact Hd' |].
        now apply sorted_decorated_ok. }
      subst l'. rewrite sort_desc_sorted_id by apply sort_desc_sorted.
      now rewrite <- E.
    + apply forallb_forall. now apply Forall_forall.
  - exfalso. clear - Hq Ef. revert Ef. generalize (@nil json).
    induction Hq as [| p ps Hp _ IH]; intros acc; cbn [filter_loop];
      [discriminate |].
    unfold qualifies in Hp.
    destruct (meets_criteria min_avg_rating min_min_rating p) as [[|] |];
      try discriminate.
    cbn [rbind]. apply IH.
Qed.

End FilterTheorems.

Lemma meets_criteria_raises (a b : pynum) (paper : json) (e : exn) :
  meets_criteria a b paper = Raise e -> e = TypeError.
Proof.
  unfold meets_criteria, lacks, py_ge.
  destruct paper as [| x | z | q | s | l | d]; cbn [py_contains rbind];
    try (intros [= <-]; reflexivity).
  - destruct (text_contains _ _); cbn; [intros [= <-]; reflexivity |].
    discriminate.
  - destruct (existsb _ _); cbn; [intros [= <-]; reflexivity |].
    discriminate.
  - cbn [py_getitem].
    destruct (dict_lookup d "avg_rating") as [va |]; cbn [rbind];
      [| discriminate].
    destruct (dict_lookup d "min_rating") as [vm |]; cbn [rbind].
    + destruct va; cbn [rbind number_value]; try discriminate;
        try (intros [= <-]; reflexivity);
        destruct vm; cbn [rbind number_value]; try discriminate;
        try (intros [= <-]; reflexivity);
        destruct (Qle_bool _ _); try discriminate;
        try (intros [= <-]; reflexivity);
        destruct (Qle_bool _ _); discriminate.
    + destruct va; discriminate.
Qed.

Lemma filter_loop_raises (a b : pynum) (papers : list json) (paper : json) :
  In paper papers ->
  meets_criteria a b paper = Raise TypeError ->
  forall acc, filter_loop a b papers acc = Raise TypeError.
Proof.
  intros Hin Hr. induction papers as [| p papers IH]; intros acc;
    [contradiction |].
  cbn [filter_loop].
  destruct (meets_criteria a b p) as [keep |] eqn:E; cbn [rbind].
  - destruct Hin as [-> | Hin]; [congruence | now apply IH].
  - now rewrite (meets_criteria_raises a b p _ E).
Qed.

(** X23.  A paper whose "avg_rating" is neither null nor a number (a string,
    say), and whose "min_rating" is not null, makes the whole call raise
    [TypeError], whatever the other papers hold. *)
Theorem non_numeric_average_raises
    (papers_data : list json) (a b : pynum)
    (fields : list (string * json)) (avg_rating min_rating : json) :
  In (JDict fields) papers_data ->
  dict_lookup fields "avg_rating" = Some avg_rating ->
  avg_rating <> JNull ->
  number_value avg_rating = None ->
  dict_lookup fields "min_rating" = Some min_rating ->
  min_rating <> JNull ->
  filter_and_sort_papers papers_data a b = Raise TypeError.
Proof.
  intros Hin Ha Hnn Hnum Hm Hmn. unfold filter_and_sort_papers.
  rewrite (filter_loop_raises a b papers_data (JDict fields) Hin);
    [reflexivity |].
  unfold meets_criteria, lacks, py_ge. cbn [py_contains py_getitem rbind].
  rewrite Ha, Hm. cbn [rbind].
  destruct avg_rating; try contradiction; try discriminate;
    destruct min_rating; try contradiction; reflexivity.
Qed.

Lemma non_numeric_average_raises_witness :
  let good :=
    JDict [("avg_rating"%string, JInt 8); ("min_rating"%string, JInt 8)] in
  let bad :=
    JDict [("avg_rating"%string, JStr (text_of_string "7.5"));
           ("min_rating"%string, JInt 6)] in
  filter_and_sort_papers [good; bad; good] (PInt 6) (PInt 5)
  = Raise TypeError.
Proof.
  intros good bad.
  apply (non_numeric_average_raises [good; bad; good] (PInt 6) (PInt 5)
           [("avg_rating"%string, JStr (text_of_string "7.5"));
            ("min_rating"%string, JInt 6)]
           (JStr (text_of_string "7.5")) (JInt 6)).
  - right. now left.
  - reflexivity.
  - discriminate.
  - reflexivity.
  - reflexivity.
  - discriminate.
Defined.

Lemma example_filter :
  filter_and_sort_papers example_papers (PInt 6) (PInt 5)
  = Ok example_high_rated.
Proof. reflexivity. Qed.

Lemma filtered_papers_meet_criteria_witness :
  Forall (fun paper =>
            In paper example_papers /\
            exists a m,
              field_number "avg_rating" paper = Some a /\
              field_number "min_rating" paper = Some m /\
              (6 <= a)%Q /\ (5 <= m)%Q) example_high_rated.
Proof.
  exact (filtered_papers_meet_criteria (PInt 6) (PInt 5) example_papers
           example_high_rated eq_refl).
Defined.

Lemma unrated_paper_is_never_listed_witness :
  ~ In (example_paper "b" JNull JNull) example_high_rated.
Proof.
  apply (unrated_paper_is_never_listed (PInt 6) (PInt 5) example_papers
           example_high_rated eq_refl).
  reflexivity.
Defined.

Lemma filtered_papers_are_sorted_witness :
  StronglySorted average_ge example_high_rated.
Proof.
  exact (filtered_papers_are_sorted (PInt 6) (PInt 5) example_papers
           example_high_rated eq_refl).
Defined.

Lemma filter_is_a_stable_selection_witness :
  with_average (13 # 2) example_high_rated
  = [example_paper "a" (JFloat (13 # 2)) (JInt 6);
     example_paper "d" (JFloat (13 # 2)) (JInt 5)].
Proof.
  rewrite (proj2 (filter_is_a_stable_selection (PInt 6) (PInt 5)
                    example_papers example_high_rated eq_refl)).
  reflexivity.
Defined.

Lemma filter_and_sort_is_idempotent_witness :
  filter_and_sort_papers example_high_rated (PInt 6) (PInt 5)
  = Ok example_high_rated.
Proof.
  exact (filter_and_sort_is_idempotent (PInt 6) (PInt 5) example_papers
           example_high_rated eq_refl).
Defined.

Lemma dict_lookup_set (d : list (string * json)) (k key : string) (v : json) :
  dict_lookup (dict_set d k v) key
  = if String.eqb k key then Some v else dict_lookup d key.
Proof.
  induction d as [| [k' v'] d IH]; cbn [dict_set dict_lookup].
  - reflexivity.
  - destruct (String.eqb_spec k' k) as [-> | Hk]; cbn [dict_lookup].
    + destruct (String.eqb_spec k key); reflexivity.
    + rewrite IH. destruct (String.eqb_spec k' key) as [-> | Hr];
        [| reflexivity].
      destruct (String.eqb_spec k key); [congruence | reflexivity].
Qed.

Lemma dict_lookup_update_other (other d : list (string * json)) (key : string) :
  ~ In key (map fst other) ->
  dict_lookup (dict_update d other) key = dict_lookup d key.
Proof.
  unfold dict_update. revert d.
  induction other as [| [k v] other IH]; intros d Hn; cbn [fold_left];
    [reflexivity |].
  cbn [map fst In] in Hn. rewrite IH by tauto. cbn [fst snd].
  rewrite dict_lookup_set.
  destruct (String.eqb_spec k key); [tauto | reflexivity].
Qed.

Lemma dict_lookup_update_in (other d : list (string * json)) (key : string) :
  In key (map fst other) ->
  dict_lookup (dict_update d other) key <> None.
Proof.
  unfold dict_update. revert d.
  induction other as [| [k v] other IH]; intros d Hin; cbn [fold_left];
    [contradiction |].
  cbn [map fst In] in Hin.
  destruct (in_dec string_dec key (map fst other)) as [Hi | Hn];
    [now apply IH |].
  fold (dict_update (dict_set d (fst (k, v)) (snd (k, v))) other).
  rewrite dict_lookup_update_other by exact Hn. cbn [fst snd].
  rewrite dict_lookup_set.
  destruct Hin as [-> | Hin]; [| contradiction].
  now rewrite String.eqb_refl.
Qed.

Lemma rating_fields_keys (item : json) (fields : list (string * json)) :
  rating_fields item = Ok fields -> map fst fields = rating_keys.
Proof.
  unfold rating_fields.
  repeat (match goal with
          | |- context [py_getitem item ?k] => destruct (py_getitem item k)
          end; cbn [rbind]; try discriminate).
  now intros [= <-].
Qed.

Lemma rdict_get_keys (d : rdict) (key : json) (v : list (string * json)) :
  well_keyed d -> rdict_get d key = Some v -> map fst v = rating_keys.
Proof.
  induction 1 as [| [k v'] d Hk _ IH]; cbn [rdict_get]; [discriminate |].
  destruct (key_eqb k key); [now intros [= <-] | exact IH].
Qed.

Lemma rdict_set_well_keyed (d : rdict) (key : json) (v : list (string * json)) :
  well_keyed d -> map fst v = rating_keys -> well_keyed (rdict_set d key v).
Proof.
  induction 1 as [| [k v'] d Hk Hd IH]; cbn [rdict_set]; intros Hv.
  - repeat constructor. exact Hv.
  - destruct (key_eqb k key); constructor; cbn [snd]; auto.
    now apply IH.
Qed.

Lemma create_ratings_loop_well_keyed (ratings_data : list json) :
  forall d d',
    well_keyed d ->
    create_ratings_loop ratings_data d = Ok d' -> well_keyed d'.
Proof.
  induction ratings_data as [| item items IH]; intros d d' Hd;
    cbn [create_ratings_loop].
  - now intros [= <-].
  - destruct (py_getitem item "paper_id") as [id |]; cbn [rbind];
      [| discriminate].
    destruct (rating_fields item) as [fields |] eqn:Ef; cbn [rbind];
      [| discriminate].
    destruct (hashable id); [| discriminate].
    apply IH. apply rdict_set_well_keyed; [exact Hd |].
    now apply rating_fields_keys with (item := item).
Qed.

Lemma add_ratings_loop_spec (papers : list json) (d : rdict) :
  well_keyed d ->
  forall done u m out u' m',
    add_ratings_loop papers d done u m = Ok (out, u', m') ->
    exists new,
      out = done ++ new /\
      Forall2 rated_version papers new /\
      u' + m' = u + m + Z.of_nat (List.length papers) /\
      u <= u' /\ m <= m'.
Proof.
  intros Hd. induction papers as [| paper papers IH];
    intros done u m out u' m'; cbn [add_ratings_loop].
  - intros [= <- <- <-]. exists []. rewrite app_nil_r.
    repeat split; try constructor; cbn; lia.
  - destruct (py_getitem paper "paper_id") as [id |] eqn:Eid; cbn [rbind];
      [| discriminate].
    destruct (hashable id); [| discriminate].
    destruct paper as [| | | | | | fields]; try discriminate.
    assert (R : forall rating,
               map fst rating = rating_keys ->
               rated_version (JDict fields)
                 (JDict (dict_update fields rating))).
    { intros rating Hk. exists fields, (dict_update fields rating).
      repeat split.
      - intros key Hin. apply dict_lookup_update_in. now rewrite Hk.
      - intros key Hn. apply dict_lookup_update_other. now rewrite Hk. }
    destruct (rdict_get d id) as [rating |] eqn:Eg; intros H;
      apply IH in H as (new & -> & HF & Hc & Hu & Hm);
      eexists (_ :: new); rewrite <- app_assoc; cbn [app];
      (split; [reflexivity |]); (split; [constructor; [| exact HF] |]);
      try (cbn [List.length]; lia).
    + apply R. now apply (rdict_get_keys d id).
    + now apply R.
Qed.

(** X24.  Every paper comes back with the five rating fields and its other
    fields unchanged; the two counters add up to the number of papers. *)
Theorem ratings_are_added_to_every_paper
    (ratings_data papers_data out : list json) (d : rdict)
    (updated_count missing_count : Z) :
  create_ratings_dict ratings_data = Ok d ->
  add_ratings_to_papers papers_data d = Ok (out, updated_count, missing_count)
  ->
  Forall2 rated_version papers_data out /\
  updated_count + missing_count = Z.of_nat (List.length papers_data) /\
  0 <= updated_count /\ 0 <= missing_count.
Proof.
  intros Hc Ha.
  assert (Hd : well_keyed d).
  { apply (create_ratings_loop_well_keyed ratings_data [] d);
      [constructor | exact Hc]. }
  apply (add_ratings_loop_spec papers_data d Hd) in Ha
    as (new & -> & HF & Hs & Hu & Hm).
  cbn [app]. repeat split; try assumption; lia.
Qed.

Lemma text_eqb_eq (s t : text) : text_eqb s t = true <-> s = t.
Proof.
  unfold text_eqb. destruct (list_eq_dec N.eq_dec s t); split; congruence.
Qed.

Lemma key_eqb_sym (a b : json) : key_eqb a b = key_eqb b a.
Proof.
  destruct a, b; cbn; try reflexivity.
  all: try (apply eq_true_iff_eq; rewrite !Qeq_bool_iff; split;
            intros H; now symmetry).
  apply eq_true_iff_eq. rewrite !text_eqb_eq. split; congruence.
Qed.

Lemma key_eqb_trans (a b c : json) :
  key_eqb a b = true -> key_eqb b c = true -> key_eqb a c = true.
Proof.
  destruct a, b; cbn; try discriminate; destruct c; cbn; try discriminate;
    try reflexivity;
    try (rewrite !Qeq_bool_iff; intros H1 H2; now rewrite H1);
    rewrite !text_eqb_eq; congruence.
Qed.

Lemma key_eqb_congr (k k' key : json) :
  key_eqb k' k = true -> key_eqb k' key = key_eqb k key.
Proof.
  intros H. apply eq_true_iff_eq. split; intros H'.
  - apply (key_eqb_trans k k' key); [now rewrite key_eqb_sym | exact H'].
  - now apply (key_eqb_trans k' k key).
Qed.

Lemma rdict_get_set (d : rdict) (k key : json) (v : list (string * json)) :
  rdict_get (rdict_set d k v) key
  = if key_eqb k key then Some v else rdict_get d key.
Proof.
  induction d as [| [k' v'] d IH]; cbn [rdict_set rdict_get]; [reflexivity |].
  destruct (key_eqb k' k) eqn:E; cbn [rdict_get].
  - rewrite (key_eqb_congr k k' key E). now destruct (key_eqb k key).
  - rewrite IH. destruct (key_eqb k' key) eqn:E'; [| reflexivity].
    destruct (key_eqb k key) eqn:E''; [| reflexivity].
    exfalso. rewrite key_eqb_sym in E''.
    rewrite (key_eqb_trans k' key k E' E'') in E. discriminate.
Qed.

Lemma create_ratings_loop_lookup (ratings_data : list json) (key : json) :
  forall d d',
    create_ratings_loop ratings_data d = Ok d' ->
    match last_item key ratings_data with
    | Some item => exists fields,
                     rating_fields item = Ok fields /\
                     rdict_get d' key = Some fields
    | None => rdict_get d' key = rdict_get d key
    end.
Proof.
  induction ratings_data as [| item items IH]; intros d d';
    cbn [create_ratings_loop last_item].
  - now intros [= <-].
  - destruct (py_getitem item "paper_id") as [id |]; cbn [rbind];
      [| discriminate].
    destruct (rating_fields item) as [fields |] eqn:Ef; cbn [rbind];
      [| discriminate].
    destruct (hashable id); [| discriminate].
    intros H. specialize (IH _ _ H).
    destruct (last_item key items) as [later |]; [exact IH |].
    rewrite IH, rdict_get_set.
    destruct (key_eqb id key); [| reflexivity].
    now exists fields.
Qed.

(** X25.  When the rating file holds several records for an identifier, the
    dictionary keeps the fields of the last one; an identifier without
    record is not in the dictionary. *)
Theorem last_rating_record_wins
    (ratings_data : list json) (d : rdict) (key : json) :
  create_ratings_dict ratings_data = Ok d ->
  match last_item key ratings_data with
  | Some item => exists fields,
                   rating_fields item = Ok fields /\
                   rdict_get d key = Some fields
  | None => rdict_get d key = None
  end.
Proof.
  intros H.
  exact (create_ratings_loop_lookup ratings_data key [] d H).
Qed.

Lemma add_ratings_loop_exact (papers : list json) (d : rdict) :
  forall done u m out u' m',
    add_ratings_loop papers d done u m = Ok (out, u', m') ->
    out = done ++ map (with_rating d) papers.
Proof.
  induction papers as [| paper papers IH]; intros done u m out u' m';
    cbn [add_ratings_loop map].
  - intros [= <- _ _]. now rewrite app_nil_r.
  - destruct (py_getitem paper "paper_id") as [id |] eqn:Eid; cbn [rbind];
      [| discriminate].
    destruct (hashable id); [| discriminate].
    destruct paper as [| | | | | | fields]; try discriminate.
    cbn [py_getitem] in Eid. cbn [with_rating].
    destruct (dict_lookup fields "paper_id") as [id' |]; [| discriminate].
    injection Eid as ->.
    destruct (rdict_get d id); intros H; apply IH in H; subst out;
      now rewrite <- app_assoc.
Qed.

(** X26.  A paper whose identifier has no rating record comes back, at its
    own place in the list, with an empty score list, null statistics and a
    reviewer count of 0, and with its other fields unchanged. *)
Theorem unmatched_paper_gets_empty_rating
    (papers_data out : list json) (d : rdict) (u m : Z) (i : nat)
    (fields : list (string * json)) (paper_id : json) :
  add_ratings_to_papers papers_data d = Ok (out, u, m) ->
  nth_error papers_data i = Some (JDict fields) ->
  dict_lookup fields "paper_id" = Some paper_id ->
  rdict_get d paper_id = None ->
  exists fields',
    nth_error out i = Some (JDict fields') /\
    dict_lookup fields' "ratings" = Some (JList []) /\
    dict_lookup fields' "min_rating" = Some JNull /\
    dict_lookup fields' "max_rating" = Some JNull /\
    dict_lookup fields' "avg_rating" = Some JNull /\
    dict_lookup fields' "reviewer_count" = Some (JInt 0) /\
    (forall key, ~ In key rating_keys ->
                 dict_lookup fields' key = dict_lookup fields key).
Proof.
  intros Ha Hin Hid Hg.
  apply add_ratings_loop_exact in Ha. cbn [app] in Ha. subst out.
  exists (dict_update fields empty_rating_fields). split.
  - rewrite nth_error_map, Hin. cbn [option_map with_rating].
    now rewrite Hid, Hg.
  - split; [| split; [| split; [| split; [| split]]]];
      try (unfold dict_update, empty_rating_fields; cbn [fold_left fst snd];
           rewrite !dict_lookup_set; reflexivity).
    intros key Hn. now apply dict_lookup_update_other.
Qed.

Lemma ratings_are_added_to_every_paper_witness :
  Forall2 rated_version example_catalogue example_merged /\
  1 + 1 = Z.of_nat (List.length example_catalogue) /\ 0 <= 1 /\ 0 <= 1.
Proof.
  exact (ratings_are_added_to_every_paper example_ratings_data
           example_catalogue example_merged example_ratings_dict 1 1
           eq_refl eq_refl).
Defined.

Lemma last_rating_record_wins_witness :
  exists fields,
    rating_fields (result_row (rating_info "a" [8; 8; 10])) = Ok fields /\
    rdict_get example_ratings_dict (JStr (text_of_string "a")) = Some fields.
Proof.
  exact (last_rating_record_wins example_ratings_data example_ratings_dict
           (JStr (text_of_string "a")) eq_refl).
Defined.

(** Two papers without record: each comes back at its own place, with its
    own title. *)
Lemma unmatched_paper_gets_empty_rating_witness :
  let paper (id title : string) :=
    [("paper_id"%string, JStr (text_of_string id));
     ("title"%string, JStr (text_of_string title))] in
  let papers :=
    [JDict (paper "c" "C"); JDict (paper "d" "D")]%string in
  let out := map (with_rating example_ratings_dict) papers in
  add_ratings_to_papers papers example_ratings_dict = Ok (out, 0, 2) /\
  exists fields',
    nth_error out 1 = Some (JDict fields') /\
    dict_lookup fields' "title" = Some (JStr (text_of_string "D")) /\
    dict_lookup fields' "ratings" = Some (JList []) /\
    dict_lookup fields' "avg_rating" = Some JNull /\
    dict_lookup fields' "reviewer_count" = Some (JInt 0).
Proof.
  intros paper papers out. split; [reflexivity |].
  destruct (unmatched_paper_gets_empty_rating papers out
              example_ratings_dict 0 2 1 (paper "d" "D")%string
              (JStr (text_of_string "d")) eq_refl eq_refl eq_refl eq_refl)
    as (fields' & Hn & Hr & _ & _ & Ha & Hc & Hk).
  exists fields'. split; [exact Hn |].
  split; [| split; [exact Hr | split; [exact Ha | exact Hc]]].
  rewrite Hk; [reflexivity |].
  cbn. intuition discriminate.
Defined.

Lemma text_of_string_inj (a b : string) :
  text_of_string a = text_of_string b -> a = b.
Proof.
  unfold text_of_string. revert b.
  induction a as [| x a IH]; intros [| y b]; cbn; try discriminate;
    [reflexivity |].
  intros [= Hxy Hab]. f_equal; [| now apply IH].
  rewrite <- (ascii_N_embedding x), <- (ascii_N_embedding y). now rewrite Hxy.
Qed.

Lemma key_eqb_ids (a b : string) :
  key_eqb (JStr (text_of_string a)) (JStr (text_of_string b)) = String.eqb a b.
Proof.
  cbn [key_eqb]. apply eq_true_iff_eq. rewrite text_eqb_eq, String.eqb_eq.
  split; [apply text_of_string_inj | congruence].
Qed.

Lemma rating_fields_row (r : PaperRatingInfo) :
  rating_fields (result_row r) = Ok (row_fields r).
Proof. reflexivity. Qed.

Lemma last_item_rows (id : string) (results : list PaperRatingInfo) :
  last_item (JStr (text_of_string id)) (map result_row results)
  = option_map result_row (last_record id results).
Proof.
  induction results as [| r results IH]; cbn [map last_item last_record];
    [reflexivity |].
  rewrite IH. destruct (last_record id results); cbn [option_map];
    [reflexivity |].
  change (py_getitem (result_row r) "paper_id")
    with (Ok (JStr (text_of_string (paper_id r)))).
  cbv beta iota. rewrite key_eqb_ids.
  now destruct (String.eqb (paper_id r) id).
Qed.

Lemma create_ratings_loop_rows (results : list PaperRatingInfo) :
  forall d, exists d',
    create_ratings_loop (map result_row results) d = Ok d'.
Proof.
  induction results as [| r results IH]; intros d;
    cbn [map create_ratings_loop]; [now exists d |].
  change (py_getitem (result_row r) "paper_id")
    with (Ok (JStr (text_of_string (paper_id r)))).
  rewrite rating_fields_row. cbn [rbind hashable]. apply IH.
Qed.

Lemma saved_rows_lookup (results : list PaperRatingInfo) (d : rdict)
    (id : string) :
  create_ratings_dict (map result_row results) = Ok d ->
  rdict_get d (JStr (text_of_string id))
  = option_map row_fields (last_record id results).
Proof.
  intros Hd.
  pose proof (create_ratings_loop_lookup _ (JStr (text_of_string id)) [] d Hd)
    as H.
  rewrite last_item_rows in H.
  destruct (last_record id results) as [r |]; cbn [option_map] in *;
    [| exact H].
  destruct H as (fields & Hf & Hg). rewrite rating_fields_row in Hf.
  now injection Hf as <-.
Qed.

(** X27.  The rows [save_results] builds are accepted by [create_ratings_dict],
    and looking an identifier up in the dictionary gives the rating fields
    of the last record saved for it, or nothing when there is none. *)
Theorem saved_rows_are_found_again (results : list PaperRatingInfo) :
  exists d,
    create_ratings_dict (map result_row results) = Ok d /\
    forall id,
      rdict_get d (JStr (text_of_string id))
      = option_map row_fields (last_record id results).
Proof.
  destruct (create_ratings_loop_rows results []) as (d & Hd).
  exists d. split; [exact Hd |]. intros id.
  now apply saved_rows_lookup.
Qed.

Lemma rdict_set_from_records (d : rdict) (key : json) (r : PaperRatingInfo) :
  from_records d -> from_records (rdict_set d key (row_fields r)).
Proof.
  induction 1 as [| [k v] d Hk Hd IH]; cbn [rdict_set].
  - repeat constructor. now exists r.
  - destruct (key_eqb k key); constructor; auto. now exists r.
Qed.

Lemma create_ratings_loop_from_records (results : list PaperRatingInfo) :
  forall d d',
    from_records d ->
    create_ratings_loop (map result_row results) d = Ok d' ->
    from_records d'.
Proof.
  induction results as [| r results IH]; intros d d' Hd;
    cbn [map create_ratings_loop]; [now intros [= <-] |].
  change (py_getitem (result_row r) "paper_id")
    with (Ok (JStr (text_of_string (paper_id r)))).
  rewrite rating_fields_row. cbn [rbind hashable].
  apply IH. now apply rdict_set_from_records.
Qed.

Lemma rdict_get_from_records (d : rdict) (key : json)
    (v : list (string * json)) :
  from_records d -> rdict_get d key = Some v -> exists r, v = row_fields r.
Proof.
  induction 1 as [| [k v'] d Hk _ IH]; cbn [rdict_get]; [discriminate |].
  destruct (key_eqb k key); [| exact IH].
  intros [= <-]. exact Hk.
Qed.

(** What the filter sees of a merged paper: the values of the rating
    fields. *)
Lemma merged_fields (rating fields : list (string * json)) (key : string)
    (v : json) :
  NoDup (map fst rating) ->
  In (key, v) rating ->
  dict_lookup (dict_update fields rating) key = Some v.
Proof.
  unfold dict_update. revert fields.
  induction rating as [| [k x] rating IH]; intros fields Hnd Hin;
    [contradiction |].
  cbn [fold_left fst snd]. cbn [map fst] in Hnd.
  inversion Hnd as [| ? ? Hn Hnd']; subst.
  destruct Hin as [[= -> ->] | Hin].
  - fold (dict_update (dict_set fields key v) rating).
    rewrite dict_lookup_update_other by exact Hn.
    rewrite dict_lookup_set. now rewrite String.eqb_refl.
  - now apply IH.
Qed.

Section Pipeline.

Variables min_avg_rating min_min_rating : pynum.

Lemma meets_criteria_row (fields : list (string * json))
    (r : PaperRatingInfo) :
  meets_criteria min_avg_rating min_min_rating
    (JDict (dict_update fields (row_fields r)))
  = Ok (record_meets min_avg_rating min_min_rating r).
Proof.
  assert (Hnd : NoDup (map fst (row_fields r))).
  { cbn. repeat constructor; cbn; intuition discriminate. }
  assert (Ha : dict_lookup (dict_update fields (row_fields r)) "avg_rating"
               = Some (json_of_option json_of_num (avg_rating r))).
  { apply merged_fields; [exact Hnd |]. cbn. tauto. }
  assert (Hm : dict_lookup (dict_update fields (row_fields r)) "min_rating"
               = Some (json_of_option JInt (min_rating r))).
  { apply merged_fields; [exact Hnd |]. cbn. tauto. }
  unfold meets_criteria, lacks, py_ge, record_meets.
  cbn [py_contains py_getitem rbind]. rewrite Ha, Hm. cbn [rbind].
  destruct (avg_rating r) as [[z | q] |], (min_rating r) as [lo |];
    cbn [json_of_option json_of_num rbind number_value num_value];
    try reflexivity;
    now destruct (Qle_bool (num_value min_avg_rating) _).
Qed.

Lemma meets_criteria_empty (fields : list (string * json)) :
  meets_criteria min_avg_rating min_min_rating
    (JDict (dict_update fields empty_rating_fields)) = Ok false.
Proof.
  assert (Hnd : NoDup (map fst empty_rating_fields)).
  { cbn. repeat constructor; cbn; intuition discriminate. }
  assert (Ha : dict_lookup (dict_update fields empty_rating_fields)
                 "avg_rating" = Some JNull).
  { apply merged_fields; [exact Hnd |]. cbn. tauto. }
  unfold meets_criteria, lacks. cbn [py_contains py_getitem rbind].
  now rewrite Ha.
Qed.

Lemma filter_loop_total (papers : list json) :
  Forall (fun p => exists keep,
            meets_criteria min_avg_rating min_min_rating p = Ok keep) papers ->
  forall acc, exists out,
    filter_loop min_avg_rating min_min_rating papers acc = Ok out.
Proof.
  induction 1 as [| p papers (keep & Hk) _ IH]; intros acc;
    cbn [filter_loop]; [now exists acc |].
  rewrite Hk. cbn [rbind]. apply IH.
Qed.

Lemma filter_and_sort_total (papers : list json) :
  Forall (fun p => exists keep,
            meets_criteria min_avg_rating min_min_rating p = Ok keep) papers ->
  exists high,
    filter_and_sort_papers papers min_avg_rating min_min_rating = Ok high.
Proof.
  intros H. unfold filter_and_sort_papers.
  destruct (filter_loop_total papers H []) as (sel & Hs). rewrite Hs.
  cbn [rbind]. apply filter_loop_spec in Hs. cbn [app] in Hs. subst sel.
  destruct (decorate_qualified min_avg_rating min_min_rating
              (filter (qualifies min_avg_rating min_min_rating) papers))
    as (l & Hl & _).
  { apply Forall_forall. intros p Hp. now apply filter_In in Hp. }
  rewrite Hl. cbn [rbind]. now eexists.
Qed.

End Pipeline.

Lemma add_ratings_loop_papers (papers : list json) (d : rdict) :
  forall done u m res,
    add_ratings_loop papers d done u m = Ok res ->
    Forall (fun p => exists fields id,
              p = JDict fields /\ dict_lookup fields "paper_id" = Some id)
      papers.
Proof.
  induction papers as [| p ps IH]; intros done u m res; [constructor |].
  cbn [add_ratings_loop].
  destruct (py_getitem p "paper_id") as [id |] eqn:Eid; cbn [rbind];
    [| discriminate].
  destruct (hashable id); [| discriminate].
  destruct p as [| | | | | | fields]; try discriminate.
  cbn [py_getitem] in Eid.
  destruct (dict_lookup fields "paper_id") as [id' |] eqn:El;
    [| discriminate].
  intros H. constructor; [now exists fields, id' |].
  destruct (rdict_get d id); now apply IH in H.
Qed.

(** X28.  The whole path from the crawler's records to the list of high-rated
    papers: with the saved rows read back and merged into the papers, the
    filter does not raise, and a paper is listed exactly when the last
    record saved for its identifier has a mean and a minimum that reach
    the thresholds. *)
Theorem listed_iff_last_record_qualifies
    (min_avg_rating min_min_rating : pynum)
    (results : list PaperRatingInfo) (d : rdict)
    (papers_data merged : list json) (updated_count missing_count : Z) :
  create_ratings_dict (map result_row results) = Ok d ->
  add_ratings_to_papers papers_data d
  = Ok (merged, updated_count, missing_count) ->
  exists high,
    filter_and_sort_papers merged min_avg_rating min_min_rating = Ok high /\
    forall fields id,
      In (JDict fields) papers_data ->
      dict_lookup fields "paper_id" = Some (JStr (text_of_string id)) ->
      (In (with_rating d (JDict fields)) high <->
       exists r,
         last_record id results = Some r /\
         record_meets min_avg_rating min_min_rating r = true).
Proof.
  intros Hd Ha.
  pose proof (add_ratings_loop_papers _ _ _ _ _ _ Ha) as Hpapers.
  apply add_ratings_loop_exact in Ha. cbn [app] in Ha. subst merged.
  destruct (filter_and_sort_total min_avg_rating min_min_rating
              (map (with_rating d) papers_data)) as (high & Hhigh).
  { apply Forall_forall. intros p' Hp'.
    apply in_map_iff in Hp' as (p & <- & Hp).
    apply (proj1 (Forall_forall _ _) Hpapers) in Hp
      as (fields & id & -> & Hid).
    cbn [with_rating]. rewrite Hid.
    destruct (rdict_get d id) as [rating |] eqn:Eg.
    - destruct (rdict_get_from_records d id rating) as (r & ->);
        [| exact Eg |].
      + apply (create_ratings_loop_from_records results [] d);
          [constructor | exact Hd].
      + eexists. apply meets_criteria_row.
    - eexists. apply meets_criteria_empty. }
  exists high. split; [exact Hhigh |].
  intros fields id Hin Hid.
  pose proof (out_permutation _ _ _ _ Hhigh) as Hperm.
  assert (Hmem : In (with_rating d (JDict fields)) high <->
                 qualifies min_avg_rating min_min_rating
                   (with_rating d (JDict fields)) = true).
  { split.
    - intros H. apply (Permutation_in _ Hperm) in H.
      now apply filter_In in H.
    - intros H. apply (Permutation_in _ (Permutation_sym Hperm)).
      apply filter_In. split; [| exact H].
      apply in_map_iff. now exists (JDict fields). }
  rewrite Hmem. unfold qualifies. cbn [with_rating]. rewrite Hid.
  rewrite (saved_rows_lookup results d id Hd).
  destruct (last_record id results) as [r |]; cbn [option_map].
  - rewrite meets_criteria_row.
    split.
    + intros H. exists r. split; [reflexivity |].
      now destruct (record_meets min_avg_rating min_min_rating r).
    + intros (r' & [= <-] & ->). reflexivity.
  - rewrite meets_criteria_empty.
    split; [discriminate | intros (r' & H & _); discriminate].
Qed.

Lemma listed_iff_last_record_qualifies_witness :
  exists high,
    filter_and_sort_papers example_merged (PInt 8) (PInt 8) = Ok high /\
    forall fields id,
      In (JDict fields) example_catalogue ->
      dict_lookup fields "paper_id" = Some (JStr (text_of_string id)) ->
      (In (with_rating example_ratings_dict (JDict fields)) high <->
       exists r,
         last_record id example_results = Some r /\
         record_meets (PInt 8) (PInt 8) r = true).
Proof.
  exact (listed_iff_last_record_qualifies (PInt 8) (PInt 8) example_results
           example_ratings_dict example_catalogue example_merged 1 1
           eq_refl eq_refl).
Defined.
